(** * The OLG Hamm page watcher (listener.py): model and verified properties

    The program polls one web page, hashes the page and one section of it,
    compares the two digests with the pair kept in a two-line state file,
    notifies over Telegram and e-mail when a digest changed, and stores the
    new pair.  This file embeds listener.py function by function and proves
    the properties of its specification.

    Conventions of the embedding.
    - A Python [str] is the list of its Unicode code points ([Z]).
    - A Python [bytes] is a list of octets ([Z], each in 0..255).
    - Effects (logging, HTTP, the state file, sleeping, exceptions) live in
      the monad [M]: a function from the world to an outcome and a new world.
      What the outside world answers (HTTP responses, the exceptions of the
      libraries on a header or a sleep length, disk faults, the parse tree
      that the HTML parser builds) is read from an environment [Env]. *)

From Stdlib Require Import ZArith List String Ascii Bool Lia DecimalString.
Import ListNotations.
Set Warnings "-register-all".
Local Open Scope Z_scope.

(* ================================================================== *)
(** * Python strings *)
(* ================================================================== *)

Module Py.

(** A [str] is a sequence of code points (0 to 0x10FFFF), a [bytes] a
    sequence of octets. *)
Definition str := list Z.
Definition bytes := list Z.

Definition octets (s : string) : bytes :=
  map (fun a => Z.of_N (N_of_ascii a)) (list_ascii_of_string s).

Definition cont (b : Z) : Z := Z.land b 0x3F.

(** Decoding of a UTF-8 source literal into its code points: how Python reads
    the string literals of listener.py, which is a UTF-8 file. *)
Fixpoint decode_utf8 (bs : bytes) : str :=
  match bs with
  | [] => []
  | b0 :: r0 =>
    if b0 <? 0x80 then b0 :: decode_utf8 r0
    else match r0 with
    | [] => [0xFFFD]
    | b1 :: r1 =>
      if b0 <? 0xE0 then
        (Z.shiftl (Z.land b0 0x1F) 6 + cont b1) :: decode_utf8 r1
      else match r1 with
      | [] => [0xFFFD]
      | b2 :: r2 =>
        if b0 <? 0xF0 then
          (Z.shiftl (Z.land b0 0x0F) 12 + Z.shiftl (cont b1) 6 + cont b2)
            :: decode_utf8 r2
        else match r2 with
        | [] => [0xFFFD]
        | b3 :: r3 =>
          (Z.shiftl (Z.land b0 0x07) 18 + Z.shiftl (cont b1) 12
             + Z.shiftl (cont b2) 6 + cont b3) :: decode_utf8 r3
        end
      end
    end
  end.

(** A string literal of the source. *)
Definition lit (s : string) : str := decode_utf8 (octets s).

(** Surrogate code points have no UTF-8 encoding. *)
Definition is_surrogate (c : Z) : bool := (0xD800 <=? c) && (c <=? 0xDFFF).

(** [str.encode("utf-8")] of one code point; [None] where Python raises
    UnicodeEncodeError. *)
Definition encode_codepoint (c : Z) : option bytes :=
  if c <? 0x80 then Some [c]
  else if c <? 0x800 then
    Some [Z.lor 0xC0 (Z.shiftr c 6); Z.lor 0x80 (Z.land c 0x3F)]
  else if c <? 0x10000 then
    if is_surrogate c then None
    else Some [Z.lor 0xE0 (Z.shiftr c 12);
               Z.lor 0x80 (Z.land (Z.shiftr c 6) 0x3F);
               Z.lor 0x80 (Z.land c 0x3F)]
  else
    Some [Z.lor 0xF0 (Z.shiftr c 18);
          Z.lor 0x80 (Z.land (Z.shiftr c 12) 0x3F);
          Z.lor 0x80 (Z.land (Z.shiftr c 6) 0x3F);
          Z.lor 0x80 (Z.land c 0x3F)].

Fixpoint encode_utf8 (s : str) : option bytes :=
  match s with
  | [] => Some []
  | c :: r =>
    match encode_codepoint c, encode_utf8 r with
    | Some bs, Some rest => Some (bs ++ rest)
    | _, _ => None
    end
  end.

(** Equality of strings ([==] on str). *)
Fixpoint eqb (a b : str) : bool :=
  match a, b with
  | [], [] => true
  | x :: a', y :: b' => (x =? y) && eqb a' b'
  | _, _ => false
  end.

(** [s.startswith(p)] *)
Fixpoint startswith (s p : str) : bool :=
  match p, s with
  | [], _ => true
  | y :: p', x :: s' => (x =? y) && startswith s' p'
  | _ :: _, [] => false
  end.

(** [sep.join(parts)] *)
Fixpoint join (sep : str) (parts : list str) : str :=
  match parts with
  | [] => []
  | [p] => p
  | p :: rest => p ++ sep ++ join sep rest
  end.

(** [str.isspace] of one code point: the characters [str.strip()] removes. *)
Definition isspace (c : Z) : bool :=
  ((0x09 <=? c) && (c <=? 0x0D)) || ((0x1C <=? c) && (c <=? 0x20))
  || (c =? 0x85) || (c =? 0xA0) || (c =? 0x1680)
  || ((0x2000 <=? c) && (c <=? 0x200A))
  || (c =? 0x2028) || (c =? 0x2029) || (c =? 0x202F) || (c =? 0x205F)
  || (c =? 0x3000).

Fixpoint lstrip (s : str) : str :=
  match s with
  | [] => []
  | c :: r => if isspace c then lstrip r else s
  end.

Definition rstrip (s : str) : str := rev (lstrip (rev s)).

(** [s.strip()] *)
Definition strip (s : str) : str := rstrip (lstrip s).

(** The line boundaries of [str.splitlines]. *)
Definition is_linebreak (c : Z) : bool :=
  ((0x0A <=? c) && (c <=? 0x0D)) || ((0x1C <=? c) && (c <=? 0x1E))
  || (c =? 0x85) || (c =? 0x2028) || (c =? 0x2029).

(** [s.splitlines()]: [cur] is the line read so far, newest character first.
    A carriage return followed by a line feed is one boundary; a last line
    without terminator counts when it is not empty. *)
Fixpoint splitlines_from (cur : str) (s : str) : list str :=
  match s with
  | [] => match cur with [] => [] | _ => [rev cur] end
  | c :: r =>
    if is_linebreak c then
      rev cur ::
        match r with
        | c' :: r' =>
          if (c =? 0x0D) && (c' =? 0x0A) then splitlines_from [] r'
          else splitlines_from [] r
        | [] => splitlines_from [] r
        end
    else splitlines_from (c :: cur) r
  end.

Definition splitlines (s : str) : list str := splitlines_from [] s.

(** [s.split(sep)] for a one-character separator: never an empty list. *)
Fixpoint split_from (sep : Z) (cur : str) (s : str) : list str :=
  match s with
  | [] => [rev cur]
  | c :: r =>
    if c =? sep then rev cur :: split_from sep [] r
    else split_from sep (c :: cur) r
  end.

Definition split (s : str) (sep : Z) : list str := split_from sep [] s.

(** The longest prefix of characters in [p]. *)
Fixpoint take_while (p : Z -> bool) (s : str) : str :=
  match s with
  | c :: r => if p c then c :: take_while p r else []
  | [] => []
  end.

(** [str(n)] for an integer. *)
Definition of_int (n : Z) : str := lit (NilZero.string_of_int (Z.to_int n)).

(** Truthiness of an optional string: [None] and [""] are falsy. *)
Definition truthy (o : option str) : bool :=
  match o with
  | Some (_ :: _) => true
  | _ => false
  end.

(** [o or default] *)
Definition or_else (o : option str) (default : str) : str :=
  match o with
  | Some (c :: r) => c :: r
  | _ => default
  end.

End Py.

(* ================================================================== *)
(** * hashlib.sha256 *)
(* ================================================================== *)

(** SHA-256 on octet strings, with 32-bit words as [Z] and the wrap-around
    written out.  The round constants and the initial state are computed the
    way the standard defines them: from the fractional parts of the cube and
    square roots of the first sixty-four primes. *)
Module Sha256.

Definition wrap (x : Z) : Z := x mod 2 ^ 32.
Definition add32 (x y : Z) : Z := wrap (x + y).
Definition rotr (n x : Z) : Z :=
  Z.lor (Z.shiftr x n) (wrap (Z.shiftl x (32 - n))).
Definition not32 (x : Z) : Z := Z.lxor x 0xFFFFFFFF.

Definition ch (x y z : Z) : Z := Z.lxor (Z.land x y) (Z.land (not32 x) z).
Definition maj (x y z : Z) : Z :=
  Z.lxor (Z.lxor (Z.land x y) (Z.land x z)) (Z.land y z).
Definition big_sigma0 (x : Z) : Z :=
  Z.lxor (Z.lxor (rotr 2 x) (rotr 13 x)) (rotr 22 x).
Definition big_sigma1 (x : Z) : Z :=
  Z.lxor (Z.lxor (rotr 6 x) (rotr 11 x)) (rotr 25 x).
Definition small_sigma0 (x : Z) : Z :=
  Z.lxor (Z.lxor (rotr 7 x) (rotr 18 x)) (Z.shiftr x 3).
Definition small_sigma1 (x : Z) : Z :=
  Z.lxor (Z.lxor (rotr 17 x) (rotr 19 x)) (Z.shiftr x 10).

Definition is_prime (n : nat) : bool :=
  forallb (fun d => negb (Nat.eqb (Nat.modulo n d) 0)) (seq 2 (n - 2)).

Definition primes : list Z :=
  Eval vm_compute in
    map Z.of_nat (firstn 64 (filter is_prime (seq 2 400))).

(** Integer cube root by bisection on the bits of the result. *)
Fixpoint cube_root_bits (bits : nat) (n r : Z) : Z :=
  match bits with
  | O => r
  | S b =>
    let r' := r + 2 ^ Z.of_nat b in
    cube_root_bits b n (if r' * r' * r' <=? n then r' else r)
  end.

Definition round_constants : list Z :=
  Eval vm_compute in
    map (fun p => wrap (cube_root_bits 40 (p * 2 ^ 96) 0)) primes.

Definition initial_state : list Z :=
  Eval vm_compute in
    map (fun p => wrap (Z.sqrt (p * 2 ^ 64))) (firstn 8 primes).

(** Big-endian octets of a [len]-octet number. *)
Fixpoint be_octets (len : nat) (x : Z) : list Z :=
  match len with
  | O => []
  | S l => Z.shiftr x (8 * Z.of_nat l) mod 256 :: be_octets l x
  end.

(** Padding: one 1 bit, zeros up to 56 modulo 64 octets, then the bit length
    on eight octets. *)
Definition pad (msg : list Z) : list Z :=
  let len := Z.of_nat (List.length msg) in
  let zeros := Z.to_nat ((55 - len) mod 64) in
  msg ++ [0x80] ++ repeat 0 zeros ++ be_octets 8 (8 * len).

Fixpoint words_of (fuel : nat) (bs : list Z) : list Z :=
  match fuel, bs with
  | S f, b0 :: b1 :: b2 :: b3 :: r =>
    (Z.shiftl b0 24 + Z.shiftl b1 16 + Z.shiftl b2 8 + b3) :: words_of f r
  | _, _ => []
  end.

Fixpoint blocks_of (fuel : nat) (ws : list Z) : list (list Z) :=
  match fuel, ws with
  | S f, _ :: _ => firstn 16 ws :: blocks_of f (skipn 16 ws)
  | _, _ => []
  end.

(** Message schedule: [w] holds the words computed so far, newest first. *)
Fixpoint schedule (n : nat) (w : list Z) : list Z :=
  match n with
  | O => rev w
  | S m =>
    let x := add32 (add32 (small_sigma1 (nth 1 w 0)) (nth 6 w 0))
                   (add32 (small_sigma0 (nth 14 w 0)) (nth 15 w 0)) in
    schedule m (x :: w)
  end.

Record regs := Regs { ra : Z; rb : Z; rc : Z; rd : Z;
                      re : Z; rf : Z; rg : Z; rh : Z }.

Definition round (s : regs) (kw : Z * Z) : regs :=
  let t1 := add32 (add32 (add32 (rh s) (big_sigma1 (re s)))
                         (add32 (ch (re s) (rf s) (rg s)) (fst kw)))
                  (snd kw) in
  let t2 := add32 (big_sigma0 (ra s)) (maj (ra s) (rb s) (rc s)) in
  Regs (add32 t1 t2) (ra s) (rb s) (rc s) (add32 (rd s) t1) (re s) (rf s) (rg s).

Definition regs_of (h : list Z) : regs :=
  Regs (nth 0 h 0) (nth 1 h 0) (nth 2 h 0) (nth 3 h 0)
       (nth 4 h 0) (nth 5 h 0) (nth 6 h 0) (nth 7 h 0).

Definition list_of (s : regs) : list Z :=
  [ra s; rb s; rc s; rd s; re s; rf s; rg s; rh s].

Definition compress (h : list Z) (block : list Z) : list Z :=
  let w := schedule 48 (rev block) in
  let s := fold_left round (combine round_constants w) (regs_of h) in
  map (fun p => add32 (fst p) (snd p)) (combine h (list_of s)).

(** The digest as eight 32-bit words. *)
Definition digest_words (msg : list Z) : list Z :=
  let padded := pad msg in
  let ws := words_of (List.length padded) padded in
  fold_left compress (blocks_of (List.length ws) ws) initial_state.

Definition hex_digit (d : Z) : Z :=
  if d <? 10 then 48 + d else 87 + d.

Fixpoint hex_of_word (digits : nat) (x : Z) : Py.str :=
  match digits with
  | O => []
  | S d => hex_digit (Z.shiftr x (4 * Z.of_nat d) mod 16) :: hex_of_word d x
  end.

(** [hashlib.sha256(msg).hexdigest()]: sixty-four lower-case hex digits. *)
Definition hexdigest (msg : Py.bytes) : Py.str :=
  flat_map (hex_of_word 8) (digest_words msg).

End Sha256.

(* ================================================================== *)
(** * Exceptions, events, the world and the effect monad *)
(* ================================================================== *)

(** The exceptions the program meets, all subclasses of [Exception].
    [RequestException] stands for requests.exceptions.RequestException and
    its subclasses (ConnectionError, Timeout, HTTPError); signals outside
    [Exception] (KeyboardInterrupt, SystemExit) end the process from outside
    and are not modelled. *)
Inductive exn :=
| RequestException (msg : Py.str)
| UnicodeEncodeError (msg : Py.str)
| OSError (msg : Py.str)
| ValueError (msg : Py.str)
| OverflowError (msg : Py.str)
| OtherException (msg : Py.str).

(** [str(e)] *)
Definition exn_str (e : exn) : Py.str :=
  match e with
  | RequestException m | UnicodeEncodeError m | OSError m
  | ValueError m | OverflowError m | OtherException m => m
  end.

(** The first run of characters that a codec cannot encode, as the strict
    error handler reports it: the position of its first character and the
    position after its last one. *)
Fixpoint bad_run (bad : Z -> bool) (pos : nat) (s : Py.str)
  : option (nat * nat) :=
  match s with
  | [] => None
  | c :: r =>
    if bad c then
      Some (pos, (pos + 1 + List.length (Py.take_while bad r))%nat)
    else bad_run bad (S pos) r
  end.

(** How the message of a UnicodeEncodeError writes the code point. *)
Definition escaped (c : Z) : Py.str :=
  if c <=? 0xFF then Py.lit "\x" ++ Sha256.hex_of_word 2 c
  else if c <=? 0xFFFF then Py.lit "\u" ++ Sha256.hex_of_word 4 c
  else Py.lit "\U" ++ Sha256.hex_of_word 8 c.

(** [str(e)] of the UnicodeEncodeError that [s.encode(codec)] raises, for a
    codec that cannot encode the characters in [bad]: one character is named,
    a longer run is given by its first and last position. *)
Definition encode_error (codec reason : string) (bad : Z -> bool) (s : Py.str)
  : exn :=
  UnicodeEncodeError
    match bad_run bad 0 s with
    | Some (start, stop) =>
      Py.lit "'" ++ Py.lit codec ++ Py.lit "' codec can't encode "
        ++ (if (stop =? S start)%nat then
              Py.lit "character '" ++ escaped (nth start s 0)
                ++ Py.lit "' in position " ++ Py.of_int (Z.of_nat start)
            else
              Py.lit "characters in position " ++ Py.of_int (Z.of_nat start)
                ++ Py.lit "-" ++ Py.of_int (Z.of_nat (stop - 1)))
        ++ Py.lit ": " ++ Py.lit reason
    | None => []
    end.

(** [isinstance(e, requests.exceptions.RequestException)] *)
Definition is_RequestException (e : exn) : bool :=
  match e with RequestException _ => true | _ => false end.

(** [isinstance(e, Exception)] *)
Definition is_Exception (e : exn) : bool := true.

Inductive outcome (A : Type) :=
| Returns (a : A)
| Raises (e : exn).
Arguments Returns {A} a.
Arguments Raises {A} e.

(** JSON values of the request payloads. *)
Inductive json :=
| JString (s : Py.str)
| JObject (fields : list (Py.str * json))
| JArray (items : list json).

Inductive level := DEBUG | INFO | WARNING | ERROR.

(** What the program does to the outside, in the order it does it.
    [EvNotify] is not an effect of its own: it marks a call of [notify]
    with its two arguments. *)
Inductive event :=
| EvLog (lvl : level) (msg : Py.str) (exc_info : bool)
| EvGet (url : Py.str) (headers : list (Py.str * Py.str)) (timeout : Z)
| EvPost (url : Py.str) (payload : json) (headers : list (Py.str * Py.str))
         (timeout : Z)
| EvNotify (subject body : Py.str)
| EvSleep (seconds : Z).

(** The state file as the program can find it: [Content text] holds what
    [f.read()] returns.  The file is written and read in text mode; the
    line separator of the platform is the line feed, so the text written is
    the text read. *)
Inductive file_state :=
| Absent
| Unreadable (e : exn)
| Content (text : Py.str).

(** The world: a clock that ticks at every call to the outside, the state
    file, and the events so far, newest first. *)
Record World := mkWorld {
  clock : nat;
  hash_file : file_state;
  trace : list event
}.

Record Response := mkResponse {
  status_code : Z;
  reason : Py.str;
  resp_url : Py.str;
  text : Py.str
}.

(** The markup tree of bs4: a tag with its name, attributes and children, or
    a string node (text, comment). *)
Inductive PageElement :=
| Tag (name : Py.str) (attrs : list (Py.str * Py.str))
      (contents : list PageElement)
| NavigableString (s : Py.str).

(** What the environment answers.  An HTTP call issued at tick [t] either
    returns a response or raises a RequestException with a message.  A
    header that the program passes to [requests.post] goes through
    [http.client], which raises an exception of its own on a value that it
    cannot send (UnicodeEncodeError on a character outside Latin-1,
    ValueError on a line break): [header_fault name value] is that exception.
    [time.sleep] raises on a length that the platform cannot wait for
    (OverflowError, OSError): [sleep_fault seconds] is that exception.  A
    file operation at tick [t] may fail with an error after [k] characters
    went out ([k] matters for writes only).  The two functions of bs4 that
    the program calls are part of the environment as well: the parser
    [BeautifulSoup(html, "html.parser")], which returns the document node or
    raises, and [str(element)], the serialisation of a node to markup. *)
Record Env := mkEnv {
  http_get : nat -> Py.str -> Response + Py.str;
  http_post : nat -> Py.str -> json -> Response + Py.str;
  header_fault : Py.str -> Py.str -> option exn;
  sleep_fault : Z -> option exn;
  disk_fault : nat -> option (nat * exn);
  BeautifulSoup : Py.str -> outcome PageElement;
  element_str : PageElement -> Py.str
}.

(** The configuration read from the process environment at import time.
    [os.getenv] without default gives an optional string. *)
Record Config := mkConfig {
  CHECK_INTERVAL : Z;
  HASH_FILE : Py.str;
  BREVO_API_KEY : option Py.str;
  FROM_EMAIL : option Py.str;
  FROM_NAME : Py.str;
  MAIL_TO : option Py.str;
  TELEGRAM_BOT_TOKEN : option Py.str;
  TELEGRAM_CHAT_ID : option Py.str
}.

Definition M (A : Type) : Type := World -> outcome A * World.

Definition ret {A} (a : A) : M A := fun w => (Returns a, w).

Definition bind {A B} (m : M A) (k : A -> M B) : M B :=
  fun w =>
    match m w with
    | (Returns a, w') => k a w'
    | (Raises e, w') => (Raises e, w')
    end.

Definition raise {A} (e : exn) : M A := fun w => (Raises e, w).

Notation "x <- m ;; k" := (bind m (fun x => k))
  (at level 61, m at next level, right associativity).
Notation "m ;; k" := (bind m (fun _ => k))
  (at level 61, right associativity).

(** One [except] clause: the class test and the handler. *)
Definition except {A} (cls : exn -> bool) (h : exn -> M A)
  : (exn -> bool) * (exn -> M A) := (cls, h).

(** The first clause whose class matches handles the exception; with no
    matching clause it propagates. *)
Fixpoint dispatch {A} (clauses : list ((exn -> bool) * (exn -> M A)))
    (e : exn) : M A :=
  match clauses with
  | [] => raise e
  | (cls, h) :: rest => if cls e then h e else dispatch rest e
  end.

(** [try: body except ...] *)
Definition try_ {A} (body : M A)
    (clauses : list ((exn -> bool) * (exn -> M A))) : M A :=
  fun w =>
    match body w with
    | (Returns a, w') => (Returns a, w')
    | (Raises e, w') => dispatch clauses e w'
    end.

Definition lift {A} (o : outcome A) : M A := fun w => (o, w).

Definition emit (e : event) : M unit :=
  fun w => (Returns tt, mkWorld (clock w) (hash_file w) (e :: trace w)).

Definition tick : M nat :=
  fun w => (Returns (clock w), mkWorld (S (clock w)) (hash_file w) (trace w)).

Definition get_file : M file_state := fun w => (Returns (hash_file w), w).

Definition set_file (f : file_state) : M unit :=
  fun w => (Returns tt, mkWorld (clock w) f (trace w)).

(** [logger.debug/info/warning/error(msg)].  The basic configuration shows
    INFO and above; an event records the call, not the output. *)
Definition log (lvl : level) (msg : Py.str) : M unit := emit (EvLog lvl msg false).

Definition NL : Py.str := [10].

Definition opt_get (o : option Py.str) : Py.str :=
  match o with Some s => s | None => [] end.

(** [a != b] where [b] may be [None]. *)
Definition differs (a : Py.str) (b : option Py.str) : bool :=
  match b with
  | Some s => negb (Py.eqb a s)
  | None => true
  end.

(* ================================================================== *)
(** * listener.py *)
(* ================================================================== *)

Definition URL : Py.str :=
  Py.lit "https://www.olg-hamm.nrw.de/aufgaben/geschaeftsverteilung/verwaltung/dez05-neu/01_Einstellungsverfahren/index.php".

Definition TARGET_HEADING : Py.str :=
  Py.lit "Kurzfristig zu besetzende Ausbildungsplätze:".

Definition SUBJECT_STRUCTURE : Py.str :=
  Py.lit "OLG Hamm – Strukturänderung erkannt".

Definition BODY_STRUCTURE : Py.str :=
  Py.lit "Die Gesamtstruktur der Seite hat sich verändert (möglicherweise Layout oder Position des Ausbildungsbereichs).".

Definition SUBJECT_UPDATE : Py.str :=
  Py.lit "OLG Hamm – Ausbildungsplatz-Update!".

Definition PLACEHOLDER : Py.str := Py.lit "[leer]".

Definition TELEGRAM_API : Py.str := Py.lit "https://api.telegram.org/bot".
Definition BREVO_URL : Py.str := Py.lit "https://api.brevo.com/v3/smtp/email".

(** The in-memory pair of [main]: [last_full_hash], [last_section_hash]. *)
Record Memory := mkMemory {
  last_full_hash : option Py.str;
  last_section_hash : option Py.str
}.

(** ** The tree functions of bs4 that the extractor calls *)

Section FirstMatch.
Variable A : Type.
Variable f : PageElement -> list PageElement -> option A.

(** The first element of a child list, in order, on which [f] succeeds;
    [f] receives the element and the siblings after it. *)
Fixpoint first_match (l : list PageElement) : option A :=
  match l with
  | [] => None
  | c :: rest =>
    match f c rest with
    | Some r => Some r
    | None => first_match rest
    end
  end.
End FirstMatch.
Arguments first_match {A} f l.

(** [element.string]: the single string below a chain of only children. *)
Fixpoint dot_string (e : PageElement) : option Py.str :=
  match e with
  | NavigableString s => Some s
  | Tag _ _ [c] => dot_string c
  | Tag _ _ _ => None
  end.

(** The test of [find("h5", string=TARGET)] on one element. *)
Definition is_target (e : PageElement) : bool :=
  match e with
  | Tag name _ _ =>
    Py.eqb name (Py.lit "h5") &&
    match dot_string e with
    | Some s => Py.eqb s TARGET_HEADING
    | None => false
    end
  | NavigableString _ => false
  end.

(** Document-order search below [e]: [e] itself, then its descendants.  The
    result is the element found with the siblings that follow it. *)
Fixpoint search (e : PageElement) (following : list PageElement)
  : option (PageElement * list PageElement) :=
  if is_target e then Some (e, following)
  else match e with
       | Tag _ _ cs => first_match search cs
       | NavigableString _ => None
       end.

(** [soup.find("h5", string=TARGET)]: the first match among the descendants
    of the document node. *)
Definition find (soup : PageElement)
  : option (PageElement * list PageElement) :=
  match soup with
  | Tag _ _ cs => first_match search cs
  | NavigableString _ => None
  end.

Definition is_tag (e : PageElement) : bool :=
  match e with Tag _ _ _ => true | NavigableString _ => false end.

(** [header.find_next_siblings()]: the tags among the following siblings. *)
Definition find_next_siblings (following : list PageElement)
  : list PageElement := filter is_tag following.

Definition tag_name (e : PageElement) : option Py.str :=
  match e with Tag n _ _ => Some n | NavigableString _ => None end.

(** ** get_hash (lines 123-124)

    [(content or "").encode("utf-8")] raises on a lone surrogate, the only
    code points without a UTF-8 encoding. *)
Definition get_hash (content : option Py.str) : outcome Py.str :=
  match Py.encode_utf8 (Py.or_else content []) with
  | Some octets => Returns (Sha256.hexdigest octets)
  | None =>
    Raises (encode_error "utf-8" "surrogates not allowed" Py.is_surrogate
              (Py.or_else content []))
  end.

Section Listener.

Variable env : Env.
Variable cfg : Config.

(** ** The calls to the outside *)

(** [response.raise_for_status()] *)
Definition raise_for_status (r : Response) : M unit :=
  let msg kind :=
    Py.of_int (status_code r) ++ Py.lit kind ++ reason r
      ++ Py.lit " for url: " ++ resp_url r in
  if (400 <=? status_code r) && (status_code r <? 500) then
    raise (RequestException (msg " Client Error: "%string))
  else if (500 <=? status_code r) && (status_code r <? 600) then
    raise (RequestException (msg " Server Error: "%string))
  else ret tt.

(** [requests.get(url, headers=headers, timeout=timeout)].  The one call of
    the program passes a constant header of printable ASCII, on which
    [http.client] raises nothing. *)
Definition requests_get (url : Py.str) (headers : list (Py.str * Py.str))
    (timeout : Z) : M Response :=
  emit (EvGet url headers timeout);;
  t <- tick;;
  match http_get env t url with
  | inl r => ret r
  | inr msg => raise (RequestException msg)
  end.

(** [putheader] for each header in turn: the first exception, if any. *)
Fixpoint put_headers (headers : list (Py.str * Py.str)) : option exn :=
  match headers with
  | [] => None
  | (name, value) :: rest =>
    match header_fault env name value with
    | Some e => Some e
    | None => put_headers rest
    end
  end.

(** [requests.post(url, json=payload, headers=headers, timeout=timeout)].
    The event records the call.  A RequestException comes from the library
    or the network; when the connection stands, the headers are sent, and
    an exception of [http.client] on one of them leaves the call as it is;
    otherwise the response is returned. *)
Definition requests_post (url : Py.str) (payload : json)
    (headers : list (Py.str * Py.str)) (timeout : Z) : M Response :=
  emit (EvPost url payload headers timeout);;
  t <- tick;;
  match http_post env t url payload with
  | inl r =>
    match put_headers headers with
    | Some e => raise e
    | None => ret r
    end
  | inr msg => raise (RequestException msg)
  end.

(** A file operation that can only fail or succeed as a whole. *)
Definition file_op : M unit :=
  t <- tick;;
  match disk_fault env t with
  | Some (_, e) => raise e
  | None => ret tt
  end.

(** [os.path.exists(HASH_FILE)] *)
Definition os_path_exists : M bool :=
  f <- get_file;;
  ret (match f with Absent => false | _ => true end).

(** [open(HASH_FILE, "r")] and [f.read()] *)
Definition read_text : M Py.str :=
  f <- get_file;;
  match f with
  | Absent => raise (OSError (Py.lit "No such file or directory"))
  | Unreadable e => raise e
  | Content s => ret s
  end.

(** [open(HASH_FILE, "w")]: the file is created or emptied. *)
Definition open_w : M unit :=
  file_op;;
  set_file (Content []).

(** [f.write(s)]: the characters are appended; when the write fails after
    [k] characters, these [k] stay in the file. *)
Definition write (s : Py.str) : M unit :=
  f <- get_file;;
  let old := match f with Content c => c | _ => [] end in
  t <- tick;;
  match disk_fault env t with
  | Some (k, e) => set_file (Content (old ++ firstn k s));; raise e
  | None => set_file (Content (old ++ s))
  end.

(** [time.sleep(seconds)]: ValueError on a negative length, the exception of
    the platform on a length it cannot wait for; the event records a sleep
    that took place. *)
Definition time_sleep (seconds : Z) : M unit :=
  if seconds <? 0 then
    raise (ValueError (Py.lit "sleep length must be non-negative"))
  else
    match sleep_fault env seconds with
    | Some e => raise e
    | None => emit (EvSleep seconds);; _ <- tick;; ret tt
    end.

(** ** send_telegram (lines 36-51) *)
Definition send_telegram (message : Py.str) : M bool :=
  if negb (Py.truthy (TELEGRAM_BOT_TOKEN cfg)
           && Py.truthy (TELEGRAM_CHAT_ID cfg)) then
    log DEBUG (Py.lit "Telegram-Benachrichtigung übersprungen: Variablen fehlen");;
    ret false
  else
    let url := TELEGRAM_API ++ opt_get (TELEGRAM_BOT_TOKEN cfg)
                 ++ Py.lit "/sendMessage" in
    let payload :=
      JObject [(Py.lit "chat_id", JString (opt_get (TELEGRAM_CHAT_ID cfg)));
               (Py.lit "text", JString message);
               (Py.lit "parse_mode", JString (Py.lit "HTML"))] in
    try_ (response <- requests_post url payload [] 10;;
          raise_for_status response;;
          log INFO (Py.lit "Telegram-Nachricht gesendet");;
          ret true)
      [except is_RequestException (fun e =>
         log ERROR (Py.lit "Fehler beim Telegram-Versand: " ++ exn_str e);;
         ret false)].

(** ** send_mail (lines 54-86) *)
Definition send_mail (subject body : Py.str) : M bool :=
  if negb (Py.truthy (BREVO_API_KEY cfg) && Py.truthy (FROM_EMAIL cfg)
           && Py.truthy (MAIL_TO cfg)) then
    log DEBUG (Py.lit "Mailversand übersprungen: Brevo-Variablen fehlen");;
    ret false
  else
    let recipients :=
      map (fun email => JObject [(Py.lit "email", JString (Py.strip email))])
          (Py.split (opt_get (MAIL_TO cfg)) 44) in
    let payload :=
      JObject [(Py.lit "sender",
                JObject [(Py.lit "name", JString (FROM_NAME cfg));
                         (Py.lit "email", JString (opt_get (FROM_EMAIL cfg)))]);
               (Py.lit "to", JArray recipients);
               (Py.lit "subject", JString subject);
               (Py.lit "textContent", JString body)] in
    let headers :=
      [(Py.lit "accept", Py.lit "application/json");
       (Py.lit "content-type", Py.lit "application/json");
       (Py.lit "api-key", opt_get (BREVO_API_KEY cfg))] in
    try_ (response <- requests_post BREVO_URL payload headers 10;;
          raise_for_status response;;
          log INFO (Py.lit "Mail via Brevo gesendet: " ++ subject);;
          ret true)
      [except is_RequestException (fun e =>
         log ERROR (Py.lit "Fehler beim Brevo-Mailversand: " ++ exn_str e);;
         ret false)].

(** ** notify (lines 89-94) *)
Definition notify (subject body : Py.str) : M unit :=
  emit (EvNotify subject body);;
  telegram_sent <- send_telegram
    (Py.lit "<b>" ++ subject ++ Py.lit "</b>" ++ NL ++ NL ++ body);;
  mail_sent <- send_mail subject body;;
  if negb telegram_sent && negb mail_sent then
    log WARNING (Py.lit "Keine Benachrichtigung konnte versendet werden!")
  else ret tt.

(** ** fetch_page (lines 97-103) *)
Definition fetch_page : M Py.str :=
  let headers :=
    [(Py.lit "User-Agent",
      Py.lit "Mozilla/5.0 (Windows NT 10.0; Win64; x64) AppleWebKit/537.36")] in
  response <- requests_get URL headers 15;;
  raise_for_status response;;
  ret (text response).

(** ** extract_training_section (lines 106-120) *)

(** The loop of lines 114-117 over the sibling tags: it stops at the first
    one whose name is not empty and starts with the letter h. *)
Fixpoint collect (siblings : list PageElement) : list Py.str :=
  match siblings with
  | [] => []
  | sibling :: rest =>
    if Py.truthy (tag_name sibling)
       && Py.startswith (opt_get (tag_name sibling)) (Py.lit "h")
    then []
    else element_str env sibling :: collect rest
  end.

(** Lines 108-120, on the parsed document. *)
Definition extract_from_soup (soup : PageElement) : M (option Py.str) :=
  match find soup with
  | None =>
    log DEBUG (Py.lit "Ausbildungsbereich-Header nicht gefunden");;
    ret None
  | Some (header, following) =>
    let content_parts := collect (find_next_siblings following) in
    let combined := Py.strip (Py.join NL content_parts) in
    ret (match combined with [] => None | _ => Some combined end)
  end.

Definition extract_training_section (html : Py.str) : M (option Py.str) :=
  soup <- lift (BeautifulSoup env html);;
  extract_from_soup soup.

(** ** load_hashes (lines 127-139)

    Inside the [try], [Some pair] is the early [return lines[0], lines[1]];
    [None] falls through to the last line of the function. *)
Definition load_hashes : M (option Py.str * option Py.str) :=
  found <- os_path_exists;;
  if negb found then
    log INFO (Py.lit "Keine vorherige Hash-Datei gefunden - erster Durchlauf");;
    ret (None, None)
  else
    early <- try_ (content <- read_text;;
                   match Py.splitlines content with
                   | [line0; line1] =>
                     log DEBUG (Py.lit "Hashes erfolgreich geladen");;
                     ret (Some (Some line0, Some line1))
                   | _ => ret None
                   end)
               [except is_Exception (fun e =>
                  log ERROR (Py.lit "Fehler beim Lesen der Hash-Datei: "
                               ++ exn_str e);;
                  ret None)];;
    match early with
    | Some hashes => ret hashes
    | None => ret (None, None)
    end.

(** ** save_hashes (lines 142-147) *)
Definition save_hashes (full_hash section_hash : Py.str) : M unit :=
  file_op;;
  open_w;;
  write (full_hash ++ NL);;
  write (section_hash ++ NL);;
  log DEBUG (Py.lit "Hashes gespeichert").

(** ** main (lines 150-208) *)

(** Lines 151-167: the start-up messages and the load of the prior state. *)
Definition main_start : M Memory :=
  log INFO (Py.lit "🚀 OLG Hamm Watcher gestartet");;
  log INFO (Py.lit "URL: " ++ URL);;
  log INFO (Py.lit "Check-Intervall: " ++ Py.of_int (CHECK_INTERVAL cfg)
              ++ Py.lit " Sekunden");;
  log INFO (Py.lit "Hash-Datei: " ++ HASH_FILE cfg);;
  let channels :=
    (if Py.truthy (TELEGRAM_BOT_TOKEN cfg) && Py.truthy (TELEGRAM_CHAT_ID cfg)
     then [Py.lit "Telegram"] else [])
    ++ (if Py.truthy (BREVO_API_KEY cfg) && Py.truthy (FROM_EMAIL cfg)
           && Py.truthy (MAIL_TO cfg)
        then [Py.lit "E-Mail"] else []) in
  match channels with
  | _ :: _ =>
    log INFO (Py.lit "Benachrichtigungskanäle: "
                ++ Py.join (Py.lit ", ") channels)
  | [] => log WARNING (Py.lit "⚠️ Keine Benachrichtigungskanäle konfiguriert!")
  end;;
  hashes <- load_hashes;;
  ret (mkMemory (fst hashes) (snd hashes)).

(** Lines 177-197: the comparison with the prior pair. *)
Definition compare_and_notify (mem : Memory) (full_hash section_hash : Py.str)
    (section : option Py.str) : M unit :=
  match last_full_hash mem with
  | None =>
    log INFO (Py.lit "Erster Durchlauf - Baseline gesetzt, keine Benachrichtigung versendet")
  | Some _ =>
    (if differs full_hash (last_full_hash mem) then
       log WARNING (Py.lit "⚠️ Strukturänderung auf der Seite erkannt!");;
       notify SUBJECT_STRUCTURE BODY_STRUCTURE
     else ret tt);;
    if differs section_hash (last_section_hash mem) then
      log INFO (Py.lit "✅ Änderung im Ausbildungsabschnitt erkannt!");;
      let msg :=
        Py.lit "Der Inhalt im Ausbildungsabschnitt hat sich geändert."
          ++ NL ++ NL ++ Py.lit "Aktueller Inhalt:" ++ NL ++ NL
          ++ Py.or_else section PLACEHOLDER in
      notify SUBJECT_UPDATE msg
    else log INFO (Py.lit "Keine Änderungen festgestellt")
  end.

(** Lines 171-200: the body of the [try].  It returns the new in-memory
    pair; when it raises, the assignment of line 200 has not happened. *)
Definition try_body (mem : Memory) : M Memory :=
  log INFO (Py.lit "Prüfe Webseite...");;
  html <- fetch_page;;
  full_hash <- lift (get_hash (Some html));;
  section <- extract_training_section html;;
  section_hash <- lift (get_hash section);;
  compare_and_notify mem full_hash section_hash section;;
  save_hashes full_hash section_hash;;
  ret (mkMemory (Some full_hash) (Some section_hash)).

(** Lines 170-205: the [try] with its two [except] clauses. *)
Definition guarded_body (mem : Memory) : M Memory :=
  try_ (try_body mem)
    [except is_RequestException (fun e =>
       log ERROR (Py.lit "Fehler beim Abrufen der Webseite: " ++ exn_str e);;
       ret mem);
     except is_Exception (fun e =>
       emit (EvLog ERROR (Py.lit "Unerwarteter Fehler: " ++ exn_str e) true);;
       ret mem)].

(** Lines 170-208: one iteration of [while True]. *)
Definition cycle (mem : Memory) : M Memory :=
  mem' <- guarded_body mem;;
  log INFO (Py.lit "Warte " ++ Py.of_int (CHECK_INTERVAL cfg)
              ++ Py.lit " Sekunden bis zum nächsten Check...");;
  time_sleep (CHECK_INTERVAL cfg);;
  ret mem'.

(** The first [n] iterations of [while True]. *)
Fixpoint loop (n : nat) (mem : Memory) : M Memory :=
  match n with
  | O => ret mem
  | S k => mem' <- cycle mem;; loop k mem'
  end.

(** [main()], cut after [n] iterations of its loop. *)
Definition main (n : nat) : M Memory :=
  mem <- main_start;;
  loop n mem.

End Listener.

(* ================================================================== *)
(** * Properties *)
(* ================================================================== *)

(** ** Strings *)

Lemma eqb_eq (a b : Py.str) : Py.eqb a b = true <-> a = b.
Proof.
  revert b; induction a as [|x a IH]; intros [|y b]; simpl;
    try (split; [discriminate | congruence]); try tauto.
  rewrite andb_true_iff, Z.eqb_eq, IH. split.
  - intros [-> ->]; reflexivity.
  - intros E; injection E; auto.
Qed.

Lemma eqb_refl (a : Py.str) : Py.eqb a a = true.
Proof. apply eqb_eq; reflexivity. Qed.

(** A text without line boundary, as every digest is. *)
Definition one_line (s : Py.str) : Prop :=
  Forall (fun c => Py.is_linebreak c = false) s.

Lemma splitlines_from_one_line (a : Py.str) :
  one_line a ->
  forall cur rest,
    Py.splitlines_from cur (a ++ rest) = Py.splitlines_from (rev a ++ cur) rest.
Proof.
  induction 1 as [|c a Hc _ IH]; intros cur rest; simpl.
  - reflexivity.
  - rewrite Hc, IH, <- app_assoc. reflexivity.
Qed.

Lemma splitlines_from_newline (cur rest : Py.str) :
  Py.splitlines_from cur (NL ++ rest)
  = rev cur :: Py.splitlines_from [] rest.
Proof. simpl. destruct rest; reflexivity. Qed.

Lemma splitlines_from_end (a : Py.str) :
  one_line a ->
  Py.splitlines_from [] a = match a with [] => [] | _ => [a] end.
Proof.
  intros H. rewrite <- (app_nil_r a) at 1.
  rewrite splitlines_from_one_line by assumption. simpl.
  rewrite app_nil_r. destruct a as [|c a]; [reflexivity|].
  destruct (rev (c :: a)) eqn:E.
  - apply (f_equal (@List.length Z)) in E. rewrite length_rev in E. discriminate.
  - rewrite <- E, rev_involutive. reflexivity.
Qed.

Lemma splitlines_two_lines (a b : Py.str) :
  one_line a -> one_line b ->
  Py.splitlines (a ++ NL ++ b ++ NL) = [a; b].
Proof.
  intros Ha Hb. unfold Py.splitlines.
  rewrite splitlines_from_one_line, splitlines_from_newline by assumption.
  rewrite splitlines_from_one_line, <- (app_nil_r NL), splitlines_from_newline
    by assumption.
  simpl. rewrite !app_nil_r, !rev_involutive. reflexivity.
Qed.

(** ** The digest is sixty-four hex digits on one line *)

Definition is_hex_digit (c : Z) : bool :=
  ((48 <=? c) && (c <=? 57)) || ((97 <=? c) && (c <=? 102)).

Lemma hex_digit_is_hex (d : Z) :
  0 <= d < 16 -> is_hex_digit (Sha256.hex_digit d) = true.
Proof.
  intros H. unfold Sha256.hex_digit, is_hex_digit.
  destruct (d <? 10) eqn:E; [apply Z.ltb_lt in E | apply Z.ltb_ge in E];
    apply orb_true_iff; [left | right]; apply andb_true_iff;
    split; apply Z.leb_le; lia.
Qed.

Lemma hex_of_word_hex (n : nat) (x : Z) :
  Forall (fun c => is_hex_digit c = true) (Sha256.hex_of_word n x).
Proof.
  induction n as [|n IH]; simpl; constructor; [|exact IH].
  apply hex_digit_is_hex. apply Z.mod_pos_bound. lia.
Qed.

Lemma hexdigest_hex (msg : Py.bytes) :
  Forall (fun c => is_hex_digit c = true) (Sha256.hexdigest msg).
Proof.
  unfold Sha256.hexdigest.
  induction (Sha256.digest_words msg) as [|x ws IH]; cbn [flat_map].
  - constructor.
  - apply Forall_app; split; [apply hex_of_word_hex | exact IH].
Qed.

Lemma hex_digit_no_linebreak (c : Z) :
  is_hex_digit c = true -> Py.is_linebreak c = false.
Proof.
  unfold is_hex_digit, Py.is_linebreak. intros H.
  apply orb_true_iff in H.
  repeat rewrite orb_false_iff. repeat rewrite andb_false_iff.
  repeat rewrite Z.leb_gt. repeat rewrite Z.eqb_neq.
  destruct H as [H|H]; apply andb_true_iff in H; destruct H as [A B];
    apply Z.leb_le in A; apply Z.leb_le in B; repeat split; lia.
Qed.

Lemma hexdigest_one_line (msg : Py.bytes) : one_line (Sha256.hexdigest msg).
Proof.
  eapply Forall_impl; [|apply hexdigest_hex].
  intros c; apply hex_digit_no_linebreak.
Qed.

Lemma get_hash_one_line (content : option Py.str) (d : Py.str) :
  get_hash content = Returns d -> one_line d.
Proof.
  unfold get_hash. destruct (Py.encode_utf8 _); intros E; inversion E.
  apply hexdigest_one_line.
Qed.

(** ** Reasoning about effects *)

(** The notifications of a trace, oldest first: subject and body of each
    call of [notify]. *)
Fixpoint notifications (t : list event) : list (Py.str * Py.str) :=
  match t with
  | [] => []
  | EvNotify s b :: t' => notifications t' ++ [(s, b)]
  | _ :: t' => notifications t'
  end.

(** The POST requests of a trace, oldest first: address and payload. *)
Fixpoint posts (t : list event) : list (Py.str * json) :=
  match t with
  | [] => []
  | EvPost url payload _ _ :: t' => posts t' ++ [(url, payload)]
  | _ :: t' => posts t'
  end.

(** The number of sleeps of a trace. *)
Fixpoint sleeps (t : list event) : nat :=
  match t with
  | [] => O
  | EvSleep _ :: t' => S (sleeps t')
  | _ :: t' => sleeps t'
  end.

(** [m] leaves the observation [f] of the world as it was. *)
Definition keeps {A X} (f : World -> X) (m : M A) : Prop :=
  forall w, f (snd (m w)) = f w.

(** [m] raises only exceptions in [P]. *)
Definition throws {A} (P : exn -> Prop) (m : M A) : Prop :=
  forall w e, fst (m w) = Raises e -> P e.

(** [m] never raises. *)
Definition safe {A} (m : M A) : Prop := throws (fun _ => False) m.

Definition ignores_clock {X} (f : World -> X) : Prop :=
  forall c c' h t, f (mkWorld c h t) = f (mkWorld c' h t).
Definition ignores_file {X} (f : World -> X) : Prop :=
  forall c h h' t, f (mkWorld c h t) = f (mkWorld c h' t).
Definition ignores_event {X} (f : World -> X) (e : event) : Prop :=
  forall c h t, f (mkWorld c h (e :: t)) = f (mkWorld c h t).

Section Rules.
Context {A B X : Type}.
Variable f : World -> X.

Lemma keeps_ret (a : A) : keeps f (ret a).
Proof. intros w; reflexivity. Qed.

Lemma keeps_raise (e : exn) : keeps f (@raise A e).
Proof. intros w; reflexivity. Qed.

Lemma keeps_lift (o : outcome A) : keeps f (lift o).
Proof. intros w; reflexivity. Qed.

Lemma keeps_bind (m : M A) (k : A -> M B) :
  keeps f m -> (forall a, keeps f (k a)) -> keeps f (bind m k).
Proof.
  intros Hm Hk w. unfold bind. specialize (Hm w).
  destruct (m w) as [[a|e] w1]; simpl in *; [|exact Hm].
  rewrite Hk. exact Hm.
Qed.

Lemma keeps_dispatch (cs : list ((exn -> bool) * (exn -> M A))) (e : exn) :
  Forall (fun c => forall e', keeps f (snd c e')) cs ->
  keeps f (dispatch cs e).
Proof.
  induction 1 as [|[cls h] cs Hh _ IH]; simpl.
  - apply keeps_raise.
  - destruct (cls e); [apply Hh | exact IH].
Qed.

Lemma keeps_try (body : M A) (cs : list ((exn -> bool) * (exn -> M A))) :
  keeps f body ->
  Forall (fun c => forall e, keeps f (snd c e)) cs ->
  keeps f (try_ body cs).
Proof.
  intros Hb Hc w. unfold try_. specialize (Hb w).
  destruct (body w) as [[a|e] w1]; simpl in *; [exact Hb|].
  rewrite (keeps_dispatch cs e Hc). exact Hb.
Qed.

Lemma keeps_emit (e : event) : ignores_event f e -> keeps f (emit e).
Proof. intros H [c h t]; apply H. Qed.

Lemma keeps_tick : ignores_clock f -> keeps f tick.
Proof. intros H [c h t]; apply H. Qed.

Lemma keeps_get_file : keeps f get_file.
Proof. intros w; reflexivity. Qed.

Lemma keeps_set_file (s : file_state) : ignores_file f -> keeps f (set_file s).
Proof. intros H [c h t]; apply H. Qed.

End Rules.

Section ThrowRules.
Context {A B : Type}.
Variable P : exn -> Prop.

Lemma throws_ret (a : A) : throws P (ret a).
Proof. intros w e; discriminate. Qed.

Lemma throws_raise (e : exn) : P e -> throws P (@raise A e).
Proof. intros H w e' E; inversion E; subst; exact H. Qed.

Lemma throws_bind (m : M A) (k : A -> M B) :
  throws P m -> (forall a, throws P (k a)) -> throws P (bind m k).
Proof.
  intros Hm Hk w e. unfold bind. specialize (Hm w).
  destruct (m w) as [[a|e1] w1]; simpl in *.
  - apply Hk.
  - intros E; inversion E; subst. apply Hm; reflexivity.
Qed.

Lemma throws_try (Q : exn -> Prop) (body : M A)
    (cs : list ((exn -> bool) * (exn -> M A))) :
  throws Q body ->
  (forall e, Q e -> throws P (dispatch cs e)) ->
  throws P (try_ body cs).
Proof.
  intros Hb Hc w e. unfold try_. specialize (Hb w).
  destruct (body w) as [[a|e1] w1]; simpl in *; [discriminate|].
  apply Hc. apply Hb; reflexivity.
Qed.

Lemma throws_emit (e : event) : throws P (emit e).
Proof. intros w e'; discriminate. Qed.

Lemma throws_get_file : throws P get_file.
Proof. intros w e'; discriminate. Qed.

Lemma throws_set_file (s : file_state) : throws P (set_file s).
Proof. intros w e'; discriminate. Qed.

Lemma throws_tick : throws P tick.
Proof. intros w e'; discriminate. Qed.

End ThrowRules.

Lemma safe_returns {A} (m : M A) (w : World) :
  safe m -> exists a, m w = (Returns a, snd (m w)).
Proof.
  intros H. specialize (H w). destruct (m w) as [[a|e] w1]; simpl in *.
  - exists a; reflexivity.
  - destruct (H e eq_refl).
Qed.

(** The observations the theorems use: the state file, and the events of
    one kind. *)
Inductive kind := KLog | KGet | KPost | KNotify | KSleep.

Definition kind_of (e : event) : kind :=
  match e with
  | EvLog _ _ _ => KLog
  | EvGet _ _ _ => KGet
  | EvPost _ _ _ _ => KPost
  | EvNotify _ _ => KNotify
  | EvSleep _ => KSleep
  end.

Definition kind_eqb (a b : kind) : bool :=
  match a, b with
  | KLog, KLog | KGet, KGet | KPost, KPost
  | KNotify, KNotify | KSleep, KSleep => true
  | _, _ => false
  end.

Definition obs_file (w : World) : file_state := hash_file w.

Definition obs_kind (k : kind) (w : World) : list event :=
  filter (fun e => kind_eqb (kind_of e) k) (trace w).

(** [k] is none of the kinds [ks]. *)
Definition apart (k : kind) (ks : list kind) : bool :=
  negb (existsb (kind_eqb k) ks).

Lemma notifications_filter (t : list event) :
  notifications t = notifications (filter (fun e => kind_eqb (kind_of e) KNotify) t).
Proof.
  induction t as [|e t IH]; [reflexivity|].
  destruct e; simpl; try exact IH. rewrite IH; reflexivity.
Qed.

Lemma posts_filter (t : list event) :
  posts t = posts (filter (fun e => kind_eqb (kind_of e) KPost) t).
Proof.
  induction t as [|e t IH]; [reflexivity|].
  destruct e; simpl; try exact IH. rewrite IH; reflexivity.
Qed.

Lemma sleeps_filter (t : list event) :
  sleeps t = sleeps (filter (fun e => kind_eqb (kind_of e) KSleep) t).
Proof.
  induction t as [|e t IH]; [reflexivity|].
  destruct e; simpl; try exact IH. rewrite IH; reflexivity.
Qed.

Lemma keeps_notifications {A} (m : M A) (w : World) :
  keeps (obs_kind KNotify) m ->
  notifications (trace (snd (m w))) = notifications (trace w).
Proof.
  intros H. rewrite notifications_filter, (notifications_filter (trace w)).
  f_equal. apply H.
Qed.

Lemma keeps_posts {A} (m : M A) (w : World) :
  keeps (obs_kind KPost) m -> posts (trace (snd (m w))) = posts (trace w).
Proof.
  intros H. rewrite posts_filter, (posts_filter (trace w)).
  f_equal. apply H.
Qed.

Lemma keeps_sleeps {A} (m : M A) (w : World) :
  keeps (obs_kind KSleep) m -> sleeps (trace (snd (m w))) = sleeps (trace w).
Proof.
  intros H. rewrite sleeps_filter, (sleeps_filter (trace w)).
  f_equal. apply H.
Qed.

Create HintDb frame.

Ltac frame :=
  repeat first
    [ apply keeps_ret | apply keeps_raise | apply keeps_lift
    | apply keeps_get_file
    | apply keeps_emit; intros ? ? ?; reflexivity
    | apply keeps_tick; intros ? ? ? ?; reflexivity
    | apply keeps_set_file; intros ? ? ? ?; reflexivity
    | solve [auto with frame]
    | apply keeps_bind; [|intros]
    | apply keeps_try; [|repeat constructor; intros; cbn [snd except]]
    | progress cbn beta iota
    | match goal with
      | |- keeps _ (if ?c then _ else _) => destruct c
      | |- keeps _ (match ?x with _ => _ end) => destruct x
      end ].

Ltac escape :=
  repeat first
    [ apply throws_ret | apply throws_emit | apply throws_tick
    | apply throws_get_file | apply throws_set_file
    | apply throws_raise; solve [reflexivity | exact I | assumption]
    | solve [auto with frame]
    | match goal with
      | |- throws (fun _ => False) ?m => change (safe m); solve [auto with frame]
      end
    | apply throws_bind; [|intros]
    | progress cbn beta iota
    | match goal with
      | |- throws _ (if ?c then _ else _) => destruct c
      | |- throws _ (match ?x with _ => _ end) => destruct x
      end ].

(** Case analysis on the kind observed, keeping the kinds that the side
    condition allows. *)
Ltac by_kind k H := destruct k; try discriminate H; clear H.

Definition request_error (e : exn) : Prop := is_RequestException e = true.

Definition telegram_configured (cfg : Config) : bool :=
  Py.truthy (TELEGRAM_BOT_TOKEN cfg) && Py.truthy (TELEGRAM_CHAT_ID cfg).

Definition mail_configured (cfg : Config) : bool :=
  Py.truthy (BREVO_API_KEY cfg) && Py.truthy (FROM_EMAIL cfg)
  && Py.truthy (MAIL_TO cfg).

(** The headers of the e-mail request (lines 68-72). *)
Definition brevo_headers (cfg : Config) : list (Py.str * Py.str) :=
  [(Py.lit "accept", Py.lit "application/json");
   (Py.lit "content-type", Py.lit "application/json");
   (Py.lit "api-key", opt_get (BREVO_API_KEY cfg))].

(** The library sends the headers of the e-mail request: [http.client]
    raises on none of them.  Only a configured e-mail channel sends them. *)
Definition headers_accepted (env : Env) (cfg : Config) : Prop :=
  mail_configured cfg = true -> put_headers env (brevo_headers cfg) = None.

(** [time.sleep(CHECK_INTERVAL)] returns. *)
Definition can_sleep (env : Env) (cfg : Config) : Prop :=
  0 <= CHECK_INTERVAL cfg /\ sleep_fault env (CHECK_INTERVAL cfg) = None.

Section Frames.
Variable env : Env.
Variable cfg : Config.

Lemma raise_for_status_keeps {X} (f : World -> X) (r : Response) :
  keeps f (raise_for_status r).
Proof. unfold raise_for_status. frame. Qed.

Lemma raise_for_status_throws (r : Response) :
  throws request_error (raise_for_status r).
Proof. unfold raise_for_status. escape. Qed.

(** What [requests.post] raises is a RequestException or the exception of
    [http.client] on the headers. *)
Lemma requests_post_raises url payload headers timeout :
  throws (fun e => request_error e \/ put_headers env headers = Some e)
         (requests_post env url payload headers timeout).
Proof.
  unfold requests_post.
  apply throws_bind; [apply throws_emit|intros _].
  apply throws_bind; [apply throws_tick|intros t].
  destruct (http_post env t url payload) as [r|msg].
  - destruct (put_headers env headers) as [e'|].
    + apply throws_raise. right. reflexivity.
    + apply throws_ret.
  - apply throws_raise. left. reflexivity.
Qed.

Lemma requests_post_throws url payload headers timeout :
  put_headers env headers = None ->
  throws request_error (requests_post env url payload headers timeout).
Proof.
  intros Hh w e H.
  destruct (requests_post_raises url payload headers timeout w e H) as [R|F].
  - exact R.
  - rewrite Hh in F. discriminate F.
Qed.

Lemma requests_get_throws url headers timeout :
  throws request_error (requests_get env url headers timeout).
Proof. unfold requests_get. escape. Qed.

Lemma requests_post_keeps_file url payload headers timeout :
  keeps obs_file (requests_post env url payload headers timeout).
Proof. unfold requests_post. frame. Qed.

Lemma requests_post_kinds k url payload headers timeout :
  apart k [KPost] = true ->
  keeps (obs_kind k) (requests_post env url payload headers timeout).
Proof. intros H. by_kind k H; unfold requests_post; frame. Qed.

#[local] Hint Resolve raise_for_status_keeps raise_for_status_throws
  requests_get_throws requests_post_keeps_file
  requests_post_kinds : frame.

(** A handler of RequestException makes the sender safe. *)
Lemma sender_safe (body : M bool) (h : exn -> M bool) :
  throws request_error body ->
  (forall e, safe (h e)) ->
  safe (try_ body [except is_RequestException h]).
Proof.
  intros Hb Hh. apply throws_try with (Q := request_error); [exact Hb|].
  intros e He. unfold request_error in He. simpl. rewrite He. apply Hh.
Qed.

Lemma send_telegram_safe (message : Py.str) :
  safe (send_telegram env cfg message).
Proof.
  unfold send_telegram.
  destruct (negb _); [unfold safe; escape|].
  apply sender_safe; [|intros e; unfold safe; escape].
  apply throws_bind; [apply requests_post_throws; reflexivity|intros r].
  escape.
Qed.

Lemma send_mail_safe (subject body : Py.str) :
  headers_accepted env cfg ->
  safe (send_mail env cfg subject body).
Proof.
  intros Ha. unfold send_mail. unfold headers_accepted, mail_configured in Ha.
  destruct (Py.truthy (BREVO_API_KEY cfg) && Py.truthy (FROM_EMAIL cfg)
            && Py.truthy (MAIL_TO cfg)); cbn [negb];
    [|unfold safe; escape].
  apply sender_safe; [|intros e; unfold safe; escape].
  apply throws_bind; [apply requests_post_throws; apply Ha; reflexivity|intros r].
  escape.
Qed.

Lemma send_telegram_keeps_file m : keeps obs_file (send_telegram env cfg m).
Proof. unfold send_telegram. frame. Qed.

Lemma send_mail_keeps_file s b : keeps obs_file (send_mail env cfg s b).
Proof. unfold send_mail. frame. Qed.

Lemma send_telegram_kinds k m :
  apart k [KLog; KPost] = true -> keeps (obs_kind k) (send_telegram env cfg m).
Proof. intros H. by_kind k H; unfold send_telegram; frame. Qed.

Lemma send_mail_kinds k s b :
  apart k [KLog; KPost] = true -> keeps (obs_kind k) (send_mail env cfg s b).
Proof. intros H. by_kind k H; unfold send_mail; frame. Qed.

#[local] Hint Resolve send_telegram_safe send_mail_safe
  send_telegram_keeps_file send_mail_keeps_file
  send_telegram_kinds send_mail_kinds : frame.

Lemma notify_safe (subject body : Py.str) :
  headers_accepted env cfg -> safe (notify env cfg subject body).
Proof.
  intros Ha. unfold notify, safe.
  apply throws_bind; [apply throws_emit|intros _].
  apply throws_bind; [apply send_telegram_safe|intros t].
  apply throws_bind; [apply send_mail_safe; exact Ha|intros m].
  destruct (negb t && negb m); escape.
Qed.

Lemma notify_keeps_file s b : keeps obs_file (notify env cfg s b).
Proof. unfold notify. frame. Qed.

Lemma notify_kinds k s b :
  apart k [KLog; KPost; KNotify] = true ->
  keeps (obs_kind k) (notify env cfg s b).
Proof. intros H. by_kind k H; unfold notify; frame. Qed.

#[local] Hint Resolve notify_safe notify_keeps_file notify_kinds : frame.

Lemma fetch_page_throws : throws request_error (fetch_page env).
Proof. unfold fetch_page. escape. Qed.

Lemma fetch_page_keeps_file : keeps obs_file (fetch_page env).
Proof. unfold fetch_page, requests_get. frame. Qed.

Lemma fetch_page_kinds k :
  apart k [KGet] = true -> keeps (obs_kind k) (fetch_page env).
Proof. intros H. by_kind k H; unfold fetch_page, requests_get; frame. Qed.

Lemma extract_keeps_file html :
  keeps obs_file (extract_training_section env html).
Proof. unfold extract_training_section, extract_from_soup. frame. Qed.

Lemma extract_kinds k html :
  apart k [KLog] = true ->
  keeps (obs_kind k) (extract_training_section env html).
Proof.
  intros H. by_kind k H; unfold extract_training_section, extract_from_soup;
    frame.
Qed.

Lemma save_hashes_kinds k full section :
  apart k [KLog] = true -> keeps (obs_kind k) (save_hashes env full section).
Proof.
  intros H.
  by_kind k H; unfold save_hashes, open_w, write, file_op; frame.
Qed.

#[local] Hint Resolve fetch_page_throws fetch_page_keeps_file fetch_page_kinds
  extract_keeps_file extract_kinds save_hashes_kinds : frame.

Lemma compare_and_notify_safe mem fh sh section :
  headers_accepted env cfg ->
  safe (compare_and_notify env cfg mem fh sh section).
Proof. intros Ha. unfold compare_and_notify, safe. escape. Qed.

Lemma compare_and_notify_keeps_file mem fh sh section :
  keeps obs_file (compare_and_notify env cfg mem fh sh section).
Proof. unfold compare_and_notify. frame. Qed.

Lemma compare_and_notify_kinds k mem fh sh section :
  apart k [KLog; KPost; KNotify] = true ->
  keeps (obs_kind k) (compare_and_notify env cfg mem fh sh section).
Proof. intros H. by_kind k H; unfold compare_and_notify; frame. Qed.

(** Without a prior full-page digest nothing but a log line happens. *)
Lemma compare_baseline_kinds k mem fh sh section :
  last_full_hash mem = None ->
  apart k [KLog] = true ->
  keeps (obs_kind k) (compare_and_notify env cfg mem fh sh section).
Proof.
  intros E H. unfold compare_and_notify. rewrite E. by_kind k H; frame.
Qed.

#[local] Hint Resolve compare_and_notify_safe compare_and_notify_keeps_file
  compare_and_notify_kinds : frame.

Lemma try_body_kinds k mem :
  apart k [KLog; KGet; KPost; KNotify] = true ->
  keeps (obs_kind k) (try_body env cfg mem).
Proof. intros H. by_kind k H; unfold try_body; frame. Qed.

Lemma try_body_baseline_kinds k mem :
  last_full_hash mem = None ->
  apart k [KLog; KGet] = true ->
  keeps (obs_kind k) (try_body env cfg mem).
Proof.
  intros E H. unfold try_body.
  by_kind k H; frame; apply compare_baseline_kinds; auto.
Qed.

Lemma guarded_body_kinds k mem :
  apart k [KLog; KGet; KPost; KNotify] = true ->
  keeps (obs_kind k) (guarded_body env cfg mem).
Proof.
  intros H. unfold guarded_body. pose proof (try_body_kinds k mem H).
  by_kind k H; frame.
Qed.

Lemma guarded_body_baseline_kinds k mem :
  last_full_hash mem = None ->
  apart k [KLog; KGet] = true ->
  keeps (obs_kind k) (guarded_body env cfg mem).
Proof.
  intros E H. unfold guarded_body.
  pose proof (try_body_baseline_kinds k mem E H).
  by_kind k H; frame.
Qed.

(** Both [except] clauses of the loop return: nothing escapes the [try]. *)
Lemma guarded_body_safe mem : safe (guarded_body env cfg mem).
Proof.
  unfold guarded_body.
  apply throws_try with (Q := fun _ => True).
  - intros w e _. exact I.
  - intros e _. cbn [dispatch except].
    destruct (is_RequestException e); unfold safe; escape.
Qed.

End Frames.

#[local] Hint Resolve raise_for_status_keeps raise_for_status_throws
  requests_get_throws requests_post_keeps_file
  requests_post_kinds send_telegram_safe send_mail_safe
  send_telegram_keeps_file send_mail_keeps_file
  send_telegram_kinds send_mail_kinds
  notify_safe notify_keeps_file notify_kinds
  fetch_page_throws fetch_page_keeps_file fetch_page_kinds
  extract_keeps_file extract_kinds save_hashes_kinds
  compare_and_notify_safe compare_and_notify_keeps_file
  compare_and_notify_kinds guarded_body_safe : frame.

(** ** The hasher *)

(** A text in the sense of Unicode: no lone surrogate among its code
    points. *)
Definition is_text (s : Py.str) : Prop :=
  Forall (fun c => Py.is_surrogate c = false) s.

Lemma encode_utf8_text (s : Py.str) :
  is_text s -> exists octets, Py.encode_utf8 s = Some octets.
Proof.
  induction 1 as [|c s Hc _ [bs IH]]; simpl.
  - eexists; reflexivity.
  - rewrite IH. unfold Py.encode_codepoint. rewrite Hc.
    destruct (c <? 0x80); [eexists; reflexivity|].
    destruct (c <? 0x800); [eexists; reflexivity|].
    destruct (c <? 0x10000); eexists; reflexivity.
Qed.

Lemma encode_utf8_surrogate (s : Py.str) :
  Py.encode_utf8 s = None -> Exists (fun c => Py.is_surrogate c = true) s.
Proof.
  induction s as [|c s IH]; simpl; [discriminate|].
  destruct (Py.encode_codepoint c) eqn:Ec.
  - destruct (Py.encode_utf8 s); [discriminate|].
    intros _. right. apply IH; reflexivity.
  - intros _. left. unfold Py.encode_codepoint in Ec.
    destruct (c <? 0x80); [discriminate|].
    destruct (c <? 0x800); [discriminate|].
    destruct (c <? 0x10000); [|discriminate].
    destruct (Py.is_surrogate c); [reflexivity | discriminate].
Qed.

Lemma compress_length (h block : list Z) :
  List.length h = 8%nat -> List.length (Sha256.compress h block) = 8%nat.
Proof.
  intros H. unfold Sha256.compress.
  rewrite length_map, length_combine, H. reflexivity.
Qed.

Lemma digest_words_length (msg : list Z) :
  List.length (Sha256.digest_words msg) = 8%nat.
Proof.
  unfold Sha256.digest_words.
  generalize (Sha256.blocks_of
                (List.length (Sha256.words_of (List.length (Sha256.pad msg))
                                              (Sha256.pad msg)))
                (Sha256.words_of (List.length (Sha256.pad msg)) (Sha256.pad msg))).
  intros blocks.
  assert (H : List.length Sha256.initial_state = 8%nat) by reflexivity.
  revert H. generalize Sha256.initial_state.
  induction blocks as [|b blocks IH]; intros h H; simpl; [exact H|].
  apply IH. apply compress_length. exact H.
Qed.

Lemma hex_of_word_length (n : nat) (x : Z) :
  List.length (Sha256.hex_of_word n x) = n.
Proof. induction n; simpl; congruence. Qed.

Lemma hexdigest_length (msg : Py.bytes) :
  List.length (Sha256.hexdigest msg) = 64%nat.
Proof.
  unfold Sha256.hexdigest. pose proof (digest_words_length msg) as H.
  destruct (Sha256.digest_words msg) as [|a [|b [|c [|d [|e [|f [|g [|h [|]]]]]]]]];
    try discriminate.
  cbn [flat_map]. rewrite !length_app, !hex_of_word_length. reflexivity.
Qed.

Definition EMPTY_DIGEST : Py.str :=
  Py.lit "e3b0c44298fc1c149afbf4c8996fb92427ae41e4649b934ca495991b7852b855".

(** The test vectors of the standard. *)
Example sha256_empty : Sha256.hexdigest [] = EMPTY_DIGEST.
Proof. vm_compute. reflexivity. Qed.

Example sha256_abc :
  Sha256.hexdigest (Py.octets "abc")
  = Py.lit "ba7816bf8f01cfea414140de5dae2223b00361a396177a9cb410ff61f20015ad".
Proof. vm_compute. reflexivity. Qed.

Example sha256_two_blocks :
  Sha256.hexdigest
    (Py.octets "abcdbcdecdefdefgefghfghighijhijkijkljklmklmnlmnomnopnopq")
  = Py.lit "248d6a61d20638b8e5c026930c3e6039a33ce45964ff2167f6ecedd419db06c1".
Proof. vm_compute. reflexivity. Qed.

Example round_constant_0 : nth 0 Sha256.round_constants 0 = 0x428a2f98.
Proof. reflexivity. Qed.

Example round_constant_63 : nth 63 Sha256.round_constants 0 = 0xc67178f2.
Proof. reflexivity. Qed.

(** What [get_hash] does on a lone surrogate, and on a run of them. *)
Example get_hash_lone_surrogate :
  get_hash (Some [97; 0xD800; 98])
  = Raises (UnicodeEncodeError
      (Py.lit "'utf-8' codec can't encode character '\ud800' in position 1: surrogates not allowed")).
Proof. vm_compute. reflexivity. Qed.

Example get_hash_surrogate_run :
  get_hash (Some [120; 0xDC00; 0xDC01; 0xDC02; 121; 0xD800])
  = Raises (UnicodeEncodeError
      (Py.lit "'utf-8' codec can't encode characters in position 1-3: surrogates not allowed")).
Proof. vm_compute. reflexivity. Qed.

(** C4. The hasher is a pure function of its optional text: the absent
    value and the empty string have the same digest (the digest of the empty
    octet string), equal inputs have equal digests, a call leaves the world
    as it is, and on every text (a string without lone surrogate, the only
    code points that UTF-8 cannot encode) it returns a digest of sixty-four
    hex digits on one line.  It raises on no other input than a string that
    holds a lone surrogate. *)
Theorem get_hash_absent_is_empty :
  get_hash None = get_hash (Some [])
  /\ get_hash None = Returns EMPTY_DIGEST
  /\ (forall a b : option Py.str, a = b -> get_hash a = get_hash b)
  /\ (forall (c : option Py.str) (w : World),
        lift (get_hash c) w = (get_hash c, w))
  /\ (forall c : option Py.str,
        is_text (Py.or_else c []) ->
        exists d, get_hash c = Returns d
                  /\ List.length d = 64%nat
                  /\ Forall (fun x => is_hex_digit x = true) d
                  /\ one_line d)
  /\ (forall (c : option Py.str) (e : exn),
        get_hash c = Raises e ->
        Exists (fun x => Py.is_surrogate x = true) (Py.or_else c [])).
Proof.
  split; [reflexivity|].
  split; [unfold get_hash; simpl; rewrite sha256_empty; reflexivity|].
  split; [intros a b ->; reflexivity|].
  split; [reflexivity|].
  split.
  - intros c Hc. unfold get_hash.
    destruct (encode_utf8_text _ Hc) as [bs ->].
    eexists; split; [reflexivity|].
    split; [apply hexdigest_length|].
    split; [apply hexdigest_hex | apply hexdigest_one_line].
  - intros c e. unfold get_hash.
    destruct (Py.encode_utf8 (Py.or_else c [])) eqn:E; [discriminate|].
    intros _. apply encode_utf8_surrogate. exact E.
Qed.

Lemma get_hash_absent_is_empty_witness :
  get_hash None = get_hash (Some [])
  /\ exists d, get_hash (Some (Py.lit "<p>A</p>")) = Returns d
               /\ List.length d = 64%nat.
Proof.
  split.
  - exact (proj1 get_hash_absent_is_empty).
  - destruct (proj1 (proj2 (proj2 (proj2 (proj2 get_hash_absent_is_empty))))
               (Some (Py.lit "<p>A</p>"))) as [d [H1 [H2 _]]].
    + repeat constructor.
    + exists d. split; assumption.
Defined.

(** ** What a computation can return *)

(** [m] returns only values in [Q]. *)
Definition yields {A} (Q : A -> Prop) (m : M A) : Prop :=
  forall w a, fst (m w) = Returns a -> Q a.

Section YieldRules.
Context {A B : Type}.
Variable Q : B -> Prop.

Lemma yields_ret (b : B) : Q b -> yields Q (ret b).
Proof. intros H w a E; inversion E; subst; exact H. Qed.

Lemma yields_bind (m : M A) (k : A -> M B) :
  (forall a, yields Q (k a)) -> yields Q (bind m k).
Proof.
  intros Hk w b. unfold bind.
  destruct (m w) as [[a|e] w1]; simpl; [apply Hk | discriminate].
Qed.

Lemma yields_try (body : M B) (cs : list ((exn -> bool) * (exn -> M B))) :
  yields Q body -> (forall e, yields Q (dispatch cs e)) ->
  yields Q (try_ body cs).
Proof.
  intros Hb Hc w b. unfold try_. specialize (Hb w).
  destruct (body w) as [[a|e] w1]; simpl in *; [apply Hb | apply Hc].
Qed.

End YieldRules.

(** ** The state store: load_hashes *)

(** The pair that a state file holds: both lines when the text has exactly
    two, nothing otherwise. *)
Definition stored_pair (f : file_state) : option Py.str * option Py.str :=
  match f with
  | Content t =>
    match Py.splitlines t with
    | [line0; line1] => (Some line0, Some line1)
    | _ => (None, None)
    end
  | _ => (None, None)
  end.

(** The three conditions under which there is no prior state. *)
Definition no_state_file (f : file_state) : Prop :=
  match f with
  | Absent => True
  | Unreadable _ => True
  | Content t => List.length (Py.splitlines t) <> 2%nat
  end.

Definition is_log (e : event) : bool :=
  match e with EvLog _ _ _ => true | _ => false end.

(** Unfolding of the monad and of the primitive effects. *)
Ltac run :=
  cbv beta iota zeta delta
    [bind ret raise try_ dispatch except lift emit tick get_file set_file log
     os_path_exists read_text file_op open_w write time_sleep
     clock hash_file trace fst snd negb is_Exception].

(** Evaluation of the observations on an explicit trace. *)
Ltac observe :=
  cbn [posts notifications sleeps trace clock hash_file fst snd
       is_RequestException is_Exception].

Lemma load_hashes_run (w : World) :
  exists logs,
    load_hashes w
    = (Returns (stored_pair (hash_file w)),
       mkWorld (clock w) (hash_file w) (logs ++ trace w))
    /\ forallb is_log logs = true.
Proof.
  destruct w as [c h t]. unfold load_hashes, stored_pair.
  destruct h as [|e|s]; run.
  - eexists [_]; split; reflexivity.
  - eexists [_]; split; reflexivity.
  - destruct (Py.splitlines s) as [|a [|b [|x r]]]; run.
    + exists []; split; reflexivity.
    + exists []; split; reflexivity.
    + eexists [_]; split; reflexivity.
    + exists []; split; reflexivity.
Qed.

Lemma stored_pair_none (f : file_state) :
  stored_pair f = (None, None) <-> no_state_file f.
Proof.
  destruct f as [|e|s]; simpl; try tauto.
  destruct (Py.splitlines s) as [|a [|b [|x r]]]; simpl;
    split; try discriminate; try reflexivity; try congruence.
Qed.

Lemma stored_pair_both (f : file_state) :
  fst (stored_pair f) = None <-> snd (stored_pair f) = None.
Proof.
  destruct f as [|e|s]; simpl; try tauto.
  destruct (Py.splitlines s) as [|a [|b [|x r]]]; simpl;
    split; try discriminate; try reflexivity.
Qed.

(** ** The loop: what the in-memory pair can be *)

Lemma yields_weaken {A} (P Q : A -> Prop) (m : M A) :
  (forall a, P a -> Q a) -> yields P m -> yields Q m.
Proof. intros H Hm w a E; apply H; eapply Hm; exact E. Qed.

Lemma yields_bind_from {A B} (P : A -> Prop) (Q : B -> Prop)
    (m : M A) (k : A -> M B) :
  yields P m -> (forall a, P a -> yields Q (k a)) -> yields Q (bind m k).
Proof.
  intros Hm Hk w b. unfold bind. specialize (Hm w).
  destruct (m w) as [[a|e] w1]; simpl in *; [|discriminate].
  apply Hk. apply Hm; reflexivity.
Qed.

(** Both digests are present. *)
Definition fresh_pair (m : Memory) : Prop :=
  exists fh sh, m = mkMemory (Some fh) (Some sh).

Section LoopInvariants.
Variable env : Env.
Variable cfg : Config.

Lemma try_body_yields (mem : Memory) :
  yields fresh_pair (try_body env cfg mem).
Proof.
  unfold try_body.
  repeat (apply yields_bind; intros).
  apply yields_ret. eexists; eexists; reflexivity.
Qed.

Lemma guarded_body_yields (mem : Memory) :
  yields (fun m => m = mem \/ fresh_pair m) (guarded_body env cfg mem).
Proof.
  unfold guarded_body. apply yields_try.
  - eapply yields_weaken; [|apply try_body_yields]. intros a H; right; exact H.
  - intros e. cbn [dispatch except].
    destruct (is_RequestException e); cbn beta iota;
      apply yields_bind; intros; apply yields_ret; left; reflexivity.
Qed.

Lemma cycle_yields (mem : Memory) :
  yields (fun m => m = mem \/ fresh_pair m) (cycle env cfg mem).
Proof.
  unfold cycle.
  eapply yields_bind_from; [apply guarded_body_yields|].
  intros m1 H. repeat (apply yields_bind; intros). apply yields_ret. exact H.
Qed.

Lemma loop_yields (I : Memory -> Prop) :
  (forall mem, I mem -> yields I (cycle env cfg mem)) ->
  forall n mem, I mem -> yields I (loop env cfg n mem).
Proof.
  intros Hc. induction n as [|n IH]; intros mem Hm; simpl.
  - apply yields_ret; exact Hm.
  - eapply yields_bind_from; [apply Hc; exact Hm|]. intros m1 H. apply IH, H.
Qed.

(** Steady state is never left. *)
Lemma loop_stays_steady (n : nat) (mem : Memory) :
  last_full_hash mem <> None ->
  yields (fun m => last_full_hash m <> None) (loop env cfg n mem).
Proof.
  intros H0.
  apply (loop_yields (fun m => last_full_hash m <> None)); [|exact H0].
  clear mem H0. intros mem Hm.
  eapply yields_weaken; [|apply cycle_yields].
  intros a [->|[fh [sh ->]]]; [exact Hm | discriminate].
Qed.

(** The two digests are present together or absent together. *)
Definition paired (m : Memory) : Prop :=
  last_full_hash m = None <-> last_section_hash m = None.

Lemma loop_stays_paired (n : nat) (mem : Memory) :
  paired mem -> yields paired (loop env cfg n mem).
Proof.
  intros H0. apply (loop_yields paired); [|exact H0].
  clear mem H0. intros mem Hm.
  eapply yields_weaken; [|apply cycle_yields].
  intros a [->|[fh [sh ->]]]; [exact Hm|].
  unfold paired; simpl; split; discriminate.
Qed.

Lemma main_start_run (w : World) :
  exists logs,
    main_start cfg w
    = (Returns (mkMemory (fst (stored_pair (hash_file w)))
                         (snd (stored_pair (hash_file w)))),
       mkWorld (clock w) (hash_file w) (logs ++ trace w))
    /\ forallb is_log logs = true.
Proof.
  destruct w as [c h t]. unfold main_start.
  destruct (Py.truthy (TELEGRAM_BOT_TOKEN cfg) && Py.truthy (TELEGRAM_CHAT_ID cfg));
    destruct (Py.truthy (BREVO_API_KEY cfg) && Py.truthy (FROM_EMAIL cfg)
              && Py.truthy (MAIL_TO cfg));
    cbn [app]; run;
    match goal with
    | |- context [load_hashes ?w0] =>
      destruct (load_hashes_run w0) as [logs [-> Hl]]
    end;
    cbn [clock hash_file trace];
    eexists (logs ++ [_; _; _; _; _]); rewrite <- app_assoc;
    (split; [reflexivity|]);
    rewrite forallb_app, Hl; reflexivity.
Qed.

End LoopInvariants.

(** ** Worlds for the examples *)

(** A configuration without any notification channel. *)
Definition cfg_no_channel : Config :=
  mkConfig 900 (Py.lit "./hashes.txt") None None (Py.lit "OLG Watcher")
           None None None.

(** A configuration with both channels. *)
Definition cfg_both : Config :=
  mkConfig 900 (Py.lit "./hashes.txt")
           (Some (Py.lit "key")) (Some (Py.lit "watcher@example.org"))
           (Py.lit "OLG Watcher") (Some (Py.lit "a@example.org, b@example.org"))
           (Some (Py.lit "123:abc")) (Some (Py.lit "42")).

(** The markup of an element without attributes whose texts need no
    escaping, as bs4 writes it. *)
Fixpoint simple_markup (e : PageElement) : Py.str :=
  match e with
  | NavigableString s => s
  | Tag name _ [] =>
    if Py.eqb name (Py.lit "hr") || Py.eqb name (Py.lit "br")
    then Py.lit "<" ++ name ++ Py.lit "/>"
    else Py.lit "<" ++ name ++ Py.lit "></" ++ name ++ Py.lit ">"
  | Tag name _ cs =>
    Py.lit "<" ++ name ++ Py.lit ">" ++ flat_map simple_markup cs
      ++ Py.lit "</" ++ name ++ Py.lit ">"
  end.

Definition elem (name : string) (cs : list PageElement) : PageElement :=
  Tag (Py.lit name) [] cs.

Definition txt (s : string) : PageElement := NavigableString (Py.lit s).

Definition document (cs : list PageElement) : PageElement :=
  Tag (Py.lit "[document]") [] cs.

(** [http.client] encodes the value of a header as Latin-1. *)
Definition outside_latin1 (c : Z) : bool := 255 <? c.

Definition latin1_fault (name value : Py.str) : option exn :=
  match bad_run outside_latin1 0 value with
  | Some _ =>
    Some (encode_error "latin-1" "ordinal not in range(256)" outside_latin1
            value)
  | None => None
  end.

(** The longest sleep of CPython 3.11: its clock counts nanoseconds in
    sixty-four bits. *)
Definition clock_fault (seconds : Z) : option exn :=
  if 9223372036 <? seconds then
    Some (OverflowError (Py.lit "timestamp too large to convert to C _PyTime_t"))
  else None.

Example latin1_fault_euro :
  latin1_fault (Py.lit "api-key") (Py.lit "key€")
  = Some (UnicodeEncodeError
      (Py.lit "'latin-1' codec can't encode character '\u20ac' in position 3: ordinal not in range(256)")).
Proof. vm_compute. reflexivity. Qed.

(** An environment in which every HTTP call fails. *)
Definition env_offline : Env :=
  mkEnv (fun _ _ => inr (Py.lit "Connection refused"))
        (fun _ _ _ => inr (Py.lit "Connection refused"))
        latin1_fault clock_fault
        (fun _ => None)
        (fun _ => Returns (document []))
        simple_markup.

Definition world0 (f : file_state) : World := mkWorld 0 f [].

(** C6. Whatever the state file is, [load_hashes] returns and leaves the
    file as it is; when the file is absent, unreadable, or its text does not
    have exactly two lines, it returns the pair (None, None), and in no
    other case.  This pair is the only way into baseline mode: when the
    in-memory full-page digest is None after any number of iterations of
    the loop, the file that [main] found at its start loads as
    (None, None); and when it does, [main] enters its loop with the pair
    (None, None). *)
Theorem load_hashes_no_prior_state :
  (forall w, no_state_file (hash_file w) ->
     exists w', load_hashes w = (Returns (None, None), w')
                /\ hash_file w' = hash_file w)
  /\ (forall w, exists p w',
        load_hashes w = (Returns p, w') /\ hash_file w' = hash_file w
        /\ (p = (None, None) -> no_state_file (hash_file w)))
  /\ (forall env cfg n w mem w',
        main env cfg n w = (Returns mem, w') ->
        last_full_hash mem = None ->
        fst (load_hashes w) = Returns (None, None))
  /\ (forall cfg w,
        fst (load_hashes w) = Returns (None, None) ->
        exists w', main_start cfg w = (Returns (mkMemory None None), w')).
Proof.
  split; [|split; [|split]].
  - intros w H. destruct (load_hashes_run w) as [logs [E _]].
    rewrite E. apply stored_pair_none in H. rewrite H.
    eexists; split; reflexivity.
  - intros w. destruct (load_hashes_run w) as [logs [E _]].
    rewrite E. eexists; eexists; split; [reflexivity|].
    split; [reflexivity|]. apply stored_pair_none.
  - intros env cfg n w mem w' Hrun Hnone.
    destruct (load_hashes_run w) as [logs [E _]]. rewrite E. simpl.
    unfold main, bind in Hrun.
    destruct (main_start_run cfg w) as [logs0 [E0 _]]. rewrite E0 in Hrun.
    destruct (fst (stored_pair (hash_file w))) as [lf|] eqn:Ef.
    + exfalso.
      refine (loop_stays_steady env cfg n _ _ _ mem _ Hnone);
        [|rewrite Hrun; reflexivity].
      simpl; discriminate.
    + pose proof (proj1 (stored_pair_both (hash_file w)) Ef) as Es.
      destruct (stored_pair (hash_file w)); simpl in *; subst; reflexivity.
  - intros cfg w H. destruct (load_hashes_run w) as [logs [E _]].
    rewrite E in H. simpl in H. inversion H as [H1].
    destruct (main_start_run cfg w) as [logs0 [E0 _]]. rewrite E0, H1.
    eexists; reflexivity.
Qed.

Lemma load_hashes_no_prior_state_witness :
  (exists w', load_hashes (world0 Absent) = (Returns (None, None), w')
              /\ hash_file w' = Absent)
  /\ (exists w', load_hashes (world0 (Content (Py.lit "only one line")))
                 = (Returns (None, None), w')
                 /\ hash_file w' = Content (Py.lit "only one line"))
  /\ fst (load_hashes (world0 (Unreadable (OSError (Py.lit "Permission denied")))))
     = Returns (None, None).
Proof.
  split; [|split].
  - apply (proj1 load_hashes_no_prior_state (world0 Absent)). exact I.
  - apply (proj1 load_hashes_no_prior_state
             (world0 (Content (Py.lit "only one line")))).
    vm_compute. discriminate.
  - apply (proj1 (proj2 (proj2 load_hashes_no_prior_state))
             env_offline cfg_no_channel 1%nat
             (world0 (Unreadable (OSError (Py.lit "Permission denied"))))
             (mkMemory None None)
             (snd (main env_offline cfg_no_channel 1
                     (world0 (Unreadable (OSError (Py.lit "Permission denied"))))))).
    + vm_compute. reflexivity.
    + reflexivity.
Defined.

(** C10. [load_hashes] returns both digests or neither, whatever the state
    file holds; the in-memory pair of the loop keeps this form through
    every iteration, so in steady state (a full-page digest is present) the
    prior section digest is present as well and the section comparison is
    one between two strings. *)
Theorem load_hashes_pair_is_whole :
  (forall w, exists a b w',
      load_hashes w = (Returns (a, b), w') /\ (a = None <-> b = None))
  /\ (forall env cfg n w mem w',
        main env cfg n w = (Returns mem, w') ->
        (last_full_hash mem = None <-> last_section_hash mem = None))
  /\ (forall env cfg n w mem w' section_hash,
        main env cfg n w = (Returns mem, w') ->
        last_full_hash mem <> None ->
        exists prior,
          last_section_hash mem = Some prior
          /\ differs section_hash (last_section_hash mem)
             = negb (Py.eqb section_hash prior)).
Proof.
  assert (P : forall env cfg n w mem w',
             main env cfg n w = (Returns mem, w') -> paired mem).
  { intros env cfg n w mem w' Hrun. unfold main, bind in Hrun.
    destruct (main_start_run cfg w) as [logs0 [E0 _]]. rewrite E0 in Hrun.
    refine (loop_stays_paired env cfg n _ _ _ mem _);
      [|rewrite Hrun; reflexivity].
    unfold paired; simpl. apply stored_pair_both. }
  split; [|split].
  - intros w. destruct (load_hashes_run w) as [logs [E _]]. rewrite E.
    pose proof (stored_pair_both (hash_file w)) as H.
    destruct (stored_pair (hash_file w)) as [a b].
    exists a, b. eexists; split; [reflexivity | exact H].
  - exact P.
  - intros env cfg n w mem w' sh Hrun Hsteady.
    pose proof (P env cfg n w mem w' Hrun) as Hp. unfold paired in Hp.
    destruct (last_section_hash mem) as [ls|].
    + exists ls; split; reflexivity.
    + exfalso. apply Hsteady, Hp. reflexivity.
Qed.

(** ** Stepping through a computation *)

Lemma bind_returns {A B} (m : M A) (k : A -> M B) (w w1 : World) (a : A) :
  m w = (Returns a, w1) -> bind m k w = k a w1.
Proof. intros E. unfold bind. rewrite E. reflexivity. Qed.

Lemma bind_raises {A B} (m : M A) (k : A -> M B) (w w1 : World) (e : exn) :
  m w = (Raises e, w1) -> bind m k w = (Raises e, w1).
Proof. intros E. unfold bind. rewrite E. reflexivity. Qed.

Lemma try_returns {A} (m : M A) cs (w w1 : World) (a : A) :
  m w = (Returns a, w1) -> try_ m cs w = (Returns a, w1).
Proof. intros E. unfold try_. rewrite E. reflexivity. Qed.

Lemma try_raises {A} (m : M A) cs (w w1 : World) (e : exn) :
  m w = (Raises e, w1) -> try_ m cs w = dispatch cs e w1.
Proof. intros E. unfold try_. rewrite E. reflexivity. Qed.

(** ** The notifier *)

(** The tests of lines 37 and 55. *)
Definition telegram_url (cfg : Config) : Py.str :=
  TELEGRAM_API ++ opt_get (TELEGRAM_BOT_TOKEN cfg) ++ Py.lit "/sendMessage".

(** The request of the Telegram channel for a message (lines 41-42). *)
Definition telegram_request (cfg : Config) (message : Py.str)
  : Py.str * json :=
  (telegram_url cfg,
   JObject [(Py.lit "chat_id", JString (opt_get (TELEGRAM_CHAT_ID cfg)));
            (Py.lit "text", JString message);
            (Py.lit "parse_mode", JString (Py.lit "HTML"))]).

(** The request of the e-mail channel (lines 59-66). *)
Definition mail_request (cfg : Config) (subject body : Py.str)
  : Py.str * json :=
  (BREVO_URL,
   JObject [(Py.lit "sender",
             JObject [(Py.lit "name", JString (FROM_NAME cfg));
                      (Py.lit "email", JString (opt_get (FROM_EMAIL cfg)))]);
            (Py.lit "to",
             JArray (map (fun email =>
                            JObject [(Py.lit "email", JString (Py.strip email))])
                         (Py.split (opt_get (MAIL_TO cfg)) 44)));
            (Py.lit "subject", JString subject);
            (Py.lit "textContent", JString body)]).

(** The requests of one call of [notify]: one per configured channel. *)
Definition channel_requests (cfg : Config) (subject body : Py.str)
  : list (Py.str * json) :=
  (if telegram_configured cfg
   then [telegram_request cfg
           (Py.lit "<b>" ++ subject ++ Py.lit "</b>" ++ NL ++ NL ++ body)]
   else [])
  ++ (if mail_configured cfg then [mail_request cfg subject body] else []).

Definition with_event (e : event) (w : World) : World :=
  mkWorld (clock w) (hash_file w) (e :: trace w).

Definition TELEGRAM_SKIPPED : event :=
  EvLog DEBUG (Py.lit "Telegram-Benachrichtigung übersprungen: Variablen fehlen")
        false.

Definition MAIL_SKIPPED : event :=
  EvLog DEBUG (Py.lit "Mailversand übersprungen: Brevo-Variablen fehlen") false.

Definition NOTHING_SENT : event :=
  EvLog WARNING (Py.lit "Keine Benachrichtigung konnte versendet werden!") false.

Section Notifier.
Variable env : Env.
Variable cfg : Config.

Lemma send_telegram_skipped (message : Py.str) (w : World) :
  telegram_configured cfg = false ->
  send_telegram env cfg message w = (Returns false, with_event TELEGRAM_SKIPPED w).
Proof.
  unfold telegram_configured, send_telegram. intros ->. reflexivity.
Qed.

Lemma send_mail_skipped (subject body : Py.str) (w : World) :
  mail_configured cfg = false ->
  send_mail env cfg subject body w = (Returns false, with_event MAIL_SKIPPED w).
Proof. unfold mail_configured, send_mail. intros ->. reflexivity. Qed.

Lemma send_telegram_posts (message : Py.str) (w : World) :
  posts (trace (snd (send_telegram env cfg message w)))
  = posts (trace w)
    ++ (if telegram_configured cfg then [telegram_request cfg message] else []).
Proof.
  unfold telegram_request, telegram_url.
  destruct (telegram_configured cfg) eqn:E.
  - unfold send_telegram. unfold telegram_configured in E. rewrite E.
    cbn [negb]. unfold requests_post, raise_for_status. cbn [put_headers].
    destruct w as [c h t]. run.
    destruct (http_post env _ _ _) as [r|msg]; [|observe; reflexivity].
    destruct ((400 <=? status_code r) && (status_code r <? 500));
      [observe; reflexivity|].
    destruct ((500 <=? status_code r) && (status_code r <? 600));
      observe; reflexivity.
  - rewrite send_telegram_skipped by exact E.
    cbn [snd with_event trace posts TELEGRAM_SKIPPED]. rewrite app_nil_r.
    reflexivity.
Qed.

Lemma send_mail_posts (subject body : Py.str) (w : World) :
  posts (trace (snd (send_mail env cfg subject body w)))
  = posts (trace w)
    ++ (if mail_configured cfg then [mail_request cfg subject body] else []).
Proof.
  unfold mail_request. destruct (mail_configured cfg) eqn:E.
  - unfold send_mail. unfold mail_configured in E. rewrite E.
    cbn [negb]. unfold requests_post, raise_for_status.
    destruct w as [c h t]. run.
    destruct (http_post env _ _ _) as [r|msg]; [|observe; reflexivity].
    destruct (put_headers env _) as [e|];
      [destruct (is_RequestException e); observe; reflexivity|].
    destruct ((400 <=? status_code r) && (status_code r <? 500));
      [observe; reflexivity|].
    destruct ((500 <=? status_code r) && (status_code r <? 600));
      observe; reflexivity.
  - rewrite send_mail_skipped by exact E.
    cbn [snd with_event trace posts MAIL_SKIPPED]. rewrite app_nil_r.
    reflexivity.
Qed.

(** What [send_mail] raises is what [http.client] raised on a header of a
    configured channel, and no RequestException. *)
Lemma send_mail_raises (subject body : Py.str) (w : World) (e : exn) :
  fst (send_mail env cfg subject body w) = Raises e ->
  mail_configured cfg = true
  /\ put_headers env (brevo_headers cfg) = Some e
  /\ is_RequestException e = false.
Proof.
  unfold send_mail, mail_configured, brevo_headers.
  destruct (Py.truthy (BREVO_API_KEY cfg) && Py.truthy (FROM_EMAIL cfg)
            && Py.truthy (MAIL_TO cfg)); cbn [negb]; [|discriminate].
  unfold requests_post, raise_for_status. destruct w as [c h t]. run.
  destruct (http_post env _ _ _) as [r|msg]; [|observe; discriminate].
  destruct (put_headers env _) as [e'|].
  - destruct (is_RequestException e') eqn:R; [discriminate|].
    intros H. injection H as <-. repeat split. exact R.
  - destruct ((400 <=? status_code r) && (status_code r <? 500));
      [observe; discriminate|].
    destruct ((500 <=? status_code r) && (status_code r <? 600));
      observe; discriminate.
Qed.

(** The steps of [notify]: the marker, then the Telegram attempt, which
    returns, then the e-mail attempt on the world the first attempt left;
    when it returns too, the warning when neither reported success. *)
Lemma notify_steps (subject body : Py.str) (w : World) :
  exists telegram_sent w1,
    send_telegram env cfg
      (Py.lit "<b>" ++ subject ++ Py.lit "</b>" ++ NL ++ NL ++ body)
      (with_event (EvNotify subject body) w) = (Returns telegram_sent, w1)
    /\ notify env cfg subject body w
       = match send_mail env cfg subject body w1 with
         | (Returns mail_sent, w2) =>
           (Returns tt,
            if negb telegram_sent && negb mail_sent
            then with_event NOTHING_SENT w2 else w2)
         | (Raises e, w2) => (Raises e, w2)
         end.
Proof.
  set (w0 := with_event (EvNotify subject body) w).
  destruct (safe_returns
              (send_telegram env cfg
                 (Py.lit "<b>" ++ subject ++ Py.lit "</b>" ++ NL ++ NL ++ body))
              w0 (send_telegram_safe env cfg _)) as [t Et].
  set (w1 := snd (send_telegram env cfg
                    (Py.lit "<b>" ++ subject ++ Py.lit "</b>" ++ NL ++ NL ++ body)
                    w0)) in Et.
  exists t, w1. split; [exact Et|].
  unfold notify.
  rewrite (bind_returns _ _ w w0 tt) by reflexivity.
  rewrite (bind_returns _ _ _ _ _ Et).
  unfold bind. destruct (send_mail env cfg subject body w1) as [[m|e] w2];
    [|reflexivity].
  destruct (negb t && negb m); reflexivity.
Qed.

(** The run of [notify] when the library sends the headers. *)
Lemma notify_run (subject body : Py.str) (w : World) :
  headers_accepted env cfg ->
  exists telegram_sent mail_sent w1 w2,
    send_telegram env cfg
      (Py.lit "<b>" ++ subject ++ Py.lit "</b>" ++ NL ++ NL ++ body)
      (with_event (EvNotify subject body) w) = (Returns telegram_sent, w1)
    /\ send_mail env cfg subject body w1 = (Returns mail_sent, w2)
    /\ notify env cfg subject body w
       = (Returns tt,
          if negb telegram_sent && negb mail_sent
          then with_event NOTHING_SENT w2 else w2).
Proof.
  intros Ha. destruct (notify_steps subject body w) as [t [w1 [Et E]]].
  destruct (safe_returns (send_mail env cfg subject body) w1
              (send_mail_safe env cfg subject body Ha)) as [m Em].
  exists t, m, w1, (snd (send_mail env cfg subject body w1)).
  split; [exact Et|]. split; [exact Em|].
  rewrite E, Em. reflexivity.
Qed.

Lemma notify_posts (subject body : Py.str) (w : World) :
  posts (trace (snd (notify env cfg subject body w)))
  = posts (trace w) ++ channel_requests cfg subject body.
Proof.
  destruct (notify_steps subject body w) as [t [w1 [Et E]]].
  assert (H2 : posts (trace (snd (send_mail env cfg subject body w1)))
               = posts (trace w) ++ channel_requests cfg subject body).
  { rewrite send_mail_posts.
    pose proof (send_telegram_posts
                  (Py.lit "<b>" ++ subject ++ Py.lit "</b>" ++ NL ++ NL ++ body)
                  (with_event (EvNotify subject body) w)) as Ht.
    rewrite Et in Ht. cbn [snd] in Ht. rewrite Ht.
    cbn [with_event trace posts]. unfold channel_requests.
    symmetry. apply app_assoc. }
  rewrite E. destruct (send_mail env cfg subject body w1) as [[m|e] w2];
    cbn [snd] in *; [|exact H2].
  destruct (negb t && negb m); exact H2.
Qed.

Lemma notify_notifications (subject body : Py.str) (w : World) :
  notifications (trace (snd (notify env cfg subject body w)))
  = notifications (trace w) ++ [(subject, body)].
Proof.
  unfold notify.
  rewrite (bind_returns _ _ w (with_event (EvNotify subject body) w) tt)
    by reflexivity.
  match goal with
  | |- context [snd (?m ?w0)] =>
    rewrite (keeps_notifications m w0)
  end; [reflexivity|].
  frame.
Qed.

End Notifier.

(** Both channels configured, with an API key that holds a euro sign. *)
Definition cfg_bad_key : Config :=
  mkConfig 900 (Py.lit "./hashes.txt")
           (Some (Py.lit "key€")) (Some (Py.lit "watcher@example.org"))
           (Py.lit "OLG Watcher") (Some (Py.lit "a@example.org"))
           (Some (Py.lit "123:abc")) (Some (Py.lit "42")).

(** Every service is reachable and answers 200. *)
Definition env_online : Env :=
  mkEnv (fun _ url => inl (mkResponse 200 (Py.lit "OK") url []))
        (fun _ url _ => inl (mkResponse 200 (Py.lit "OK") url []))
        latin1_fault clock_fault
        (fun _ => None)
        (fun _ => Returns (document []))
        simple_markup.




(** ** The loop controller *)

Definition CHECKING : event := EvLog INFO (Py.lit "Prüfe Webseite...") false.

Definition FETCH_ERROR (e : exn) : event :=
  EvLog ERROR (Py.lit "Fehler beim Abrufen der Webseite: " ++ exn_str e) false.

Definition UNEXPECTED_ERROR (e : exn) : event :=
  EvLog ERROR (Py.lit "Unerwarteter Fehler: " ++ exn_str e) true.

Definition WAITING (cfg : Config) : event :=
  EvLog INFO (Py.lit "Warte " ++ Py.of_int (CHECK_INTERVAL cfg)
                ++ Py.lit " Sekunden bis zum nächsten Check...") false.

(** Lines 207-208: the step after the [try] statement. *)
Definition sleep_step (env : Env) (cfg : Config) (mem : Memory) : M Memory :=
  log INFO (Py.lit "Warte " ++ Py.of_int (CHECK_INTERVAL cfg)
              ++ Py.lit " Sekunden bis zum nächsten Check...");;
  time_sleep env (CHECK_INTERVAL cfg);;
  ret mem.

Definition slept (cfg : Config) (w : World) : World :=
  mkWorld (S (clock w)) (hash_file w)
          (EvSleep (CHECK_INTERVAL cfg) :: WAITING cfg :: trace w).

Lemma sleep_step_run (env : Env) (cfg : Config) (mem : Memory) (w : World) :
  can_sleep env cfg ->
  sleep_step env cfg mem w = (Returns mem, slept cfg w).
Proof.
  intros [H F]. unfold sleep_step, time_sleep.
  apply Z.ltb_ge in H. rewrite H, F. reflexivity.
Qed.

(** What the sleep step raises is what [time.sleep] raises on the
    interval. *)
Lemma sleep_step_raises (env : Env) (cfg : Config) (mem : Memory) (w w' : World)
    (e : exn) :
  sleep_step env cfg mem w = (Raises e, w') ->
  (CHECK_INTERVAL cfg < 0
   /\ e = ValueError (Py.lit "sleep length must be non-negative"))
  \/ (0 <= CHECK_INTERVAL cfg /\ sleep_fault env (CHECK_INTERVAL cfg) = Some e).
Proof.
  unfold sleep_step, time_sleep. destruct w as [c h t]. run.
  destruct (CHECK_INTERVAL cfg <? 0) eqn:N.
  - intros H. injection H as <- _. left. apply Z.ltb_lt in N. split; [exact N|].
    reflexivity.
  - destruct (sleep_fault env (CHECK_INTERVAL cfg)) as [e'|]; [|discriminate].
    intros H. injection H as <- _. right. apply Z.ltb_ge in N.
    split; [exact N | reflexivity].
Qed.

Section Controller.
Variable env : Env.
Variable cfg : Config.

Lemma cycle_unfold (mem mem' : Memory) (w w1 : World) :
  guarded_body env cfg mem w = (Returns mem', w1) ->
  cycle env cfg mem w = sleep_step env cfg mem' w1.
Proof. intros E. unfold cycle. rewrite (bind_returns _ _ _ _ _ E). reflexivity. Qed.

Lemma guarded_body_handles (mem : Memory) (w w0 : World) (e : exn) :
  try_body env cfg mem w = (Raises e, w0) ->
  guarded_body env cfg mem w
  = (Returns mem,
     with_event (if is_RequestException e then FETCH_ERROR e
                 else UNEXPECTED_ERROR e) w0).
Proof.
  intros E. unfold guarded_body. rewrite (try_raises _ _ _ _ _ E).
  cbn [dispatch except]. destruct (is_RequestException e); reflexivity.
Qed.

Lemma cycle_run (mem : Memory) (w : World) :
  can_sleep env cfg ->
  exists mem' w1,
    guarded_body env cfg mem w = (Returns mem', w1)
    /\ cycle env cfg mem w = (Returns mem', slept cfg w1)
    /\ sleeps (trace (slept cfg w1)) = S (sleeps (trace w)).
Proof.
  intros H.
  destruct (safe_returns (guarded_body env cfg mem) w
              (guarded_body_safe env cfg mem)) as [mem' E].
  exists mem', (snd (guarded_body env cfg mem w)).
  split; [exact E|]. split.
  - rewrite (cycle_unfold _ _ _ _ E). apply sleep_step_run. exact H.
  - cbn [slept trace sleeps WAITING]. f_equal.
    apply keeps_sleeps. apply guarded_body_kinds. reflexivity.
Qed.

Lemma loop_run (n : nat) :
  can_sleep env cfg ->
  forall mem w,
    exists mem' w',
      loop env cfg n mem w = (Returns mem', w')
      /\ sleeps (trace w') = (n + sleeps (trace w))%nat.
Proof.
  intros H. induction n as [|n IH]; intros mem w.
  - exists mem, w. split; reflexivity.
  - destruct (cycle_run mem w H) as [m1 [w1 [_ [E S1]]]].
    destruct (IH m1 (slept cfg w1)) as [m2 [w2 [E2 S2]]].
    exists m2, w2. split.
    + cbn [loop]. rewrite (bind_returns _ _ _ _ _ E). exact E2.
    + rewrite S2, S1. lia.
Qed.

End Controller.

(** C9. Nothing raised inside the [try] of an iteration leaves it: the
    guarded body always returns.  When the steps of the body (fetch,
    extract, hash, compare, notify, persist) raise an exception, one of the
    two handlers writes one ERROR line carrying the text of the exception
    (the first handler for a RequestException, the catch-all with traceback
    for any other), the in-memory pair stays as it was, and the iteration
    goes on with the sleep step.  What an iteration raises is therefore what
    [time.sleep] raised on the interval, outside the [try].  When
    [time.sleep] returns on the interval (it is not negative and not beyond
    what the platform can wait for), the loop completes any number of
    iterations, one sleep each. *)
Theorem loop_never_raises :
  forall env cfg mem w,
    (exists mem' w1,
        guarded_body env cfg mem w = (Returns mem', w1)
        /\ cycle env cfg mem w = sleep_step env cfg mem' w1)
    /\ (forall e w0,
           try_body env cfg mem w = (Raises e, w0) ->
           guarded_body env cfg mem w
           = (Returns mem,
              with_event (if is_RequestException e then FETCH_ERROR e
                          else UNEXPECTED_ERROR e) w0))
    /\ (forall e w',
           cycle env cfg mem w = (Raises e, w') ->
           (CHECK_INTERVAL cfg < 0
            /\ e = ValueError (Py.lit "sleep length must be non-negative"))
           \/ (0 <= CHECK_INTERVAL cfg
               /\ sleep_fault env (CHECK_INTERVAL cfg) = Some e))
    /\ (can_sleep env cfg ->
        forall n, exists mem' w',
            loop env cfg n mem w = (Returns mem', w')
            /\ sleeps (trace w') = (n + sleeps (trace w))%nat).
Proof.
  intros env cfg mem w.
  destruct (safe_returns (guarded_body env cfg mem) w
              (guarded_body_safe env cfg mem)) as [mem' E].
  split; [|split; [|split]].
  - exists mem', (snd (guarded_body env cfg mem w)).
    split; [exact E | apply cycle_unfold; exact E].
  - intros e w0. apply guarded_body_handles.
  - intros e w'. rewrite (cycle_unfold env cfg _ _ _ _ E).
    apply sleep_step_raises.
  - intros H n. apply loop_run. exact H.
Qed.

(** Three iterations without network: three error lines, three sleeps. *)
Lemma loop_never_raises_witness :
  exists mem' w',
    loop env_offline cfg_no_channel 3 (mkMemory None None) (world0 Absent)
    = (Returns mem', w')
    /\ sleeps (trace w') = (3 + sleeps (trace (world0 Absent)))%nat.
Proof.
  apply (proj2 (proj2 (proj2 (loop_never_raises env_offline cfg_no_channel
                                (mkMemory None None) (world0 Absent))))).
  split; [vm_compute; discriminate | reflexivity].
Defined.

(** [fetch_page] raises exactly on a network error (the request itself
    raises) and on an HTTP error (the status of the response is 4xx or
    5xx). *)
Lemma fetch_page_fails (env : Env) (w : World) :
  (exists e w1, fetch_page env w = (Raises e, w1))
  <-> ((exists msg, http_get env (clock w) URL = inr msg)
       \/ (exists r, http_get env (clock w) URL = inl r
                     /\ 400 <= status_code r < 600)).
Proof.
  destruct w as [c h t]. unfold fetch_page, requests_get, raise_for_status.
  run. destruct (http_get env c URL) as [r|msg].
  - destruct ((400 <=? status_code r) && (status_code r <? 500)) eqn:E4.
    { split; [|intros _; eexists; eexists; reflexivity].
      intros _. right. exists r. split; [reflexivity|].
      apply andb_true_iff in E4. destruct E4 as [A B].
      apply Z.leb_le in A. apply Z.ltb_lt in B. lia. }
    destruct ((500 <=? status_code r) && (status_code r <? 600)) eqn:E5.
    { split; [|intros _; eexists; eexists; reflexivity].
      intros _. right. exists r. split; [reflexivity|].
      apply andb_true_iff in E5. destruct E5 as [A B].
      apply Z.leb_le in A. apply Z.ltb_lt in B. lia. }
    split.
    + intros [e [w1 H]]. discriminate H.
    + intros [[msg H]|[r' [H Hr]]]; [discriminate H|].
      inversion H; subst r'. exfalso.
      apply andb_false_iff in E4. apply andb_false_iff in E5.
      rewrite !Z.leb_gt, !Z.ltb_ge in E4, E5. lia.
  - split; [|intros _; eexists; eexists; reflexivity].
    intros _. left. exists msg. reflexivity.
Qed.



(** ** The state store: save_hashes *)

(** The text that a complete save writes. *)
Definition saved_text (full_hash section_hash : Py.str) : Py.str :=
  full_hash ++ NL ++ section_hash ++ NL.

Lemma firstn_of_first_part {A} (k : nat) (a rest : list A) :
  firstn k a = firstn (Nat.min k (List.length a)) (a ++ rest).
Proof.
  rewrite firstn_app.
  replace (Nat.min k (List.length a) - List.length a)%nat with O by lia.
  cbn [firstn]. rewrite app_nil_r, <- firstn_firstn, firstn_all. reflexivity.
Qed.

(** What [save_hashes] leaves behind: the complete text when it returns;
    when it raises, the file as it was (the failure came before the file
    was opened) or a prefix of the text. *)
Lemma save_hashes_run (env : Env) (full section : Py.str) (w : World) :
  (fst (save_hashes env full section w) = Returns tt
   /\ hash_file (snd (save_hashes env full section w))
      = Content (saved_text full section))
  \/ (exists e,
        fst (save_hashes env full section w) = Raises e
        /\ (hash_file (snd (save_hashes env full section w)) = hash_file w
            \/ exists k,
                hash_file (snd (save_hashes env full section w))
                = Content (firstn k (saved_text full section)))).
Proof.
  assert (D : saved_text full section = (full ++ NL) ++ (section ++ NL)).
  { unfold saved_text. rewrite <- app_assoc. reflexivity. }
  destruct w as [c h t]. unfold save_hashes. run.
  destruct (disk_fault env c) as [[k e]|];
    [right; exists e; split; [reflexivity | left; reflexivity]|].
  destruct (disk_fault env (S c)) as [[k e]|];
    [right; exists e; split; [reflexivity | left; reflexivity]|].
  destruct (disk_fault env (S (S c))) as [[k e]|].
  { right; exists e; split; [reflexivity|]. right.
    exists (Nat.min k (List.length (full ++ NL))).
    rewrite D, <- firstn_of_first_part. reflexivity. }
  destruct (disk_fault env (S (S (S c)))) as [[k e]|].
  { right; exists e; split; [reflexivity|]. right.
    exists (List.length (full ++ NL) + k)%nat.
    rewrite D, firstn_app_2. reflexivity. }
  left. split; [reflexivity|]. rewrite D. reflexivity.
Qed.

Lemma save_hashes_returns (env : Env) (full section : Py.str) (w w' : World) :
  save_hashes env full section w = (Returns tt, w') ->
  hash_file w' = Content (saved_text full section).
Proof.
  intros E. destruct (save_hashes_run env full section w) as [[_ H]|[e [H _]]];
    rewrite E in *; [exact H | discriminate].
Qed.

Lemma one_line_firstn (k : nat) (s : Py.str) :
  one_line s -> one_line (firstn k s).
Proof.
  intros H. revert k. induction H as [|c s Hc _ IH]; intros [|k];
    cbn [firstn]; try constructor; [exact Hc | apply IH].
Qed.

Lemma stored_pair_complete (full section : Py.str) :
  one_line full -> one_line section ->
  stored_pair (Content (saved_text full section)) = (Some full, Some section).
Proof.
  intros Hf Hs. unfold stored_pair, saved_text.
  rewrite splitlines_two_lines by assumption. reflexivity.
Qed.

(** The lines of a first line, its terminator, and the beginning [p] of a
    second line. *)
Lemma splitlines_open_second_line (a p : Py.str) :
  one_line a -> one_line p ->
  Py.splitlines (a ++ NL ++ p) = match p with [] => [a] | _ => [a; p] end.
Proof.
  intros Ha Hp. unfold Py.splitlines.
  rewrite splitlines_from_one_line, splitlines_from_newline by assumption.
  rewrite app_nil_r, rev_involutive, splitlines_from_end by assumption.
  destruct p; reflexivity.
Qed.

(** A prefix of the saved text holds no pair, or the first digest whole
    with a beginning of the second. *)
Lemma stored_pair_prefix (full section : Py.str) (k : nat) :
  one_line full -> one_line section ->
  stored_pair (Content (firstn k (saved_text full section))) = (None, None)
  \/ exists j, (0 < j)%nat
       /\ stored_pair (Content (firstn k (saved_text full section)))
          = (Some full, Some (firstn j section)).
Proof.
  intros Hf Hs. unfold saved_text. rewrite firstn_app.
  destruct (Nat.le_gt_cases k (List.length full)) as [Hk|Hk].
  - left. replace (k - List.length full)%nat with O by lia.
    cbn [firstn]. rewrite app_nil_r. unfold stored_pair, Py.splitlines.
    rewrite splitlines_from_end by (apply one_line_firstn; exact Hf).
    destruct (firstn k full); reflexivity.
  - rewrite firstn_all2 by lia.
    destruct (k - List.length full)%nat as [|m] eqn:Em; [lia|].
    cbn [NL app firstn]. rewrite firstn_app.
    destruct (m - List.length section)%nat as [|d] eqn:Ed.
    + cbn [firstn]. rewrite app_nil_r.
      change (full ++ 10 :: firstn m section)
        with (full ++ NL ++ firstn m section).
      unfold stored_pair.
      rewrite splitlines_open_second_line
        by (try apply one_line_firstn; assumption).
      destruct (firstn m section) as [|c r] eqn:Ep; [left; reflexivity|].
      right. exists m. split; [|rewrite Ep; reflexivity].
      destruct m; [discriminate Ep | lia].
    + right. exists m. split; [lia|].
      rewrite (firstn_all2 (n := m)) by lia.
      replace (firstn (S d) NL) with NL
        by (unfold NL; cbn [firstn]; rewrite firstn_nil; reflexivity).
      apply (stored_pair_complete full section Hf Hs).
Qed.

(** A disk that fills up during the second write of a save: the operation
    at tick 3 fails after ten characters. *)
Definition env_disk_full : Env :=
  mkEnv (fun _ _ => inr (Py.lit "Connection refused"))
        (fun _ _ _ => inr (Py.lit "Connection refused"))
        latin1_fault clock_fault
        (fun t => if Nat.eqb t 3
                  then Some (10%nat, OSError (Py.lit "No space left on device"))
                  else None)
        (fun _ => Returns (document []))
        simple_markup.

Definition digest_of (s : string) : Py.str := Sha256.hexdigest (Py.octets s).

(** C8 does not hold as the specification words it.  A save of two new
    digests over an old state file stops ten characters into the second
    digest; the file then has two lines, and the next load accepts them: it
    returns the new full-page digest with the first ten characters of the
    new section digest, which is neither the complete new pair nor
    (None, None). *)
Lemma save_hashes_not_atomic :
  fst (save_hashes env_disk_full (digest_of "page 2") (digest_of "section 2")
         (world0 (Content (saved_text (digest_of "page 1")
                                      (digest_of "section 1")))))
  = Raises (OSError (Py.lit "No space left on device"))
  /\ fst (load_hashes
            (snd (save_hashes env_disk_full (digest_of "page 2")
                    (digest_of "section 2")
                    (world0 (Content (saved_text (digest_of "page 1")
                                                 (digest_of "section 1")))))))
     = Returns (Some (digest_of "page 2"), Some (Py.lit "1143ba5749"))
  /\ Py.eqb (Py.lit "1143ba5749") (digest_of "section 2") = false.
Proof. vm_compute. repeat split. Qed.

(** C8, amended.  [save_hashes] empties the file and appends the two
    lines, so what it leaves is the file as it was (it failed before opening
    it), the complete text (exactly when it returns), or a prefix of the
    text.  On any prefix of the text a later [load_hashes] returns without
    raising and gives either (None, None) or the new full-page digest with
    a non-empty beginning of the new section digest; on the complete text
    it gives the complete new pair.  Nothing of the old digests is ever
    returned once the file was opened. *)
Theorem load_after_interrupted_save :
  forall full section,
    one_line full -> one_line section ->
    (forall env w0,
        (fst (save_hashes env full section w0) = Returns tt
         /\ hash_file (snd (save_hashes env full section w0))
            = Content (saved_text full section))
        \/ (exists e,
              fst (save_hashes env full section w0) = Raises e
              /\ (hash_file (snd (save_hashes env full section w0))
                  = hash_file w0
                  \/ exists k,
                      hash_file (snd (save_hashes env full section w0))
                      = Content (firstn k (saved_text full section)))))
    /\ (forall k w,
           hash_file w = Content (firstn k (saved_text full section)) ->
           exists w',
             hash_file w' = hash_file w
             /\ (load_hashes w = (Returns (None, None), w')
                 \/ exists j,
                     (0 < j)%nat
                     /\ load_hashes w
                        = (Returns (Some full, Some (firstn j section)), w'))
             /\ ((List.length (saved_text full section) <= k)%nat ->
                 load_hashes w = (Returns (Some full, Some section), w'))).
Proof.
  intros full section Hf Hs. split.
  - intros env w0. apply save_hashes_run.
  - intros k w Hw.
    destruct (load_hashes_run w) as [logs [E _]].
    exists (mkWorld (clock w) (hash_file w) (logs ++ trace w)).
    rewrite E. clear E. split; [reflexivity|].
    generalize (mkWorld (clock w) (hash_file w) (logs ++ trace w)).
    rewrite Hw. intros w'. split.
    + destruct (stored_pair_prefix full section k Hf Hs) as [->|[j [Hj ->]]].
      * left. reflexivity.
      * right. exists j. split; [exact Hj | reflexivity].
    + intros Hk. rewrite firstn_all2 by exact Hk.
      rewrite stored_pair_complete by assumption. reflexivity.
Qed.

Lemma load_after_interrupted_save_witness :
  exists w',
    hash_file w'
    = Content (firstn 70 (saved_text (digest_of "page 2") (digest_of "section 2")))
    /\ (load_hashes
          (world0 (Content (firstn 70 (saved_text (digest_of "page 2")
                                                  (digest_of "section 2")))))
        = (Returns (None, None), w')
        \/ exists j,
            (0 < j)%nat
            /\ load_hashes
                 (world0 (Content (firstn 70 (saved_text (digest_of "page 2")
                                                         (digest_of "section 2")))))
               = (Returns (Some (digest_of "page 2"),
                           Some (firstn j (digest_of "section 2"))), w')).
Proof.
  destruct (proj2 (load_after_interrupted_save
                     (digest_of "page 2") (digest_of "section 2")
                     (hexdigest_one_line _) (hexdigest_one_line _))
              70%nat
              (world0 (Content (firstn 70 (saved_text (digest_of "page 2")
                                                      (digest_of "section 2")))))
              eq_refl) as [w' [H1 [H2 _]]].
  exists w'. split; [exact H1 | exact H2].
Defined.

(** ** The extractor *)

(** Induction on the markup tree, with the hypothesis for every child. *)
Section TreeInduction.
Variable P : PageElement -> Prop.
Hypothesis on_tag : forall name attrs cs, Forall P cs -> P (Tag name attrs cs).
Hypothesis on_string : forall s, P (NavigableString s).

Fixpoint tree_ind (e : PageElement) : P e :=
  match e with
  | Tag name attrs cs =>
    on_tag name attrs cs
      ((fix children (l : list PageElement) : Forall P l :=
          match l with
          | [] => Forall_nil P
          | c :: r => Forall_cons c (tree_ind c) (children r)
          end) cs)
  | NavigableString s => on_string s
  end.
End TreeInduction.

(** An element and everything below it, in document order. *)
Fixpoint subtree (e : PageElement) : list PageElement :=
  e :: match e with
       | Tag _ _ cs => flat_map subtree cs
       | NavigableString _ => []
       end.

(** [soup.descendants] *)
Definition descendants (soup : PageElement) : list PageElement :=
  match soup with
  | Tag _ _ cs => flat_map subtree cs
  | NavigableString _ => []
  end.

Lemma first_match_none (cs : list PageElement) :
  Forall (fun c => forall following,
              search c following = None
              <-> Forall (fun d => is_target d = false) (subtree c)) cs ->
  first_match search cs = None
  <-> Forall (fun d => is_target d = false) (flat_map subtree cs).
Proof.
  induction 1 as [|c cs Hc _ IH]; cbn [first_match flat_map].
  - split; [constructor | reflexivity].
  - rewrite Forall_app, <- IH, <- (Hc cs).
    destruct (search c cs); [|tauto].
    split; [discriminate | intros [H _]; discriminate H].
Qed.

Lemma search_none (e : PageElement) :
  forall following,
    search e following = None
    <-> Forall (fun d => is_target d = false) (subtree e).
Proof.
  induction e as [name attrs cs IH|s] using tree_ind; intros following.
  - cbn [search subtree]. rewrite Forall_cons_iff, <- (first_match_none cs IH).
    destruct (is_target (Tag name attrs cs)).
    + split; [discriminate | intros [H _]; discriminate H].
    + tauto.
  - cbn. split; [repeat constructor | reflexivity].
Qed.

Lemma first_match_target (cs : list PageElement) header following :
  Forall (fun c => forall fo h f,
              search c fo = Some (h, f) -> is_target h = true) cs ->
  first_match search cs = Some (header, following) ->
  is_target header = true.
Proof.
  induction 1 as [|c cs Hc _ IH]; cbn [first_match]; [discriminate|].
  destruct (search c cs) as [[h f]|] eqn:E; [|exact IH].
  intros H; inversion H; subst. eapply Hc; exact E.
Qed.

Lemma search_target (e : PageElement) :
  forall fo h f, search e fo = Some (h, f) -> is_target h = true.
Proof.
  induction e as [name attrs cs IH|s] using tree_ind; intros fo h f.
  - cbn [search]. destruct (is_target (Tag name attrs cs)) eqn:E.
    + intros H; inversion H; subst. exact E.
    + apply first_match_target. exact IH.
  - cbn. discriminate.
Qed.

(** [find] fails exactly when no descendant is the target heading, and what
    it finds is a target heading. *)
Lemma find_none (soup : PageElement) :
  find soup = None
  <-> Forall (fun d => is_target d = false) (descendants soup).
Proof.
  destruct soup as [name attrs cs|s]; cbn [find descendants].
  - apply first_match_none. apply Forall_forall. intros c _. apply search_none.
  - split; [constructor | reflexivity].
Qed.

Lemma find_target (soup header : PageElement) following :
  find soup = Some (header, following) -> is_target header = true.
Proof.
  destruct soup as [name attrs cs|s]; cbn [find]; [|discriminate].
  apply first_match_target. apply Forall_forall. intros c _.
  apply search_target.
Qed.

(** The test of line 115 on one sibling. *)
Definition stops_at (e : PageElement) : bool :=
  Py.truthy (tag_name e) && Py.startswith (opt_get (tag_name e)) (Py.lit "h").

(** The elements before the first one on which [stop] holds. *)
Fixpoint take_until {A} (stop : A -> bool) (l : list A) : list A :=
  match l with
  | [] => []
  | x :: r => if stop x then [] else x :: take_until stop r
  end.

Lemma collect_take_until (env : Env) (siblings : list PageElement) :
  collect env siblings = map (element_str env) (take_until stops_at siblings).
Proof.
  induction siblings as [|s r IH]; cbn [collect take_until map]; [reflexivity|].
  unfold stops_at. destruct (Py.truthy (tag_name s) && _); [reflexivity|].
  cbn [map]. rewrite IH. reflexivity.
Qed.

(** The reading of the specification: a heading-class element is a tag
    named h1, h2, h3, h4, h5 or h6. *)
Definition spec_is_heading (e : PageElement) : bool :=
  match tag_name e with
  | Some n =>
    existsb (Py.eqb n)
      [Py.lit "h1"; Py.lit "h2"; Py.lit "h3"; Py.lit "h4"; Py.lit "h5";
       Py.lit "h6"]
  | None => false
  end.

(** The section as the specification words it: the markup of the sibling
    elements before the next heading, joined by newlines and trimmed, and
    "no section" when that is empty. *)
Definition spec_section (env : Env) (following : list PageElement)
  : option Py.str :=
  match Py.strip (Py.join NL (map (element_str env)
                                  (take_until spec_is_heading
                                     (find_next_siblings following)))) with
  | [] => None
  | combined => Some combined
  end.

(** The section as the code computes it. *)
Definition code_section (env : Env) (following : list PageElement)
  : option Py.str :=
  match Py.strip (Py.join NL (map (element_str env)
                                  (take_until stops_at
                                     (find_next_siblings following)))) with
  | [] => None
  | combined => Some combined
  end.

Lemma heading_stops (e : PageElement) :
  spec_is_heading e = true -> stops_at e = true.
Proof.
  unfold spec_is_heading, stops_at. destruct (tag_name e) as [n|]; [|discriminate].
  cbn [existsb]. rewrite !orb_true_iff, !eqb_eq.
  intros [H|[H|[H|[H|[H|[H|H]]]]]]; try discriminate H; subst; reflexivity.
Qed.

Lemma take_until_agree {A} (p q : A -> bool) (l : list A) :
  Forall (fun x => p x = q x) l -> take_until p l = take_until q l.
Proof.
  induction 1 as [|x l Hx _ IH]; cbn [take_until]; [reflexivity|].
  rewrite Hx, IH. reflexivity.
Qed.

Definition NOT_FOUND : event :=
  EvLog DEBUG (Py.lit "Ausbildungsbereich-Header nicht gefunden") false.

Lemma extract_from_soup_run (env : Env) (soup : PageElement) (w : World) :
  extract_from_soup env soup w
  = match find soup with
    | None => (Returns None, with_event NOT_FOUND w)
    | Some (_, following) => (Returns (code_section env following), w)
    end.
Proof.
  unfold extract_from_soup, code_section.
  destruct (find soup) as [[header following]|]; [|reflexivity].
  rewrite collect_take_until.
  destruct (Py.strip _); reflexivity.
Qed.

(** The example of the specification: the page
    <h5>TARGET</h5><p>A</p><h6>B</h6>. *)
Definition page_spec_example : PageElement :=
  document [Tag (Py.lit "h5") [] [NavigableString TARGET_HEADING];
            elem "p" [txt "A"]; elem "h6" [txt "B"]].

Example extract_spec_example :
  extract_from_soup env_offline page_spec_example (world0 Absent)
  = (Returns (Some (Py.lit "<p>A</p>")), world0 Absent).
Proof. vm_compute. reflexivity. Qed.

(** A page without the heading. *)
Example extract_absent :
  extract_from_soup env_offline (document [elem "p" [txt "A"]]) (world0 Absent)
  = (Returns None, with_event NOT_FOUND (world0 Absent)).
Proof. vm_compute. reflexivity. Qed.

(** The page <h5>TARGET</h5><p>A</p><hr/><p>B</p><h6>C</h6>: a rule
    between two paragraphs of the section. *)
Definition page_with_rule : PageElement :=
  document [Tag (Py.lit "h5") [] [NavigableString TARGET_HEADING];
            elem "p" [txt "A"]; elem "hr" []; elem "p" [txt "B"];
            elem "h6" [txt "C"]].

(** The text of the page with the rule, and a parser that knows it. *)
Definition html_rule : Py.str :=
  Py.lit "<h5>Kurzfristig zu besetzende Ausbildungsplätze:</h5><p>A</p><hr/><p>B</p><h6>C</h6>".

Definition env_rule : Env :=
  mkEnv (fun _ url => inl (mkResponse 200 (Py.lit "OK") url html_rule))
        (fun _ url _ => inl (mkResponse 200 (Py.lit "OK") url []))
        latin1_fault clock_fault
        (fun _ => None)
        (fun h => if Py.eqb h html_rule then Returns page_with_rule
                  else Raises (OtherException (Py.lit "unknown page")))
        simple_markup.

(** C3. The extractor is to return the siblings that follow the heading up
    to the next heading.  On the page with the rule these are <p>A</p>,
    <hr/> and <p>B</p>, joined by newlines; the extractor returns <p>A</p>
    alone: the test of line 115 takes the rule for a heading, because its
    name starts with the letter h. *)
Lemma extract_stops_at_rule :
  extract_training_section env_rule html_rule (world0 Absent)
  = (Returns (Some (Py.lit "<p>A</p>")), world0 Absent)
  /\ find page_with_rule
  = Some (Tag (Py.lit "h5") [] [NavigableString TARGET_HEADING],
          [elem "p" [txt "A"]; elem "hr" []; elem "p" [txt "B"];
           elem "h6" [txt "C"]])
  /\ extract_from_soup env_offline page_with_rule (world0 Absent)
     = (Returns (Some (Py.lit "<p>A</p>")), world0 Absent)
  /\ spec_section env_offline
       [elem "p" [txt "A"]; elem "hr" []; elem "p" [txt "B"];
        elem "h6" [txt "C"]]
     = Some (Py.lit "<p>A</p>" ++ NL ++ Py.lit "<hr/>" ++ NL ++ Py.lit "<p>B</p>")
  /\ spec_is_heading (elem "hr" []) = false
  /\ stops_at (elem "hr" []) = true.
Proof. vm_compute. repeat split. Qed.

(** The extractor on a parsed document.  It never raises.  It
    returns None (after one debug line) exactly when no descendant of the
    document is an h5 whose string is the target text.  Otherwise, with the
    heading that [find] returns, it returns the markup of the
    sibling elements that follow the heading up to but not including the
    next one whose tag name starts with the letter h, joined by newlines
    and trimmed, and None when that string is empty.  Every heading h1 to h6
    ends the run, and when each sibling element whose name starts with h is
    a heading, the result is the section up to the next heading. *)
Theorem extract_training_section_run :
  forall env soup w,
    (Forall (fun d => is_target d = false) (descendants soup) ->
     extract_from_soup env soup w = (Returns None, with_event NOT_FOUND w))
    /\ (forall header following,
           find soup = Some (header, following) ->
           is_target header = true
           /\ Exists (fun d => is_target d = true) (descendants soup)
           /\ extract_from_soup env soup w
              = (Returns
                   match Py.strip
                           (Py.join NL
                              (map (element_str env)
                                   (take_until stops_at
                                      (find_next_siblings following)))) with
                   | [] => None
                   | combined => Some combined
                   end, w)
           /\ Forall (fun e => spec_is_heading e = false)
                     (take_until stops_at (find_next_siblings following))
           /\ (Forall (fun e => stops_at e = spec_is_heading e)
                      (find_next_siblings following) ->
               extract_from_soup env soup w
               = (Returns (spec_section env following), w)))
    /\ (forall html w0,
           BeautifulSoup env html = Returns soup ->
           extract_training_section env html w0 = extract_from_soup env soup w0).
Proof.
  intros env soup w. split; [|split].
  - intros H. apply find_none in H. rewrite extract_from_soup_run, H.
    reflexivity.
  - intros header following E.
    split; [eapply find_target; exact E|].
    split.
    { apply Exists_exists.
      destruct (Forall_Exists_dec (fun d => is_target d = false)
                  (fun d => bool_dec (is_target d) false) (descendants soup))
        as [Hall|Hex].
      - apply find_none in Hall. rewrite Hall in E. discriminate.
      - apply Exists_exists in Hex. destruct Hex as [d [Hin Hd]].
        exists d. split; [exact Hin|]. destruct (is_target d); congruence. }
    split.
    { rewrite extract_from_soup_run, E. reflexivity. }
    split.
    { induction (find_next_siblings following) as [|s r IH];
        cbn [take_until]; [constructor|].
      destruct (stops_at s) eqn:Es; constructor; [|exact IH].
      destruct (spec_is_heading s) eqn:Eh; [|reflexivity].
      apply heading_stops in Eh. congruence. }
    intros Hagree. rewrite extract_from_soup_run, E.
    unfold code_section, spec_section.
    rewrite (take_until_agree _ _ _ Hagree). reflexivity.
  - intros html w0 E. unfold extract_training_section, lift.
    rewrite (bind_returns _ _ w0 w0 soup) by (rewrite E; reflexivity).
    reflexivity.
Qed.

Lemma extract_training_section_run_witness :
  extract_from_soup env_offline page_spec_example (world0 Absent)
  = (Returns (spec_section env_offline [elem "p" [txt "A"]; elem "h6" [txt "B"]]),
     world0 Absent).
Proof.
  refine (proj2 (proj2 (proj2 (proj2
    (proj1 (proj2 (extract_training_section_run env_offline page_spec_example
                     (world0 Absent)))
       (Tag (Py.lit "h5") [] [NavigableString TARGET_HEADING])
       [elem "p" [txt "A"]; elem "h6" [txt "B"]] _)))) _).
  - vm_compute. reflexivity.
  - vm_compute. repeat constructor.
Defined.

(** ** One iteration on a page that was fetched *)

Definition BASELINE_SET : event :=
  EvLog INFO
    (Py.lit "Erster Durchlauf - Baseline gesetzt, keine Benachrichtigung versendet")
    false.

(** The body of the update notification (lines 191-194). *)
Definition update_body (section : option Py.str) : Py.str :=
  Py.lit "Der Inhalt im Ausbildungsabschnitt hat sich geändert."
    ++ NL ++ NL ++ Py.lit "Aktueller Inhalt:" ++ NL ++ NL
    ++ Py.or_else section PLACEHOLDER.

Definition structure_note : Py.str * Py.str :=
  (SUBJECT_STRUCTURE, BODY_STRUCTURE).

Definition update_note (section : option Py.str) : Py.str * Py.str :=
  (SUBJECT_UPDATE, update_body section).

(** The notifications that the comparison calls for: none without prior
    full-page digest, otherwise one for each test that finds a
    difference. *)
Definition due_notes (mem : Memory) (fh sh : Py.str)
    (section : option Py.str) : list (Py.str * Py.str) :=
  match last_full_hash mem with
  | None => []
  | Some _ =>
    (if differs fh (last_full_hash mem) then [structure_note] else [])
    ++ (if differs sh (last_section_hash mem) then [update_note section]
        else [])
  end.

(** Lines 182-187 and lines 189-197: the two tests of the comparison. *)
Definition structure_step (env : Env) (cfg : Config) (mem : Memory)
    (fh : Py.str) : M unit :=
  if differs fh (last_full_hash mem) then
    log WARNING (Py.lit "⚠️ Strukturänderung auf der Seite erkannt!");;
    notify env cfg SUBJECT_STRUCTURE BODY_STRUCTURE
  else ret tt.

Definition update_step (env : Env) (cfg : Config) (mem : Memory)
    (sh : Py.str) (section : option Py.str) : M unit :=
  if differs sh (last_section_hash mem) then
    log INFO (Py.lit "✅ Änderung im Ausbildungsabschnitt erkannt!");;
    notify env cfg SUBJECT_UPDATE (update_body section)
  else log INFO (Py.lit "Keine Änderungen festgestellt").

(** The calls of [notify] that the comparison makes on the world [w]: the
    structure call when the first test finds a difference, and the update
    call when the second test is reached and finds one. *)
Definition notes_sent (env : Env) (cfg : Config) (mem : Memory)
    (fh sh : Py.str) (section : option Py.str) (w : World)
  : list (Py.str * Py.str) :=
  match last_full_hash mem with
  | None => []
  | Some _ =>
    (if differs fh (last_full_hash mem) then [structure_note] else [])
    ++ match fst (structure_step env cfg mem fh w) with
       | Returns _ =>
         if differs sh (last_section_hash mem) then [update_note section]
         else []
       | Raises _ => []
       end
  end.

Lemma try_keeps_after {A X} (f : World -> X) (body : M A)
    (cs : list ((exn -> bool) * (exn -> M A))) (w : World) :
  Forall (fun c => forall e, keeps f (snd c e)) cs ->
  f (snd (try_ body cs w)) = f (snd (body w)).
Proof.
  intros H. unfold try_. destruct (body w) as [[a|e] w1]; [reflexivity|].
  apply keeps_dispatch. exact H.
Qed.

Lemma notifications_of_kind (w w' : World) :
  obs_kind KNotify w' = obs_kind KNotify w ->
  notifications (trace w') = notifications (trace w).
Proof.
  intros H. rewrite notifications_filter, (notifications_filter (trace w)).
  f_equal. exact H.
Qed.

Lemma posts_of_kind (w w' : World) :
  obs_kind KPost w' = obs_kind KPost w -> posts (trace w') = posts (trace w).
Proof.
  intros H. rewrite posts_filter, (posts_filter (trace w)).
  f_equal. exact H.
Qed.

Section Iteration.
Variable env : Env.
Variable cfg : Config.

Lemma sleep_step_kinds k mem :
  apart k [KLog; KSleep] = true -> keeps (obs_kind k) (sleep_step env cfg mem).
Proof. intros H. by_kind k H; unfold sleep_step, time_sleep; frame. Qed.

(** The sleep step changes neither the notifications nor the file. *)
Lemma cycle_after_guarded {X} (f : World -> X) (mem : Memory) (w : World) :
  (forall m, keeps f (sleep_step env cfg m)) ->
  f (snd (cycle env cfg mem w)) = f (snd (guarded_body env cfg mem w)).
Proof.
  intros H.
  destruct (safe_returns (guarded_body env cfg mem) w
              (guarded_body_safe env cfg mem)) as [m1 E].
  rewrite (cycle_unfold env cfg _ _ _ _ E). apply H.
Qed.

Lemma handlers_keep k (mem : Memory) :
  apart k [KLog] = true ->
  Forall (fun c : (exn -> bool) * (exn -> M Memory) =>
            forall e, keeps (obs_kind k) (snd c e))
    [except is_RequestException (fun e =>
       log ERROR (Py.lit "Fehler beim Abrufen der Webseite: " ++ exn_str e);;
       ret mem);
     except is_Exception (fun e =>
       emit (EvLog ERROR (Py.lit "Unerwarteter Fehler: " ++ exn_str e) true);;
       ret mem)].
Proof.
  intros H. by_kind k H; repeat constructor; intros e; cbn [snd except]; frame.
Qed.

(** The run of the [try] body up to the comparison, on a page that was
    fetched, parsed and hashed. *)
Lemma try_body_fetched (mem : Memory) (w w1 w2 : World)
    (html fh sh : Py.str) (section : option Py.str) :
  fetch_page env (with_event CHECKING w) = (Returns html, w1) ->
  get_hash (Some html) = Returns fh ->
  extract_training_section env html w1 = (Returns section, w2) ->
  get_hash section = Returns sh ->
  try_body env cfg mem w
  = (compare_and_notify env cfg mem fh sh section;;
     save_hashes env fh sh;;
     ret (mkMemory (Some fh) (Some sh))) w2.
Proof.
  intros Hf Hfh He Hsh. unfold try_body.
  rewrite (bind_returns _ _ w (with_event CHECKING w) tt) by reflexivity.
  rewrite (bind_returns _ _ _ _ _ Hf).
  rewrite (bind_returns _ _ w1 w1 fh) by (unfold lift; rewrite Hfh; reflexivity).
  rewrite (bind_returns _ _ _ _ _ He).
  rewrite (bind_returns _ _ w2 w2 sh) by (unfold lift; rewrite Hsh; reflexivity).
  reflexivity.
Qed.

Lemma fetched_quiet (k : kind) (w w1 w2 : World)
    (html : Py.str) (section : option Py.str) :
  apart k [KLog; KGet] = true ->
  fetch_page env (with_event CHECKING w) = (Returns html, w1) ->
  extract_training_section env html w1 = (Returns section, w2) ->
  obs_kind k w2 = obs_kind k w.
Proof.
  intros H Hf He.
  pose proof (extract_kinds env k html) as K2.
  pose proof (fetch_page_kinds env k) as K1.
  by_kind k H;
    (specialize (K2 eq_refl w1); rewrite He in K2; cbn [snd] in K2;
     rewrite K2;
     specialize (K1 eq_refl (with_event CHECKING w)); rewrite Hf in K1;
     cbn [snd] in K1; exact K1).
Qed.

Lemma compare_steps (mem : Memory) (fh sh pf : Py.str)
    (section : option Py.str) :
  last_full_hash mem = Some pf ->
  compare_and_notify env cfg mem fh sh section
  = (structure_step env cfg mem fh;; update_step env cfg mem sh section).
Proof.
  intros E.
  unfold compare_and_notify, structure_step, update_step, update_body.
  rewrite E. reflexivity.
Qed.

(** The comparison, whatever its calls of [notify] do.  [f] observes the
    trace, ignores log lines and grows by [g subject body] at a call of
    [notify]. *)
Lemma compare_observed {X} (f : list event -> list X)
    (g : Py.str -> Py.str -> list X)
    (mem : Memory) (fh sh : Py.str) (section : option Py.str) (w : World) :
  (forall lvl msg info t, f (EvLog lvl msg info :: t) = f t) ->
  (forall s b w0,
      f (trace (snd (notify env cfg s b w0))) = f (trace w0) ++ g s b) ->
  f (trace (snd (compare_and_notify env cfg mem fh sh section w)))
  = f (trace w)
    ++ flat_map (fun n => g (fst n) (snd n))
         (notes_sent env cfg mem fh sh section w).
Proof.
  intros Hlog Hnotify. unfold notes_sent.
  destruct (last_full_hash mem) as [pf|] eqn:Epf.
  - rewrite (compare_steps mem fh sh pf section Epf). rewrite <- Epf.
    assert (N1 : f (trace (snd (structure_step env cfg mem fh w)))
                 = f (trace w)
                   ++ flat_map (fun n => g (fst n) (snd n))
                        (if differs fh (last_full_hash mem)
                         then [structure_note] else [])).
    { unfold structure_step. destruct (differs fh (last_full_hash mem)).
      - rewrite (bind_returns _ _ w
                   (with_event (EvLog WARNING
                      (Py.lit "⚠️ Strukturänderung auf der Seite erkannt!") false) w)
                   tt) by reflexivity.
        rewrite Hnotify. cbn [with_event trace flat_map structure_note fst snd].
        rewrite Hlog, app_nil_r. reflexivity.
      - cbn [ret snd flat_map]. rewrite app_nil_r. reflexivity. }
    unfold bind at 1.
    destruct (structure_step env cfg mem fh w) as [[u|e] w1];
      cbn [fst snd] in *.
    + rewrite flat_map_app, app_assoc, <- N1. unfold update_step.
      destruct (differs sh (last_section_hash mem)).
      * rewrite (bind_returns _ _ w1
                   (with_event (EvLog INFO
                      (Py.lit "✅ Änderung im Ausbildungsabschnitt erkannt!") false)
                      w1)
                   tt) by reflexivity.
        rewrite Hnotify. cbn [with_event trace flat_map update_note fst snd].
        rewrite Hlog, app_nil_r. reflexivity.
      * cbn [log emit snd trace flat_map]. rewrite Hlog, app_nil_r.
        reflexivity.
    + rewrite app_nil_r. exact N1.
  - unfold compare_and_notify. rewrite Epf. cbn [log emit snd trace flat_map].
    rewrite Hlog, app_nil_r. reflexivity.
Qed.

(** When the comparison returns, both tests ran. *)
Lemma notes_sent_returns (mem : Memory) (fh sh : Py.str)
    (section : option Py.str) (w : World) :
  fst (compare_and_notify env cfg mem fh sh section w) = Returns tt ->
  notes_sent env cfg mem fh sh section w = due_notes mem fh sh section.
Proof.
  unfold notes_sent, due_notes.
  destruct (last_full_hash mem) as [pf|] eqn:Epf; [|reflexivity].
  rewrite (compare_steps mem fh sh pf section Epf). unfold bind at 1.
  destruct (structure_step env cfg mem fh w) as [[u|e] w1]; cbn [fst];
    [reflexivity | discriminate].
Qed.

(** The calls made are the first of the calls that are due. *)
Lemma notes_sent_prefix (mem : Memory) (fh sh : Py.str)
    (section : option Py.str) (w : World) :
  exists rest,
    due_notes mem fh sh section
    = notes_sent env cfg mem fh sh section w ++ rest.
Proof.
  unfold notes_sent, due_notes.
  destruct (last_full_hash mem) as [pf|]; [|exists []; reflexivity].
  destruct (fst (structure_step env cfg mem fh w)).
  - exists []. rewrite app_nil_r. reflexivity.
  - exists (if differs sh (last_section_hash mem) then [update_note section]
            else []).
    rewrite app_nil_r. reflexivity.
Qed.

(** What the comparison raises left a call of [notify]. *)
Lemma compare_raises (mem : Memory) (fh sh : Py.str)
    (section : option Py.str) (w w' : World) (e : exn) :
  compare_and_notify env cfg mem fh sh section w = (Raises e, w') ->
  mail_configured cfg = true
  /\ put_headers env (brevo_headers cfg) = Some e
  /\ is_RequestException e = false.
Proof.
  intros H.
  destruct (mail_configured cfg) eqn:Em.
  - destruct (put_headers env (brevo_headers cfg)) as [e'|] eqn:Eh.
    + assert (T : forall s b, throws (fun x => x = e' /\ is_RequestException x = false)
                               (notify env cfg s b)).
      { intros s b w0 x Hx.
        destruct (notify_steps env cfg s b w0) as [t [w1 [_ E]]].
        rewrite E in Hx.
        destruct (send_mail env cfg s b w1) as [[m|x'] w2] eqn:Es;
          cbn [fst] in Hx; [discriminate|].
        injection Hx as <-.
        destruct (send_mail_raises env cfg s b w1 x') as [_ [P R]];
          [rewrite Es; reflexivity|].
        rewrite Eh in P. injection P as ->. split; [reflexivity | exact R]. }
      assert (C : throws (fun x => x = e' /\ is_RequestException x = false)
                         (compare_and_notify env cfg mem fh sh section)).
      { unfold compare_and_notify. escape; apply T. }
      destruct (C w e) as [-> R]; [rewrite H; reflexivity|].
      repeat split. exact R.
    + exfalso.
      apply (compare_and_notify_safe env cfg mem fh sh section
               (fun _ => Eh) w e).
      rewrite H. reflexivity.
  - exfalso.
    apply (compare_and_notify_safe env cfg mem fh sh section) with (w := w) (e := e).
    + intros C. rewrite Em in C. discriminate C.
    + rewrite H. reflexivity.
Qed.

(** The comparison in steady state, when it returns: the two tests, one
    after the other. *)
Lemma compare_steady_observed {X} (f : list event -> list X)
    (g : Py.str -> Py.str -> list X)
    (mem : Memory) (fh sh pf ps : Py.str)
    (section : option Py.str) (w : World) :
  (forall lvl msg info t, f (EvLog lvl msg info :: t) = f t) ->
  (forall s b w0,
      f (trace (snd (notify env cfg s b w0))) = f (trace w0) ++ g s b) ->
  last_full_hash mem = Some pf ->
  last_section_hash mem = Some ps ->
  fst (compare_and_notify env cfg mem fh sh section w) = Returns tt ->
  f (trace (snd (compare_and_notify env cfg mem fh sh section w)))
  = f (trace w)
    ++ (if Py.eqb fh pf then [] else g SUBJECT_STRUCTURE BODY_STRUCTURE)
    ++ (if Py.eqb sh ps then [] else g SUBJECT_UPDATE (update_body section)).
Proof.
  intros Hlog Hnotify Hpf Hps Hr.
  rewrite (compare_observed f g mem fh sh section w Hlog Hnotify).
  rewrite (notes_sent_returns mem fh sh section w Hr).
  unfold due_notes, differs. rewrite Hpf, Hps.
  unfold structure_note, update_note.
  destruct (Py.eqb fh pf); destruct (Py.eqb sh ps);
    cbn [negb app flat_map fst snd]; rewrite ?app_nil_r; reflexivity.
Qed.

(** What one iteration adds to an observation of the trace that only calls
    of [notify] change, on a page that was fetched, parsed and hashed. *)
Lemma cycle_fetched_observed {X} (k : kind) (f : list event -> list X)
    (g : Py.str -> Py.str -> list X)
    (mem : Memory) (w w1 w2 : World) (html fh sh : Py.str)
    (section : option Py.str) :
  apart k [KLog; KGet; KSleep] = true ->
  (forall t, f t = f (filter (fun e => kind_eqb (kind_of e) k) t)) ->
  (forall s b w0,
      f (trace (snd (notify env cfg s b w0))) = f (trace w0) ++ g s b) ->
  fetch_page env (with_event CHECKING w) = (Returns html, w1) ->
  get_hash (Some html) = Returns fh ->
  extract_training_section env html w1 = (Returns section, w2) ->
  get_hash section = Returns sh ->
  f (trace (snd (cycle env cfg mem w)))
  = f (trace w)
    ++ flat_map (fun n => g (fst n) (snd n))
         (notes_sent env cfg mem fh sh section w2).
Proof.
  intros Hk Hfilter Hnotify Hf Hfh He Hsh.
  assert (Hkeep : forall (w' w'' : World),
             obs_kind k w'' = obs_kind k w' -> f (trace w'') = f (trace w')).
  { intros w' w'' H. rewrite Hfilter, (Hfilter (trace w')). f_equal. exact H. }
  assert (Hlog : forall lvl msg info t, f (EvLog lvl msg info :: t) = f t).
  { intros lvl msg info t. rewrite Hfilter, (Hfilter t).
    clear - Hk. destruct k; try discriminate Hk; reflexivity. }
  assert (K1 : apart k [KLog; KSleep] = true)
    by (clear - Hk; destruct k; try discriminate Hk; reflexivity).
  assert (K2 : apart k [KLog] = true)
    by (clear - Hk; destruct k; try discriminate Hk; reflexivity).
  assert (K3 : apart k [KLog; KGet] = true)
    by (clear - Hk; destruct k; try discriminate Hk; reflexivity).
  rewrite (cycle_after_guarded (fun w => f (trace w)))
    by (intros m w'; apply Hkeep; apply (sleep_step_kinds k m K1)).
  unfold guarded_body.
  rewrite (try_keeps_after (fun w => f (trace w)))
    by (pose proof (handlers_keep k mem K2) as H;
        eapply Forall_impl; [|exact H];
        intros c Hc e w'; apply Hkeep; apply Hc).
  rewrite (try_body_fetched mem w w1 w2 html fh sh section Hf Hfh He Hsh).
  rewrite <- (Hkeep w w2 (fetched_quiet k w w1 w2 html section K3 Hf He)).
  rewrite <- (compare_observed f g mem fh sh section w2 Hlog Hnotify).
  unfold bind at 1.
  destruct (compare_and_notify env cfg mem fh sh section w2) as [[u|e] w3];
    cbn [snd]; [|reflexivity].
  apply (Hkeep w3). 
  apply (keeps_bind (obs_kind k)); [apply save_hashes_kinds; exact K2
                                   | intros; apply keeps_ret].
Qed.

Lemma cycle_steady_observed {X} (k : kind) (f : list event -> list X)
    (g : Py.str -> Py.str -> list X)
    (mem : Memory) (w w1 w2 : World) (html fh sh pf ps : Py.str)
    (section : option Py.str) :
  apart k [KLog; KGet; KSleep] = true ->
  (forall t, f t = f (filter (fun e => kind_eqb (kind_of e) k) t)) ->
  (forall s b w0,
      f (trace (snd (notify env cfg s b w0))) = f (trace w0) ++ g s b) ->
  last_full_hash mem = Some pf ->
  last_section_hash mem = Some ps ->
  fetch_page env (with_event CHECKING w) = (Returns html, w1) ->
  get_hash (Some html) = Returns fh ->
  extract_training_section env html w1 = (Returns section, w2) ->
  get_hash section = Returns sh ->
  fst (compare_and_notify env cfg mem fh sh section w2) = Returns tt ->
  f (trace (snd (cycle env cfg mem w)))
  = f (trace w)
    ++ (if Py.eqb fh pf then [] else g SUBJECT_STRUCTURE BODY_STRUCTURE)
    ++ (if Py.eqb sh ps then [] else g SUBJECT_UPDATE (update_body section)).
Proof.
  intros Hk Hfilter Hnotify Hpf Hps Hf Hfh He Hsh Hr.
  rewrite (cycle_fetched_observed k f g mem w w1 w2 html fh sh section
             Hk Hfilter Hnotify Hf Hfh He Hsh).
  rewrite (notes_sent_returns mem fh sh section w2 Hr).
  unfold due_notes, differs. rewrite Hpf, Hps.
  unfold structure_note, update_note.
  destruct (Py.eqb fh pf); destruct (Py.eqb sh ps);
    cbn [negb app flat_map fst snd]; rewrite ?app_nil_r; reflexivity.
Qed.

End Iteration.

Lemma notes_differ (section : option Py.str) :
  structure_note <> update_note section.
Proof.
  unfold structure_note, update_note. intros H.
  assert (E : Py.eqb SUBJECT_STRUCTURE SUBJECT_UPDATE = true)
    by (apply eqb_eq; congruence).
  vm_compute in E. discriminate E.
Qed.

Lemma eqb_neq (a b : Py.str) : Py.eqb a b = false <-> a <> b.
Proof. rewrite <- not_true_iff_false, eqb_eq. tauto. Qed.

(** The notifications of two independent tests. *)
Lemma sent_cases {T} (a b : bool) (x y : T) :
  x <> y ->
  (In x ((if a then [] else [x]) ++ (if b then [] else [y])) <-> a = false)
  /\ (In y ((if a then [] else [x]) ++ (if b then [] else [y])) <-> b = false)
  /\ (a = true -> b = false ->
      (if a then [] else [x]) ++ (if b then [] else [y]) = [y])
  /\ (a = false -> b = false ->
      (if a then [] else [x]) ++ (if b then [] else [y]) = [x; y]).
Proof.
  intros D. destruct a, b; cbn [app In];
    repeat split; try discriminate; try tauto; try reflexivity;
    intros H; repeat (destruct H as [H|H]); try congruence; try contradiction;
    exfalso; apply D; congruence.
Qed.

(** A page that serves the example of the specification, and the same page
    with a changed paragraph in the section. *)
Definition html_1 : Py.str :=
  Py.lit "<h5>Kurzfristig zu besetzende Ausbildungsplätze:</h5><p>A</p><h6>B</h6>".

Definition html_2 : Py.str :=
  Py.lit "<h5>Kurzfristig zu besetzende Ausbildungsplätze:</h5><p>Z</p><h6>B</h6>".

Definition page_changed : PageElement :=
  document [Tag (Py.lit "h5") [] [NavigableString TARGET_HEADING];
            elem "p" [txt "Z"]; elem "h6" [txt "B"]].

(** The server answers 200 with [html]; the parser knows the two pages; the
    disk works; the notification services answer 200. *)
Definition env_serving (html : Py.str) : Env :=
  mkEnv (fun _ url => inl (mkResponse 200 (Py.lit "OK") url html))
        (fun _ url _ => inl (mkResponse 200 (Py.lit "OK") url []))
        latin1_fault clock_fault
        (fun _ => None)
        (fun h => if Py.eqb h html_1 then Returns page_spec_example
                  else if Py.eqb h html_2 then Returns page_changed
                  else Raises (OtherException (Py.lit "unknown page")))
        simple_markup.

(** The digest of a text that has one. *)
Definition hash_of (s : Py.str) : Py.str :=
  match get_hash (Some s) with
  | Returns d => d
  | Raises _ => []
  end.




Lemma cycle_baseline_kinds (env : Env) (cfg : Config) (k : kind) (mem : Memory) :
  last_full_hash mem = None ->
  apart k [KLog; KGet; KSleep] = true ->
  keeps (obs_kind k) (cycle env cfg mem).
Proof.
  intros E H. unfold cycle.
  pose proof (guarded_body_baseline_kinds env cfg k mem E) as G.
  by_kind k H; specialize (G eq_refl); unfold time_sleep; frame.
Qed.

(** C2. On the first run, when the state file is absent, unreadable or
    does not have two lines, [main] enters its loop with the pair
    (None, None) and has sent nothing.  The first iteration then calls
    [notify] not once and posts nothing, whatever the network, the page and
    the disk do.  When the page was fetched, parsed and hashed and the save
    returned, the state file holds exactly the new full-page digest, a
    newline, the new section digest and a newline; the in-memory pair is
    these two digests; and a load of the file gives the same pair. *)
Theorem first_run_sets_baseline :
  forall env cfg w0 mem w,
    no_state_file (hash_file w0) ->
    main_start cfg w0 = (Returns mem, w) ->
    mem = mkMemory None None
    /\ notifications (trace w) = notifications (trace w0)
    /\ posts (trace w) = posts (trace w0)
    /\ notifications (trace (snd (cycle env cfg mem w))) = notifications (trace w)
    /\ posts (trace (snd (cycle env cfg mem w))) = posts (trace w)
    /\ (forall html w1 section w2 fh sh w3,
           fetch_page env (with_event CHECKING w) = (Returns html, w1) ->
           get_hash (Some html) = Returns fh ->
           extract_training_section env html w1 = (Returns section, w2) ->
           get_hash section = Returns sh ->
           save_hashes env fh sh (with_event BASELINE_SET w2) = (Returns tt, w3) ->
           guarded_body env cfg mem w
           = (Returns (mkMemory (Some fh) (Some sh)), w3)
           /\ cycle env cfg mem w
              = sleep_step env cfg (mkMemory (Some fh) (Some sh)) w3
           /\ hash_file w3 = Content (fh ++ NL ++ sh ++ NL)
           /\ exists w4,
               load_hashes w3 = (Returns (Some fh, Some sh), w4)
               /\ hash_file w4 = hash_file w3).
Proof.
  intros env cfg w0 mem w Hno Hstart.
  destruct (main_start_run cfg w0) as [logs [E Hlogs]].
  rewrite E in Hstart. apply stored_pair_none in Hno. rewrite Hno in Hstart.
  cbn [fst snd] in Hstart. inversion Hstart as [[Hmem Hw]]. clear Hstart.
  assert (Hn : forall t, notifications (logs ++ t) = notifications t).
  { clear - Hlogs. induction logs as [|e l IH]; intros t; [reflexivity|].
    cbn [forallb] in Hlogs. apply andb_true_iff in Hlogs.
    destruct Hlogs as [He Hl]. destruct e; try discriminate He.
    cbn [app notifications]. apply IH. exact Hl. }
  assert (Hp : forall t, posts (logs ++ t) = posts t).
  { clear - Hlogs. induction logs as [|e l IH]; intros t; [reflexivity|].
    cbn [forallb] in Hlogs. apply andb_true_iff in Hlogs.
    destruct Hlogs as [He Hl]. destruct e; try discriminate He.
    cbn [app posts]. apply IH. exact Hl. }
  split; [reflexivity|].
  split; [cbn [trace]; apply Hn|].
  split; [cbn [trace]; apply Hp|].
  set (w' := mkWorld (clock w0) (hash_file w0) (logs ++ trace w0)).
  set (mem0 := mkMemory None None).
  split.
  { apply notifications_of_kind.
    apply (cycle_baseline_kinds env cfg KNotify mem0 eq_refl eq_refl). }
  split.
  { apply posts_of_kind.
    apply (cycle_baseline_kinds env cfg KPost mem0 eq_refl eq_refl). }
  intros html w1 section w2 fh sh w3 Hf Hfh He Hsh Hsave.
  assert (Hg : guarded_body env cfg mem0 w'
               = (Returns (mkMemory (Some fh) (Some sh)), w3)).
  { unfold guarded_body. apply try_returns.
    rewrite (try_body_fetched env cfg mem0 w' w1 w2 html fh sh section
               Hf Hfh He Hsh).
    rewrite (bind_returns _ _ w2 (with_event BASELINE_SET w2) tt)
      by reflexivity.
    rewrite (bind_returns _ _ _ _ _ Hsave). reflexivity. }
  split; [exact Hg|].
  split; [apply cycle_unfold; exact Hg|].
  pose proof (save_hashes_returns env fh sh _ _ Hsave) as Hfile.
  split; [exact Hfile|].
  destruct (load_hashes_run w3) as [l3 [E3 _]].
  exists (mkWorld (clock w3) (hash_file w3) (l3 ++ trace w3)).
  split; [|reflexivity]. rewrite E3. f_equal. f_equal.
  rewrite Hfile.
  apply (stored_pair_complete fh sh (get_hash_one_line _ _ Hfh)
           (get_hash_one_line _ _ Hsh)).
Qed.

(** The first run on the example page of the specification, without state
    file: the baseline is written and nothing is sent. *)
Lemma first_run_sets_baseline_witness :
  exists w3,
    guarded_body (env_serving html_1) cfg_both (mkMemory None None)
      (snd (main_start cfg_both (world0 Absent)))
    = (Returns (mkMemory (Some (hash_of html_1))
                         (Some (hash_of (Py.lit "<p>A</p>")))), w3)
    /\ hash_file w3
       = Content (hash_of html_1 ++ NL ++ hash_of (Py.lit "<p>A</p>") ++ NL)
    /\ notifications (trace w3) = []
    /\ posts (trace w3) = [].
Proof.
  pose (env := env_serving html_1).
  pose (w := snd (main_start cfg_both (world0 Absent))).
  pose (w1 := snd (fetch_page env (with_event CHECKING w))).
  pose (w3 := snd (save_hashes env (hash_of html_1)
                     (hash_of (Py.lit "<p>A</p>"))
                     (with_event BASELINE_SET w1))).
  destruct (first_run_sets_baseline env cfg_both (world0 Absent)
              (mkMemory None None) w I) as [_ [_ [_ [_ [_ H]]]]].
  - vm_compute. reflexivity.
  - destruct (H html_1 w1 (Some (Py.lit "<p>A</p>")) w1
                (hash_of html_1) (hash_of (Py.lit "<p>A</p>")) w3)
      as [G [_ [F _]]].
    + vm_compute. reflexivity.
    + vm_compute. reflexivity.
    + vm_compute. reflexivity.
    + vm_compute. reflexivity.
    + vm_compute. reflexivity.
    + exists w3. split; [exact G|]. split; [exact F|].
      split; vm_compute; reflexivity.
Defined.

(** A start on a state file of one line, then one iteration on the example
    page: the loop is in steady state with both digests. *)
Lemma load_hashes_pair_is_whole_witness :
  exists prior,
    last_section_hash
      (mkMemory (Some (hash_of html_1)) (Some (hash_of (Py.lit "<p>A</p>"))))
    = Some prior
    /\ differs (hash_of (Py.lit "<p>Z</p>"))
         (last_section_hash
            (mkMemory (Some (hash_of html_1))
                      (Some (hash_of (Py.lit "<p>A</p>")))))
       = negb (Py.eqb (hash_of (Py.lit "<p>Z</p>")) prior).
Proof.
  apply (proj2 (proj2 load_hashes_pair_is_whole)
           (env_serving html_1) cfg_both 1%nat
           (world0 (Content (Py.lit "only one line")))
           (mkMemory (Some (hash_of html_1)) (Some (hash_of (Py.lit "<p>A</p>"))))
           (snd (main (env_serving html_1) cfg_both 1
                   (world0 (Content (Py.lit "only one line")))))).
  - vm_compute. reflexivity.
  - discriminate.
Defined.

(* ================================================================== *)
(** * Further properties of listener.py *)
(* ================================================================== *)

(** ** Trimming and splitting *)

Lemma lstrip_split (s : Py.str) :
  exists sp, s = sp ++ Py.lstrip s /\ Forall (fun c => Py.isspace c = true) sp.
Proof.
  induction s as [|c s [sp [E H]]]; cbn [Py.lstrip].
  - exists []. split; [reflexivity | constructor].
  - destruct (Py.isspace c) eqn:Ec.
    + exists (c :: sp). split; [cbn [app]; f_equal; exact E|].
      constructor; assumption.
    + exists []. split; [reflexivity | constructor].
Qed.

(** A string is left-trimmed when it is empty or starts with a character
    that is no white space. *)
Definition starts_clean (s : Py.str) : Prop :=
  match s with
  | [] => True
  | c :: _ => Py.isspace c = false
  end.

Lemma lstrip_starts_clean (s : Py.str) : starts_clean (Py.lstrip s).
Proof.
  induction s as [|c s IH]; cbn [Py.lstrip]; [exact I|].
  destruct (Py.isspace c) eqn:Ec; [exact IH | exact Ec].
Qed.

Lemma lstrip_fixed (s : Py.str) : starts_clean s -> Py.lstrip s = s.
Proof.
  destruct s as [|c s]; cbn [starts_clean Py.lstrip]; [reflexivity|].
  intros ->. reflexivity.
Qed.

Lemma rstrip_split (s : Py.str) :
  exists sp, s = Py.rstrip s ++ sp /\ Forall (fun c => Py.isspace c = true) sp.
Proof.
  unfold Py.rstrip. destruct (lstrip_split (rev s)) as [sp [E H]].
  exists (rev sp). split.
  - rewrite <- rev_app_distr, <- E, rev_involutive. reflexivity.
  - apply Forall_rev. exact H.
Qed.

Lemma rstrip_fixed (s : Py.str) : starts_clean (rev s) -> Py.rstrip s = s.
Proof.
  intros H. unfold Py.rstrip. rewrite lstrip_fixed by exact H.
  apply rev_involutive.
Qed.

Lemma rstrip_ends_clean (s : Py.str) : starts_clean (rev (Py.rstrip s)).
Proof.
  unfold Py.rstrip. rewrite rev_involutive. apply lstrip_starts_clean.
Qed.

Lemma rstrip_keeps_start (s : Py.str) :
  starts_clean s -> starts_clean (Py.rstrip s).
Proof.
  intros H. destruct (rstrip_split s) as [sp [E _]].
  destruct (Py.rstrip s) as [|c r]; [exact I|].
  rewrite E in H. exact H.
Qed.

(** [strip] leaves a string that is clean at both ends, and such a string
    is left as it is. *)
Lemma strip_clean (s : Py.str) :
  starts_clean (Py.strip s) /\ starts_clean (rev (Py.strip s)).
Proof.
  unfold Py.strip. split.
  - apply rstrip_keeps_start, lstrip_starts_clean.
  - apply rstrip_ends_clean.
Qed.

Lemma strip_fixed (s : Py.str) :
  starts_clean s -> starts_clean (rev s) -> Py.strip s = s.
Proof.
  intros H1 H2. unfold Py.strip. rewrite (lstrip_fixed s H1).
  apply rstrip_fixed. exact H2.
Qed.

Lemma strip_idempotent (s : Py.str) : Py.strip (Py.strip s) = Py.strip s.
Proof. apply strip_fixed; apply strip_clean. Qed.

(** What [strip] removes is white space. *)
Lemma strip_split (s : Py.str) :
  exists left right,
    s = left ++ Py.strip s ++ right
    /\ Forall (fun c => Py.isspace c = true) left
    /\ Forall (fun c => Py.isspace c = true) right.
Proof.
  destruct (lstrip_split s) as [l [El Hl]].
  destruct (rstrip_split (Py.lstrip s)) as [r [Er Hr]].
  exists l, r. split; [|split; assumption].
  unfold Py.strip. rewrite <- Er. exact El.
Qed.

(** The section that the extractor returns is never empty and has no white
    space at its ends. *)
Definition is_section (o : option Py.str) : Prop :=
  match o with
  | None => True
  | Some s => s <> [] /\ Py.strip s = s
  end.

Lemma code_section_is_section (env : Env) (following : list PageElement) :
  is_section (code_section env following).
Proof.
  unfold code_section.
  set (joined := Py.join NL (map (element_str env)
                               (take_until stops_at
                                  (find_next_siblings following)))).
  pose proof (strip_idempotent joined) as H.
  destruct (Py.strip joined) as [|c r]; [exact I|].
  split; [discriminate | exact H].
Qed.

(** X1. Whatever the page, a section that the extractor returns is never
    the empty string and has no white space at either end; so the update
    notification shows the placeholder exactly for the absent section and
    the markup itself otherwise, and the absent section hashes to the digest
    of the empty string. *)
Theorem extracted_section_is_trimmed :
  forall env html w section w',
    extract_training_section env html w = (Returns section, w') ->
    is_section section
    /\ Py.or_else section PLACEHOLDER
       = match section with Some s => s | None => PLACEHOLDER end
    /\ (section = None -> get_hash section = Returns EMPTY_DIGEST).
Proof.
  intros env html w section w' H.
  assert (S : is_section section).
  { unfold extract_training_section, lift, bind in H.
    destruct (BeautifulSoup env html) as [soup|e]; [|discriminate H].
    rewrite extract_from_soup_run in H.
    destruct (find soup) as [[header following]|]; inversion H; subst.
    - apply code_section_is_section.
    - exact I. }
  split; [exact S|]. split.
  - destruct section as [[|c r]|]; try reflexivity.
    destruct S as [S _]. contradiction S. reflexivity.
  - intros ->. unfold get_hash. cbn [Py.or_else Py.encode_utf8].
    rewrite sha256_empty. reflexivity.
Qed.

Lemma extracted_section_is_trimmed_witness :
  is_section (Some (Py.lit "<p>A</p>"))
  /\ Py.or_else (Some (Py.lit "<p>A</p>")) PLACEHOLDER = Py.lit "<p>A</p>".
Proof.
  destruct (extracted_section_is_trimmed (env_serving html_1) html_1
              (world0 Absent) (Some (Py.lit "<p>A</p>")) (world0 Absent))
    as [H1 [H2 _]].
  - vm_compute. reflexivity.
  - split; [exact H1 | exact H2].
Defined.

(** ** The recipients of the e-mail *)

Lemma split_from_not_nil (sep : Z) (cur s : Py.str) :
  Py.split_from sep cur s <> [].
Proof. revert cur. induction s as [|c s IH]; intros cur; cbn [Py.split_from];
  [discriminate|]. destruct (c =? sep); [discriminate | apply IH]. Qed.

Lemma split_from_length (sep : Z) (cur s : Py.str) :
  List.length (Py.split_from sep cur s) = S (count_occ Z.eq_dec s sep).
Proof.
  revert cur. induction s as [|c s IH]; intros cur;
    cbn [Py.split_from count_occ]; [reflexivity|].
  destruct (Z.eqb_spec c sep) as [->|N].
  - destruct (Z.eq_dec sep sep) as [_|C]; [|contradiction C; reflexivity].
    cbn [List.length]. rewrite IH. reflexivity.
  - destruct (Z.eq_dec c sep) as [C|_]; [contradiction|]. apply IH.
Qed.

Lemma split_from_no_separator (sep : Z) (cur s : Py.str) :
  ~ In sep cur ->
  Forall (fun piece => ~ In sep piece) (Py.split_from sep cur s).
Proof.
  revert cur. induction s as [|c s IH]; intros cur H; cbn [Py.split_from].
  - constructor; [|constructor]. rewrite <- in_rev. exact H.
  - destruct (Z.eqb_spec c sep) as [->|N].
    + constructor; [rewrite <- in_rev; exact H|]. apply IH. intros [].
    + apply IH. intros [E|E]; [apply N; exact E | exact (H E)].
Qed.

Lemma join_split_from (sep : Z) (cur s : Py.str) :
  Py.join [sep] (Py.split_from sep cur s) = rev cur ++ s.
Proof.
  revert cur. induction s as [|c s IH]; intros cur; cbn [Py.split_from].
  - cbn [Py.join]. rewrite app_nil_r. reflexivity.
  - destruct (Z.eqb_spec c sep) as [->|N].
    + specialize (IH []). pose proof (split_from_not_nil sep [] s) as NN.
      destruct (Py.split_from sep [] s) as [|p ps]; [contradiction NN; reflexivity|].
      cbn [Py.join]. cbn [Py.join] in IH. rewrite IH. reflexivity.
    + rewrite IH. cbn [rev]. rewrite <- app_assoc. reflexivity.
Qed.

Lemma strip_keeps_out (x : Z) (s : Py.str) : ~ In x s -> ~ In x (Py.strip s).
Proof.
  intros H C. apply H. destruct (strip_split s) as [l [r [E _]]].
  rewrite E. apply in_or_app. right. apply in_or_app. left. exact C.
Qed.

(** The addresses of line 59. *)
Definition recipients (cfg : Config) : list Py.str :=
  map Py.strip (Py.split (opt_get (MAIL_TO cfg)) 44).

(** X2. The e-mail request names one recipient for each entry of the
    comma-separated MAIL_TO, empty entries included: as many as MAIL_TO has
    commas, plus one.  Each address is trimmed and holds no comma, and the
    entries joined by commas are MAIL_TO itself: no character of it is
    lost or shared between two addresses.  This list is the "to" field of the
    request that a configured e-mail channel posts. *)
Theorem mail_recipients :
  forall env cfg subject body w,
    List.length (recipients cfg)
    = S (count_occ Z.eq_dec (opt_get (MAIL_TO cfg)) 44)
    /\ Forall (fun a => Py.strip a = a /\ ~ In 44 a) (recipients cfg)
    /\ Py.join [44] (Py.split (opt_get (MAIL_TO cfg)) 44) = opt_get (MAIL_TO cfg)
    /\ (mail_configured cfg = true ->
        posts (trace (snd (send_mail env cfg subject body w)))
        = posts (trace w)
          ++ [(BREVO_URL,
               JObject
                 [(Py.lit "sender",
                   JObject [(Py.lit "name", JString (FROM_NAME cfg));
                            (Py.lit "email", JString (opt_get (FROM_EMAIL cfg)))]);
                  (Py.lit "to",
                   JArray (map (fun a => JObject [(Py.lit "email", JString a)])
                               (recipients cfg)));
                  (Py.lit "subject", JString subject);
                  (Py.lit "textContent", JString body)])]).
Proof.
  intros env cfg subject body w. unfold recipients, Py.split.
  split; [rewrite length_map; apply split_from_length|].
  split.
  { apply Forall_forall. intros a Ha. apply in_map_iff in Ha.
    destruct Ha as [p [<- Hp]]. split; [apply strip_idempotent|].
    apply strip_keeps_out.
    pose proof (split_from_no_separator 44 [] (opt_get (MAIL_TO cfg))
                  (fun F => F)) as H.
    rewrite Forall_forall in H. apply H. exact Hp. }
  split; [apply join_split_from|].
  intros Hc. rewrite send_mail_posts, Hc. unfold mail_request, Py.split.
  rewrite map_map. reflexivity.
Qed.

Lemma mail_recipients_witness :
  recipients cfg_both = [Py.lit "a@example.org"; Py.lit "b@example.org"]
  /\ List.length (recipients cfg_both) = 2%nat.
Proof.
  split; [vm_compute; reflexivity|].
  exact (proj1 (mail_recipients env_offline cfg_both [] [] (world0 Absent))).
Defined.

(** ** The line endings that load_hashes accepts *)

(** A line terminator: one line-boundary character, or carriage return and
    line feed together. *)
Definition terminator (t : Py.str) : Prop :=
  (exists c, t = [c] /\ Py.is_linebreak c = true) \/ t = [13; 10].

(** The text does not begin with a line feed. *)
Definition no_lf_first (s : Py.str) : Prop :=
  match s with
  | c :: _ => c <> 10
  | [] => True
  end.

Lemma splitlines_from_terminator (cur t rest : Py.str) :
  terminator t -> no_lf_first rest ->
  Py.splitlines_from cur (t ++ rest) = rev cur :: Py.splitlines_from [] rest.
Proof.
  intros [[c [-> Hc]]| ->] Hr.
  - cbn [app Py.splitlines_from]. rewrite Hc.
    destruct rest as [|c' r]; [reflexivity|].
    cbn [no_lf_first] in Hr. apply Z.eqb_neq in Hr. rewrite Hr, andb_false_r.
    reflexivity.
  - reflexivity.
Qed.

Lemma one_line_no_lf_first (b rest : Py.str) :
  one_line b -> b <> [] -> no_lf_first (b ++ rest).
Proof.
  intros Hb Hn. destruct b as [|c r]; [contradiction Hn; reflexivity|].
  cbn [app no_lf_first]. inversion Hb as [|? ? Hc _]; subst.
  intros ->. discriminate Hc.
Qed.

Lemma splitlines_last_line (b t : Py.str) :
  one_line b -> b <> [] -> t = [] \/ terminator t ->
  Py.splitlines_from [] (b ++ t) = [b].
Proof.
  intros Hb Hn [-> | Ht].
  - rewrite app_nil_r, splitlines_from_end by exact Hb.
    destruct b; [contradiction Hn; reflexivity | reflexivity].
  - rewrite splitlines_from_one_line by exact Hb.
    rewrite <- (app_nil_r t), splitlines_from_terminator by (exact Ht || exact I).
    rewrite app_nil_r, rev_involutive. reflexivity.
Qed.

(** X3. [load_hashes] reads the two lines whatever ends them: line feed,
    carriage return, both together or any other line boundary of
    [str.splitlines], and the terminator of the second line may be missing.
    A third line, even an empty one after the text of a complete save,
    makes the file count as no prior state. *)
Theorem load_hashes_line_endings :
  forall a b,
    one_line a -> one_line b ->
    (forall t1 t2 w,
        b <> [] -> terminator t1 -> t2 = [] \/ terminator t2 ->
        hash_file w = Content (a ++ t1 ++ b ++ t2) ->
        fst (load_hashes w) = Returns (Some a, Some b))
    /\ (forall extra w,
           one_line extra ->
           hash_file w = Content (saved_text a b ++ extra ++ NL) ->
           fst (load_hashes w) = Returns (None, None)).
Proof.
  intros a b Ha Hb. split.
  - intros t1 t2 w Hn H1 H2 Hw.
    destruct (load_hashes_run w) as [logs [-> _]]. cbn [fst]. rewrite Hw.
    unfold stored_pair, Py.splitlines.
    rewrite splitlines_from_one_line by exact Ha.
    rewrite splitlines_from_terminator
      by (try exact H1; apply one_line_no_lf_first; assumption).
    rewrite splitlines_last_line by assumption.
    rewrite app_nil_r, rev_involutive. reflexivity.
  - intros extra w He Hw.
    destruct (load_hashes_run w) as [logs [-> _]]. cbn [fst]. rewrite Hw.
    unfold stored_pair, Py.splitlines, saved_text.
    rewrite <- !app_assoc.
    rewrite splitlines_from_one_line, splitlines_from_newline by exact Ha.
    rewrite splitlines_from_one_line, splitlines_from_newline by exact Hb.
    rewrite splitlines_from_one_line by exact He.
    rewrite <- (app_nil_r NL), splitlines_from_newline.
    reflexivity.
Qed.

(** A state file with Windows line ends and without final newline. *)
Lemma load_hashes_line_endings_witness :
  fst (load_hashes
         (world0 (Content (digest_of "page 1" ++ [13; 10]
                             ++ digest_of "section 1" ++ []))))
  = Returns (Some (digest_of "page 1"), Some (digest_of "section 1")).
Proof.
  apply (proj1 (load_hashes_line_endings (digest_of "page 1")
                  (digest_of "section 1")
                  (hexdigest_one_line _) (hexdigest_one_line _))
           [13; 10] []).
  - vm_compute. discriminate.
  - right. reflexivity.
  - left. reflexivity.
  - reflexivity.
Defined.

(** ** What a completed iteration leaves, and what a failed save leaves *)

Lemma get_hash_length (content : option Py.str) (d : Py.str) :
  get_hash content = Returns d -> List.length d = 64%nat.
Proof.
  unfold get_hash. destruct (Py.encode_utf8 _); intros E; inversion E.
  apply hexdigest_length.
Qed.

Lemma eqb_length (a b : Py.str) :
  List.length a <> List.length b -> Py.eqb a b = false.
Proof.
  intros H. apply eqb_neq. intros ->. apply H. reflexivity.
Qed.

(** The steps that a returning [try] body went through. *)
Lemma try_body_returns (env : Env) (cfg : Config) (mem m1 : Memory)
    (w w' : World) :
  try_body env cfg mem w = (Returns m1, w') ->
  exists html w1 section w2 fh sh wc,
    fetch_page env (with_event CHECKING w) = (Returns html, w1)
    /\ get_hash (Some html) = Returns fh
    /\ extract_training_section env html w1 = (Returns section, w2)
    /\ get_hash section = Returns sh
    /\ compare_and_notify env cfg mem fh sh section w2 = (Returns tt, wc)
    /\ save_hashes env fh sh wc = (Returns tt, w')
    /\ m1 = mkMemory (Some fh) (Some sh).
Proof.
  intros H. unfold try_body in H.
  rewrite (bind_returns _ _ w (with_event CHECKING w) tt) in H by reflexivity.
  destruct (fetch_page env (with_event CHECKING w)) as [[html|e] w1] eqn:Ef;
    [rewrite (bind_returns _ _ _ _ _ Ef) in H
    |rewrite (bind_raises _ _ _ _ _ Ef) in H; discriminate H].
  destruct (get_hash (Some html)) as [fh|e] eqn:Efh;
    [rewrite (bind_returns _ _ w1 w1 fh) in H
       by reflexivity
    |rewrite (bind_raises _ _ w1 w1 e) in H
       by reflexivity; discriminate H].
  destruct (extract_training_section env html w1) as [[section|e] w2] eqn:Ee;
    [rewrite (bind_returns _ _ _ _ _ Ee) in H
    |rewrite (bind_raises _ _ _ _ _ Ee) in H; discriminate H].
  destruct (get_hash section) as [sh|e] eqn:Esh;
    [rewrite (bind_returns _ _ w2 w2 sh) in H
       by reflexivity
    |rewrite (bind_raises _ _ w2 w2 e) in H
       by reflexivity; discriminate H].
  destruct (compare_and_notify env cfg mem fh sh section w2)
    as [[[]|e] wc] eqn:Ec;
    [rewrite (bind_returns _ _ _ _ _ Ec) in H
    |rewrite (bind_raises _ _ _ _ _ Ec) in H; discriminate H].
  destruct (save_hashes env fh sh wc) as [[[]|e] w3] eqn:Es;
    [rewrite (bind_returns _ _ _ _ _ Es) in H
    |rewrite (bind_raises _ _ _ _ _ Es) in H; discriminate H].
  inversion H; subst.
  exists html, w1, section, w2, fh, sh, wc.
  repeat split; assumption.
Qed.



(** The run of the guarded body on a page that was fetched and hashed and
    whose comparison returned, in terms of the save. *)
Lemma guarded_body_fetched (env : Env) (cfg : Config) (mem : Memory)
    (w w1 w2 wc : World) (html fh sh : Py.str) (section : option Py.str) :
  fetch_page env (with_event CHECKING w) = (Returns html, w1) ->
  get_hash (Some html) = Returns fh ->
  extract_training_section env html w1 = (Returns section, w2) ->
  get_hash section = Returns sh ->
  compare_and_notify env cfg mem fh sh section w2 = (Returns tt, wc) ->
  (forall w3,
      save_hashes env fh sh wc = (Returns tt, w3) ->
      guarded_body env cfg mem w
      = (Returns (mkMemory (Some fh) (Some sh)), w3))
  /\ (forall e w3,
         save_hashes env fh sh wc = (Raises e, w3) ->
         guarded_body env cfg mem w
         = (Returns mem,
            with_event (if is_RequestException e then FETCH_ERROR e
                        else UNEXPECTED_ERROR e) w3)).
Proof.
  intros Hf Hfh He Hsh Ec.
  pose proof (try_body_fetched env cfg mem w w1 w2 html fh sh section
                Hf Hfh He Hsh) as Hb.
  rewrite (bind_returns _ _ _ _ _ Ec) in Hb.
  split.
  - intros w3 Hs. unfold guarded_body. apply try_returns.
    rewrite Hb, (bind_returns _ _ _ _ _ Hs). reflexivity.
  - intros e w3 Hs. apply guarded_body_handles.
    rewrite Hb. apply bind_raises. exact Hs.
Qed.

(** With both digests as they were, the comparison calls for nothing. *)
Lemma notes_sent_same (env : Env) (cfg : Config) (fh sh : Py.str)
    (section : option Py.str) (w : World) :
  notes_sent env cfg (mkMemory (Some fh) (Some sh)) fh sh section w = [].
Proof.
  unfold notes_sent, differs. cbn [last_full_hash last_section_hash].
  rewrite !eqb_refl. cbn [negb app].
  destruct (fst _); reflexivity.
Qed.

(** X5. A change is handled once.  When the page was fetched and hashed
    and the comparison and the save returned, the new pair is in the state
    file and in memory, in baseline and in steady state and whatever the
    notification services answered, also when no channel delivered.  The
    next iteration that finds a page with these two digests then calls
    [notify] not once and posts nothing. *)
Theorem change_is_notified_once :
  forall env cfg mem w html w1 section w2 fh sh wc w3,
    fetch_page env (with_event CHECKING w) = (Returns html, w1) ->
    get_hash (Some html) = Returns fh ->
    extract_training_section env html w1 = (Returns section, w2) ->
    get_hash section = Returns sh ->
    compare_and_notify env cfg mem fh sh section w2 = (Returns tt, wc) ->
    save_hashes env fh sh wc = (Returns tt, w3) ->
    guarded_body env cfg mem w = (Returns (mkMemory (Some fh) (Some sh)), w3)
    /\ hash_file w3 = Content (fh ++ NL ++ sh ++ NL)
    /\ (forall env' v html' v1 section' v2,
           fetch_page env' (with_event CHECKING v) = (Returns html', v1) ->
           get_hash (Some html') = Returns fh ->
           extract_training_section env' html' v1 = (Returns section', v2) ->
           get_hash section' = Returns sh ->
           notifications
             (trace (snd (cycle env' cfg (mkMemory (Some fh) (Some sh)) v)))
           = notifications (trace v)
           /\ posts (trace (snd (cycle env' cfg (mkMemory (Some fh) (Some sh)) v)))
              = posts (trace v)).
Proof.
  intros env cfg mem w html w1 section w2 fh sh wc w3 Hf Hfh He Hsh Hc Hs.
  split.
  { apply (proj1 (guarded_body_fetched env cfg mem w w1 w2 wc html fh sh
                    section Hf Hfh He Hsh Hc)). exact Hs. }
  split; [apply (save_hashes_returns env fh sh _ _ Hs)|].
  intros env' v html' v1 section' v2 Hf' Hfh' He' Hsh'. split.
  - rewrite (cycle_fetched_observed env' cfg KNotify notifications
               (fun s b => [(s, b)]) (mkMemory (Some fh) (Some sh))
               v v1 v2 html' fh sh section'
               eq_refl notifications_filter (notify_notifications env' cfg)
               Hf' Hfh' He' Hsh').
    rewrite notes_sent_same. apply app_nil_r.
  - rewrite (cycle_fetched_observed env' cfg KPost posts (channel_requests cfg)
               (mkMemory (Some fh) (Some sh))
               v v1 v2 html' fh sh section'
               eq_refl posts_filter (notify_posts env' cfg)
               Hf' Hfh' He' Hsh').
    rewrite notes_sent_same. apply app_nil_r.
Qed.

(** The section changed, no channel is configured: the pair is stored all
    the same. *)
Lemma change_is_notified_once_witness :
  guarded_body (env_serving html_2) cfg_no_channel
    (mkMemory (Some (hash_of html_1)) (Some (hash_of (Py.lit "<p>A</p>"))))
    (world0 Absent)
  = (Returns (mkMemory (Some (hash_of html_2))
                       (Some (hash_of (Py.lit "<p>Z</p>")))),
     snd (guarded_body (env_serving html_2) cfg_no_channel
            (mkMemory (Some (hash_of html_1))
                      (Some (hash_of (Py.lit "<p>A</p>"))))
            (world0 Absent))).
Proof.
  pose (env := env_serving html_2).
  pose (mem := mkMemory (Some (hash_of html_1))
                        (Some (hash_of (Py.lit "<p>A</p>")))).
  pose (w1 := snd (fetch_page env (with_event CHECKING (world0 Absent)))).
  pose (wc := snd (compare_and_notify env cfg_no_channel mem (hash_of html_2)
                     (hash_of (Py.lit "<p>Z</p>"))
                     (Some (Py.lit "<p>Z</p>")) w1)).
  refine (proj1 (change_is_notified_once env cfg_no_channel mem
                   (world0 Absent) html_2 w1 (Some (Py.lit "<p>Z</p>")) w1
                   (hash_of html_2) (hash_of (Py.lit "<p>Z</p>")) wc
                   (snd (guarded_body env cfg_no_channel mem (world0 Absent)))
                   _ _ _ _ _ _));
    vm_compute; reflexivity.
Defined.

(** X6. When the comparison returned and the save raises, the
    notifications of the iteration have gone out already; the exception is
    logged and the in-memory pair stays the prior one.  The next iteration
    that finds the same two digests and whose comparison returns therefore
    sends the same notifications again. *)
Theorem failed_save_repeats_notifications :
  forall env cfg mem w pf ps html w1 section w2 fh sh wc e w3,
    last_full_hash mem = Some pf ->
    last_section_hash mem = Some ps ->
    fetch_page env (with_event CHECKING w) = (Returns html, w1) ->
    get_hash (Some html) = Returns fh ->
    extract_training_section env html w1 = (Returns section, w2) ->
    get_hash section = Returns sh ->
    compare_and_notify env cfg mem fh sh section w2 = (Returns tt, wc) ->
    save_hashes env fh sh wc = (Raises e, w3) ->
    guarded_body env cfg mem w
    = (Returns mem,
       with_event (if is_RequestException e then FETCH_ERROR e
                   else UNEXPECTED_ERROR e) w3)
    /\ notifications (trace w3)
       = notifications (trace w)
         ++ (if Py.eqb fh pf then [] else [structure_note])
         ++ (if Py.eqb sh ps then [] else [update_note section])
    /\ (forall env' v html' v1 v2,
           fetch_page env' (with_event CHECKING v) = (Returns html', v1) ->
           get_hash (Some html') = Returns fh ->
           extract_training_section env' html' v1 = (Returns section, v2) ->
           fst (compare_and_notify env' cfg mem fh sh section v2) = Returns tt ->
           notifications (trace (snd (cycle env' cfg mem v)))
           = notifications (trace v)
             ++ (if Py.eqb fh pf then [] else [structure_note])
             ++ (if Py.eqb sh ps then [] else [update_note section])).
Proof.
  intros env cfg mem w pf ps html w1 section w2 fh sh wc e w3
         Hpf Hps Hf Hfh He Hsh Hc Hs.
  split.
  { apply (proj2 (guarded_body_fetched env cfg mem w w1 w2 wc html fh sh
                    section Hf Hfh He Hsh Hc)). exact Hs. }
  split.
  - pose proof (keeps_notifications (save_hashes env fh sh) wc
                  (save_hashes_kinds env KNotify fh sh eq_refl)) as K.
    rewrite Hs in K. cbn [snd] in K. rewrite K.
    pose proof (compare_steady_observed env cfg notifications
                  (fun s b => [(s, b)]) mem fh sh pf ps section w2
                  (fun _ _ _ _ => eq_refl) (notify_notifications env cfg)
                  Hpf Hps) as C.
    rewrite Hc in C. cbn [fst snd] in C. rewrite (C eq_refl).
    rewrite (notifications_of_kind w w2
               (fetched_quiet env KNotify w w1 w2 html section eq_refl Hf He)).
    reflexivity.
  - intros env' v html' v1 v2 Hf' Hfh' He' Hc'.
    apply (cycle_steady_observed env' cfg KNotify notifications
             (fun s b => [(s, b)]) mem v v1 v2 html' fh sh pf ps section
             eq_refl notifications_filter (notify_notifications env' cfg)
             Hpf Hps Hf' Hfh' He' Hsh Hc').
Qed.

(** The server answers with [html], but every file operation fails. *)
Definition env_read_only (html : Py.str) : Env :=
  mkEnv (http_get (env_serving html)) (http_post (env_serving html))
        latin1_fault clock_fault
        (fun _ => Some (O, OSError (Py.lit "Read-only file system")))
        (BeautifulSoup (env_serving html))
        simple_markup.

Lemma failed_save_repeats_notifications_witness :
  fst (guarded_body (env_read_only html_2) cfg_no_channel
         (mkMemory (Some (hash_of html_1)) (Some (hash_of (Py.lit "<p>A</p>"))))
         (world0 Absent))
  = Returns (mkMemory (Some (hash_of html_1))
                      (Some (hash_of (Py.lit "<p>A</p>")))).
Proof.
  pose (env := env_read_only html_2).
  pose (mem := mkMemory (Some (hash_of html_1))
                        (Some (hash_of (Py.lit "<p>A</p>")))).
  pose (w1 := snd (fetch_page env (with_event CHECKING (world0 Absent)))).
  pose (wc := snd (compare_and_notify env cfg_no_channel mem (hash_of html_2)
                     (hash_of (Py.lit "<p>Z</p>"))
                     (Some (Py.lit "<p>Z</p>")) w1)).
  exact (f_equal fst (proj1 (failed_save_repeats_notifications env cfg_no_channel mem
                    (world0 Absent) (hash_of html_1)
                    (hash_of (Py.lit "<p>A</p>")) html_2 w1
                    (Some (Py.lit "<p>Z</p>")) w1
                    (hash_of html_2) (hash_of (Py.lit "<p>Z</p>")) wc
                    (OSError (Py.lit "Read-only file system"))
                    (snd (save_hashes env (hash_of html_2)
                            (hash_of (Py.lit "<p>Z</p>")) wc))
                    eq_refl eq_refl
                    ltac:(vm_compute; reflexivity)
                    ltac:(vm_compute; reflexivity)
                    ltac:(vm_compute; reflexivity)
                    ltac:(vm_compute; reflexivity)
                    ltac:(vm_compute; reflexivity)
                    ltac:(vm_compute; reflexivity)))).
Defined.

(** The structure test returns when the library sends the headers. *)
Lemma structure_step_returns (env : Env) (cfg : Config) (mem : Memory)
    (fh : Py.str) (w : World) :
  headers_accepted env cfg ->
  fst (structure_step env cfg mem fh w) = Returns tt.
Proof.
  intros Ha.
  assert (S1 : safe (structure_step env cfg mem fh)).
  { unfold structure_step, safe. destruct (differs _ _); escape. }
  destruct (safe_returns _ w S1) as [[] E]. rewrite E. reflexivity.
Qed.



(** ** Requests and notifications of any iteration *)

Lemma bind_keeps_after {A B X} (f : World -> X) (m : M A) (k : A -> M B)
    (w : World) :
  (forall a, keeps f (k a)) -> f (snd (bind m k w)) = f (snd (m w)).
Proof.
  intros Hk. unfold bind. destruct (m w) as [[a|e] w1]; [apply Hk | reflexivity].
Qed.

(** The request of [fetch_page]. *)
Definition FETCH_REQUEST : event :=
  EvGet URL
    [(Py.lit "User-Agent",
      Py.lit "Mozilla/5.0 (Windows NT 10.0; Win64; x64) AppleWebKit/537.36")]
    15.

Section Requests.
Variable env : Env.
Variable cfg : Config.

Lemma fetch_page_one_get (w : World) :
  obs_kind KGet (snd (fetch_page env w)) = FETCH_REQUEST :: obs_kind KGet w.
Proof.
  destruct w as [c h t]. unfold fetch_page, requests_get, raise_for_status.
  run. destruct (http_get env c URL) as [r|msg]; [|reflexivity].
  destruct ((400 <=? status_code r) && (status_code r <? 500)); [reflexivity|].
  destruct ((500 <=? status_code r) && (status_code r <? 600)); reflexivity.
Qed.

Lemma guarded_body_one_get (mem : Memory) (w : World) :
  obs_kind KGet (snd (guarded_body env cfg mem w))
  = FETCH_REQUEST :: obs_kind KGet w.
Proof.
  unfold guarded_body.
  rewrite (try_keeps_after (obs_kind KGet)) by (apply handlers_keep; reflexivity).
  unfold try_body.
  rewrite (bind_returns _ _ w (with_event CHECKING w) tt) by reflexivity.
  rewrite (bind_keeps_after (obs_kind KGet)) by (intros html; frame).
  rewrite fetch_page_one_get. reflexivity.
Qed.

Lemma loop_gets (n : nat) :
  can_sleep env cfg ->
  forall mem w,
    obs_kind KGet (snd (loop env cfg n mem w))
    = repeat FETCH_REQUEST n ++ obs_kind KGet w.
Proof.
  intros H. induction n as [|n IH]; intros mem w; [reflexivity|].
  destruct (cycle_run env cfg mem w H) as [m1 [w1 [Eg [E _]]]].
  cbn [loop]. rewrite (bind_returns _ _ _ _ _ E), IH.
  change (obs_kind KGet (slept cfg w1)) with (obs_kind KGet w1).
  pose proof (guarded_body_one_get mem w) as G. rewrite Eg in G.
  cbn [snd] in G. rewrite G.
  change (FETCH_REQUEST :: obs_kind KGet w)
    with ([FETCH_REQUEST] ++ obs_kind KGet w).
  rewrite app_assoc, <- repeat_cons. reflexivity.
Qed.

End Requests.

(** X8. Every iteration issues exactly one GET request, whatever happens
    in it: to the fixed address, with the browser-like user agent and a
    timeout of fifteen; there is no retry and no second fetch.  When
    [time.sleep] returns on the interval, the requests after [n] iterations
    are [n] copies of this one. *)
Theorem one_get_per_iteration :
  forall env cfg mem w,
    obs_kind KGet (snd (guarded_body env cfg mem w))
    = FETCH_REQUEST :: obs_kind KGet w
    /\ obs_kind KGet (snd (cycle env cfg mem w))
       = FETCH_REQUEST :: obs_kind KGet w
    /\ (can_sleep env cfg ->
        forall n,
          obs_kind KGet (snd (loop env cfg n mem w))
          = repeat FETCH_REQUEST n ++ obs_kind KGet w).
Proof.
  intros env cfg mem w. split; [apply guarded_body_one_get|]. split.
  - rewrite (cycle_after_guarded env cfg (obs_kind KGet))
      by (intros m; apply sleep_step_kinds; reflexivity).
    apply guarded_body_one_get.
  - intros H n. apply loop_gets. exact H.
Qed.

Lemma one_get_per_iteration_witness :
  obs_kind KGet (snd (loop (env_serving html_1) cfg_both 2
                        (mkMemory None None) (world0 Absent)))
  = [FETCH_REQUEST; FETCH_REQUEST].
Proof.
  apply (proj2 (proj2 (one_get_per_iteration (env_serving html_1) cfg_both
                         (mkMemory None None) (world0 Absent)))).
  split; [vm_compute; discriminate | reflexivity].
Defined.

Section Outage.
Variable env : Env.
Variable cfg : Config.

Lemma guarded_body_fetch_fails (mem : Memory) (w w1 : World) (e : exn) :
  fetch_page env (with_event CHECKING w) = (Raises e, w1) ->
  guarded_body env cfg mem w = (Returns mem, with_event (FETCH_ERROR e) w1)
  /\ hash_file w1 = hash_file w
  /\ obs_kind KNotify w1 = obs_kind KNotify w
  /\ obs_kind KPost w1 = obs_kind KPost w
  /\ obs_kind KSleep w1 = obs_kind KSleep w.
Proof.
  intros Hf.
  assert (He : is_RequestException e = true).
  { apply (fetch_page_throws env (with_event CHECKING w)).
    rewrite Hf; reflexivity. }
  split.
  { rewrite (guarded_body_handles env cfg mem w w1 e), He; [reflexivity|].
    unfold try_body.
    rewrite (bind_returns _ _ w (with_event CHECKING w) tt) by reflexivity.
    apply bind_raises. exact Hf. }
  split.
  { pose proof (fetch_page_keeps_file env (with_event CHECKING w)) as H.
    rewrite Hf in H. exact H. }
  repeat split.
  - pose proof (fetch_page_kinds env KNotify eq_refl (with_event CHECKING w)) as H.
    rewrite Hf in H. exact H.
  - pose proof (fetch_page_kinds env KPost eq_refl (with_event CHECKING w)) as H.
    rewrite Hf in H. exact H.
  - pose proof (fetch_page_kinds env KSleep eq_refl (with_event CHECKING w)) as H.
    rewrite Hf in H. exact H.
Qed.

End Outage.

(** The page cannot be fetched at tick [t]: the request raises, or the
    status of the answer is 4xx or 5xx. *)
Definition unreachable_at (env : Env) (t : nat) : Prop :=
  (exists msg, http_get env t URL = inr msg)
  \/ (exists r, http_get env t URL = inl r /\ 400 <= status_code r < 600).

(** X9. An outage changes nothing.  While the page cannot be fetched
    (network error or HTTP status 4xx/5xx at every attempt) and
    [time.sleep] returns on the interval, any number of iterations leaves
    the state file and the in-memory pair as they were, calls [notify] not
    once, posts nothing, and sleeps once per iteration: the watcher goes on
    from the prior pair when the page is back. *)
Theorem outage_changes_nothing :
  forall env cfg,
    (forall t, unreachable_at env t) ->
    can_sleep env cfg ->
    forall n mem w,
      exists w',
        loop env cfg n mem w = (Returns mem, w')
        /\ hash_file w' = hash_file w
        /\ notifications (trace w') = notifications (trace w)
        /\ posts (trace w') = posts (trace w)
        /\ sleeps (trace w') = (n + sleeps (trace w))%nat.
Proof.
  intros env cfg Hdown Hi. induction n as [|n IH]; intros mem w.
  - exists w. repeat split; reflexivity.
  - destruct (proj2 (fetch_page_fails env (with_event CHECKING w))
                (Hdown (clock w))) as [e [w1 Hf]].
    destruct (guarded_body_fetch_fails env cfg mem w w1 e Hf)
      as [Hg [Hfile [Hn [Hp Hs]]]].
    pose proof (cycle_unfold env cfg _ _ _ _ Hg) as Hc.
    rewrite (sleep_step_run env cfg mem _ Hi) in Hc.
    destruct (IH mem (slept cfg (with_event (FETCH_ERROR e) w1)))
      as [w' [El [H1 [H2 [H3 H4]]]]].
    exists w'. split; [cbn [loop]; rewrite (bind_returns _ _ _ _ _ Hc); exact El|].
    split; [rewrite H1; exact Hfile|].
    split; [rewrite H2; apply (notifications_of_kind w w1 Hn)|].
    split; [rewrite H3; apply (posts_of_kind w w1 Hp)|].
    rewrite H4. cbn [slept with_event trace sleeps WAITING FETCH_ERROR].
    rewrite (sleeps_filter (trace w1)), (sleeps_filter (trace w)).
    change (filter (fun e0 => kind_eqb (kind_of e0) KSleep) (trace w1))
      with (obs_kind KSleep w1).
    rewrite Hs. unfold obs_kind. lia.
Qed.

Lemma outage_changes_nothing_witness :
  exists w',
    loop env_offline cfg_both 5
      (mkMemory (Some (hash_of html_1)) (Some (hash_of (Py.lit "<p>A</p>"))))
      (world0 (Content (Py.lit "kept")))
    = (Returns (mkMemory (Some (hash_of html_1))
                         (Some (hash_of (Py.lit "<p>A</p>")))), w')
    /\ hash_file w' = Content (Py.lit "kept")
    /\ notifications (trace w') = []
    /\ posts (trace w') = []
    /\ sleeps (trace w') = 5%nat.
Proof.
  apply (outage_changes_nothing env_offline cfg_both).
  - intros t. left. eexists. reflexivity.
  - split; [vm_compute; discriminate | reflexivity].
Defined.

Section AnyIteration.
Variable env : Env.
Variable cfg : Config.

Lemma flat_map_pair {T} (l : list (T * T)) :
  flat_map (fun n => [(fst n, snd n)]) l = l.
Proof.
  induction l as [|[a b] l IH]; [reflexivity|].
  cbn [flat_map fst snd app]. rewrite IH. reflexivity.
Qed.

Lemma compare_notes (mem : Memory) (fh sh : Py.str)
    (section : option Py.str) (w : World) :
  notifications (trace (snd (compare_and_notify env cfg mem fh sh section w)))
  = notifications (trace w) ++ notes_sent env cfg mem fh sh section w
  /\ posts (trace (snd (compare_and_notify env cfg mem fh sh section w)))
     = posts (trace w)
       ++ flat_map (fun n => channel_requests cfg (fst n) (snd n))
            (notes_sent env cfg mem fh sh section w).
Proof.
  split.
  - rewrite (compare_observed env cfg notifications (fun s b => [(s, b)])
               mem fh sh section w
               (fun _ _ _ _ => eq_refl) (notify_notifications env cfg)).
    rewrite flat_map_pair. reflexivity.
  - apply (compare_observed env cfg posts (channel_requests cfg)
             mem fh sh section w
             (fun _ _ _ _ => eq_refl) (notify_posts env cfg)).
Qed.

(** The notifications and POST requests of an iteration are those of its
    comparison, when it gets there, and none otherwise. *)
Lemma cycle_notes (mem : Memory) (w : World) :
  exists sent,
    notifications (trace (snd (cycle env cfg mem w)))
    = notifications (trace w) ++ sent
    /\ posts (trace (snd (cycle env cfg mem w)))
       = posts (trace w)
         ++ flat_map (fun n => channel_requests cfg (fst n) (snd n)) sent
    /\ (sent = []
        \/ exists fh sh section w2,
             sent = notes_sent env cfg mem fh sh section w2).
Proof.
  assert (Hquiet : forall w0 : World,
             obs_kind KNotify w0 = obs_kind KNotify w ->
             obs_kind KPost w0 = obs_kind KPost w ->
             notifications (trace w0) = notifications (trace w) ++ []
             /\ posts (trace w0)
                = posts (trace w)
                  ++ flat_map (fun n => channel_requests cfg (fst n) (snd n)) []).
  { intros w0 Hn Hp. cbn [flat_map]. rewrite !app_nil_r.
    split; [apply notifications_of_kind | apply posts_of_kind]; assumption. }
  assert (Hfinal : forall sent,
             notifications (trace (snd (try_body env cfg mem w)))
             = notifications (trace w) ++ sent
             /\ posts (trace (snd (try_body env cfg mem w)))
                = posts (trace w)
                  ++ flat_map (fun n => channel_requests cfg (fst n) (snd n)) sent ->
             notifications (trace (snd (cycle env cfg mem w)))
             = notifications (trace w) ++ sent
             /\ posts (trace (snd (cycle env cfg mem w)))
                = posts (trace w)
                  ++ flat_map (fun n => channel_requests cfg (fst n) (snd n)) sent).
  { intros sent [Hn Hp]. split.
    - rewrite (cycle_after_guarded env cfg (fun w => notifications (trace w)))
        by (intros m w'; apply notifications_of_kind;
            apply (sleep_step_kinds env cfg KNotify m eq_refl)).
      unfold guarded_body.
      rewrite (try_keeps_after (fun w => notifications (trace w)))
        by (pose proof (handlers_keep KNotify mem eq_refl) as H;
            eapply Forall_impl; [|exact H];
            intros c Hc e w'; apply notifications_of_kind; apply Hc).
      exact Hn.
    - rewrite (cycle_after_guarded env cfg (fun w => posts (trace w)))
        by (intros m w'; apply posts_of_kind;
            apply (sleep_step_kinds env cfg KPost m eq_refl)).
      unfold guarded_body.
      rewrite (try_keeps_after (fun w => posts (trace w)))
        by (pose proof (handlers_keep KPost mem eq_refl) as H;
            eapply Forall_impl; [|exact H];
            intros c Hc e w'; apply posts_of_kind; apply Hc).
      exact Hp. }
  pose proof (fetch_page_kinds env KNotify eq_refl (with_event CHECKING w)) as Fn.
  pose proof (fetch_page_kinds env KPost eq_refl (with_event CHECKING w)) as Fp.
  destruct (fetch_page env (with_event CHECKING w)) as [[html|e] w1] eqn:Ef;
    cbn [snd] in Fn, Fp.
  2: { exists []. apply and_assoc. split; [|left; reflexivity]. apply Hfinal.
       unfold try_body.
       rewrite (bind_returns _ _ w (with_event CHECKING w) tt) by reflexivity.
       rewrite (bind_raises _ _ _ _ _ Ef). apply Hquiet; assumption. }
  destruct (get_hash (Some html)) as [fh|e] eqn:Efh.
  2: { exists []. apply and_assoc. split; [|left; reflexivity]. apply Hfinal.
       unfold try_body.
       rewrite (bind_returns _ _ w (with_event CHECKING w) tt) by reflexivity.
       rewrite (bind_returns _ _ _ _ _ Ef).
       rewrite (bind_raises _ _ w1 w1 e) by (unfold lift; rewrite Efh; reflexivity).
       apply Hquiet; assumption. }
  pose proof (extract_kinds env KNotify html eq_refl w1) as Xn.
  pose proof (extract_kinds env KPost html eq_refl w1) as Xp.
  destruct (extract_training_section env html w1) as [[section|e] w2] eqn:Ee;
    cbn [snd] in Xn, Xp.
  2: { exists []. apply and_assoc. split; [|left; reflexivity]. apply Hfinal.
       unfold try_body.
       rewrite (bind_returns _ _ w (with_event CHECKING w) tt) by reflexivity.
       rewrite (bind_returns _ _ _ _ _ Ef).
       rewrite (bind_returns _ _ w1 w1 fh) by (unfold lift; rewrite Efh; reflexivity).
       rewrite (bind_raises _ _ _ _ _ Ee).
       cbn [snd]. apply Hquiet; [rewrite Xn; exact Fn | rewrite Xp; exact Fp]. }
  destruct (get_hash section) as [sh|e] eqn:Esh.
  2: { exists []. apply and_assoc. split; [|left; reflexivity]. apply Hfinal.
       unfold try_body.
       rewrite (bind_returns _ _ w (with_event CHECKING w) tt) by reflexivity.
       rewrite (bind_returns _ _ _ _ _ Ef).
       rewrite (bind_returns _ _ w1 w1 fh) by (unfold lift; rewrite Efh; reflexivity).
       rewrite (bind_returns _ _ _ _ _ Ee).
       rewrite (bind_raises _ _ w2 w2 e) by (unfold lift; rewrite Esh; reflexivity).
       cbn [snd]. apply Hquiet; [rewrite Xn; exact Fn | rewrite Xp; exact Fp]. }
  exists (notes_sent env cfg mem fh sh section w2).
  apply and_assoc. split; [|right; exists fh, sh, section, w2; reflexivity].
  apply Hfinal.
  rewrite (try_body_fetched env cfg mem w w1 w2 html fh sh section Ef Efh Ee Esh).
  destruct (compare_notes mem fh sh section w2) as [Cn Cp].
  rewrite (bind_keeps_after (fun w => notifications (trace w)))
    by (intros u w'; apply keeps_notifications; frame).
  rewrite (bind_keeps_after (fun w => posts (trace w)))
    by (intros u w'; apply keeps_posts; frame).
  split.
  - rewrite Cn. f_equal. apply notifications_of_kind. rewrite Xn. exact Fn.
  - rewrite Cp. f_equal. apply posts_of_kind. rewrite Xp. exact Fp.
Qed.

End AnyIteration.

Lemma notes_sent_bound (env : Env) (cfg : Config) (mem : Memory)
    (fh sh : Py.str) (section : option Py.str) (w : World) :
  (List.length (notes_sent env cfg mem fh sh section w) <= 2)%nat
  /\ Forall (fun n => n = structure_note \/ n = update_note section)
            (notes_sent env cfg mem fh sh section w)
  /\ (last_full_hash mem = None -> notes_sent env cfg mem fh sh section w = []).
Proof.
  unfold notes_sent. destruct (last_full_hash mem) as [pf|].
  - split; [|split; [|discriminate]];
      destruct (differs fh (Some pf));
      destruct (fst (structure_step env cfg mem fh w));
      destruct (differs sh (last_section_hash mem)); cbn [app List.length];
      try lia;
      repeat first [ apply Forall_nil
                   | apply Forall_cons; [first [left; reflexivity
                                               | right; reflexivity]|] ].
  - split; [cbn; lia|]. split; [constructor | reflexivity].
Qed.


(** ** What the program never does *)

(** [m] only adds events to the trace, and each of them is in [P]. *)
Definition emits {A} (P : event -> Prop) (m : M A) : Prop :=
  forall w, exists evs, trace (snd (m w)) = evs ++ trace w /\ Forall P evs.

Lemma emits_nothing {T} (P : event -> Prop) (m : M T) :
  (forall w, trace (snd (m w)) = trace w) -> emits P m.
Proof. intros H w. exists []. split; [apply H | constructor]. Qed.

Section EmitRules.
Context {A B : Type}.
Variable P : event -> Prop.

Lemma emits_ret (a : A) : emits P (ret a).
Proof. apply emits_nothing. reflexivity. Qed.

Lemma emits_raise (e : exn) : emits P (@raise A e).
Proof. apply emits_nothing. reflexivity. Qed.

Lemma emits_lift (o : outcome A) : emits P (lift o).
Proof. apply emits_nothing. reflexivity. Qed.

Lemma emits_get_file : emits P get_file.
Proof. apply emits_nothing. reflexivity. Qed.

Lemma emits_set_file (f : file_state) : emits P (set_file f).
Proof. apply emits_nothing. reflexivity. Qed.

Lemma emits_tick : emits P tick.
Proof. apply emits_nothing. reflexivity. Qed.

Lemma emits_emit (e : event) : P e -> emits P (emit e).
Proof. intros H w. exists [e]. split; [reflexivity | repeat constructor; exact H]. Qed.

Lemma emits_bind (m : M A) (k : A -> M B) :
  emits P m -> (forall a, emits P (k a)) -> emits P (bind m k).
Proof.
  intros Hm Hk w. unfold bind. destruct (Hm w) as [e1 [E1 F1]].
  destruct (m w) as [[a|e] w1]; cbn [snd] in *.
  - destruct (Hk a w1) as [e2 [E2 F2]]. exists (e2 ++ e1).
    rewrite E2, E1, app_assoc. split; [reflexivity|].
    apply Forall_app; split; assumption.
  - exists e1. split; assumption.
Qed.

Lemma emits_dispatch (cs : list ((exn -> bool) * (exn -> M A))) (e : exn) :
  Forall (fun c => forall e', emits P (snd c e')) cs ->
  emits P (dispatch cs e).
Proof.
  induction 1 as [|[cls h] cs Hh _ IH]; cbn [dispatch].
  - apply emits_raise.
  - destruct (cls e); [apply Hh | exact IH].
Qed.

Lemma emits_try (body : M A) (cs : list ((exn -> bool) * (exn -> M A))) :
  emits P body ->
  Forall (fun c => forall e, emits P (snd c e)) cs ->
  emits P (try_ body cs).
Proof.
  intros Hb Hc w. unfold try_. destruct (Hb w) as [e1 [E1 F1]].
  destruct (body w) as [[a|e] w1]; cbn [snd] in *.
  - exists e1. split; assumption.
  - destruct (emits_dispatch cs e Hc w1) as [e2 [E2 F2]]. exists (e2 ++ e1).
    rewrite E2, E1, app_assoc. split; [reflexivity|].
    apply Forall_app; split; assumption.
Qed.

End EmitRules.

Create HintDb emitting.

Ltac emitting :=
  repeat first
    [ apply emits_ret | apply emits_raise | apply emits_lift
    | apply emits_get_file | apply emits_tick | apply emits_set_file
    | solve [auto with emitting]
    | apply emits_emit; cbn; solve [exact I | reflexivity | auto]
    | apply emits_bind; [|intros]
    | apply emits_try; [|repeat constructor; intros; cbn [snd except]]
    | progress cbn beta iota
    | match goal with
      | |- emits _ (if ?c then _ else _) => destruct c
      | |- emits _ (match ?x with _ => _ end) => destruct x
      end ].

(** The events that the program may produce: the one GET request; POST
    requests with timeout ten, to the Telegram address without headers or to
    the Brevo address with the Brevo headers; sleeps of the configured
    length; log lines and calls of [notify]. *)
Definition allowed (cfg : Config) (e : event) : Prop :=
  match e with
  | EvGet _ _ _ => e = FETCH_REQUEST
  | EvPost url _ headers timeout =>
    timeout = 10
    /\ ((url = telegram_url cfg /\ headers = [])
        \/ (url = BREVO_URL /\ headers = brevo_headers cfg))
  | EvSleep seconds => seconds = CHECK_INTERVAL cfg
  | EvLog _ _ _ => True
  | EvNotify _ _ => True
  end.

Section Allowed.
Variable env : Env.
Variable cfg : Config.

Lemma raise_for_status_emits P (r : Response) : emits P (raise_for_status r).
Proof. unfold raise_for_status. emitting. Qed.

Lemma send_telegram_emits m : emits (allowed cfg) (send_telegram env cfg m).
Proof.
  pose proof raise_for_status_emits as R.
  unfold send_telegram, requests_post, log. emitting.
Qed.

Lemma send_mail_emits s b : emits (allowed cfg) (send_mail env cfg s b).
Proof.
  pose proof raise_for_status_emits as R.
  unfold send_mail, requests_post, log. emitting.
Qed.

Lemma notify_emits s b : emits (allowed cfg) (notify env cfg s b).
Proof.
  pose proof send_telegram_emits as T. pose proof send_mail_emits as S.
  unfold notify, log. emitting.
Qed.

Lemma fetch_page_emits : emits (allowed cfg) (fetch_page env).
Proof.
  pose proof raise_for_status_emits as R.
  unfold fetch_page, requests_get. emitting.
Qed.

Lemma extract_emits html :
  emits (allowed cfg) (extract_training_section env html).
Proof. unfold extract_training_section, extract_from_soup, log. emitting. Qed.

Lemma save_hashes_emits a b : emits (allowed cfg) (save_hashes env a b).
Proof. unfold save_hashes, open_w, write, file_op, log. emitting. Qed.

Lemma load_hashes_emits : emits (allowed cfg) load_hashes.
Proof. unfold load_hashes, os_path_exists, read_text, log. emitting. Qed.

Lemma compare_emits mem fh sh section :
  emits (allowed cfg) (compare_and_notify env cfg mem fh sh section).
Proof.
  pose proof notify_emits as N. unfold compare_and_notify, log. emitting.
Qed.

Lemma cycle_emits mem : emits (allowed cfg) (cycle env cfg mem).
Proof.
  pose proof fetch_page_emits as F. pose proof extract_emits as X.
  pose proof compare_emits as C. pose proof save_hashes_emits as S.
  unfold cycle, guarded_body, try_body, time_sleep, log. emitting.
Qed.

Lemma loop_emits n : forall mem, emits (allowed cfg) (loop env cfg n mem).
Proof.
  induction n as [|n IH]; intros mem; cbn [loop].
  - apply emits_ret.
  - apply emits_bind; [apply cycle_emits | intros; apply IH].
Qed.

End Allowed.

(** X11. [main] only ever adds to the trace, and whatever the environment
    answers and however long it runs, it sends no request but these: the GET
    of the fixed page with its user agent and timeout fifteen; POSTs with
    timeout ten to the Telegram address of the configured bot, without
    headers, and to the Brevo address, with the API key in the headers.  The
    key is sent nowhere else, and every sleep has the configured length. *)
Theorem only_known_requests :
  forall env cfg n w,
    exists evs,
      trace (snd (main env cfg n w)) = evs ++ trace w
      /\ Forall (allowed cfg) evs.
Proof.
  intros env cfg n.
  pose proof (load_hashes_emits cfg) as L.
  pose proof (loop_emits env cfg) as LP.
  change (emits (allowed cfg) (main env cfg n)).
  unfold main, main_start, log. emitting.
Qed.

(** ** What a channel reports *)

(** The answer of the service counts as a delivery: a response whose status
    is not 4xx or 5xx. *)
Definition answer_ok (a : Response + Py.str) : bool :=
  match a with
  | inl r => negb ((400 <=? status_code r) && (status_code r <? 600))
  | inr _ => false
  end.

Lemma error_status_split (s : Z) :
  (400 <=? s) && (s <? 600)
  = ((400 <=? s) && (s <? 500)) || ((500 <=? s) && (s <? 600)).
Proof.
  destruct (400 <=? s) eqn:A; destruct (s <? 600) eqn:B;
    destruct (s <? 500) eqn:C; destruct (500 <=? s) eqn:D; try reflexivity;
    rewrite ?Z.leb_le, ?Z.leb_gt, ?Z.ltb_lt, ?Z.ltb_ge in *; lia.
Qed.

Definition is_warning (e : event) : bool :=
  match e with EvLog WARNING _ _ => true | _ => false end.

(** The number of WARNING lines of a trace. *)
Definition warnings (t : list event) : nat :=
  List.length (filter is_warning t).

Ltac done_delivery :=
  run; observe; run; repeat split;
  cbn [fst snd with_event clock trace andb negb];
  unfold warnings; cbn [filter is_warning];
  first [reflexivity | lia].

Section Delivery.
Variable env : Env.
Variable cfg : Config.

(** The answer that the Telegram attempt of a call gets at tick [t]. *)
Definition telegram_delivers (t : nat) (message : Py.str) : bool :=
  telegram_configured cfg
  && answer_ok (http_post env t (fst (telegram_request cfg message))
                          (snd (telegram_request cfg message))).

Definition mail_delivers (t : nat) (subject body : Py.str) : bool :=
  mail_configured cfg
  && answer_ok (http_post env t (fst (mail_request cfg subject body))
                          (snd (mail_request cfg subject body))).

(** What the e-mail attempt of a call at tick [t] comes to.  A header that
    [http.client] does not send ends the attempt once the connection
    stands: [send_mail] catches a RequestException and nothing else. *)
Definition mail_outcome (t : nat) (subject body : Py.str) : outcome bool :=
  if mail_configured cfg then
    match http_post env t (fst (mail_request cfg subject body))
                    (snd (mail_request cfg subject body)) with
    | inl r =>
      match put_headers env (brevo_headers cfg) with
      | Some e => if is_RequestException e then Returns false else Raises e
      | None => Returns (answer_ok (inl r))
      end
    | inr _ => Returns false
    end
  else Returns false.

Lemma send_telegram_result (message : Py.str) (w : World) :
  fst (send_telegram env cfg message w)
  = Returns (telegram_delivers (clock w) message)
  /\ clock (snd (send_telegram env cfg message w))
     = (clock w + if telegram_configured cfg then 1 else 0)%nat
  /\ warnings (trace (snd (send_telegram env cfg message w)))
     = warnings (trace w).
Proof.
  unfold telegram_delivers, telegram_request, telegram_url.
  destruct (telegram_configured cfg) eqn:E.
  - unfold send_telegram. unfold telegram_configured in E. rewrite E.
    cbn [negb andb fst snd]. unfold requests_post, raise_for_status, answer_ok.
    cbn [put_headers]. destruct w as [c h t]. run.
    destruct (http_post env _ _ _) as [r|msg]; [|done_delivery].
    pose proof (error_status_split (status_code r)) as S.
    destruct ((400 <=? status_code r) && (status_code r <? 500));
      destruct ((500 <=? status_code r) && (status_code r <? 600));
      cbn [orb] in S; rewrite S; done_delivery.
  - rewrite send_telegram_skipped by exact E.
    unfold TELEGRAM_SKIPPED. destruct w as [c h t]. done_delivery.
Qed.

Lemma send_mail_result (subject body : Py.str) (w : World) :
  fst (send_mail env cfg subject body w) = mail_outcome (clock w) subject body
  /\ warnings (trace (snd (send_mail env cfg subject body w)))
     = warnings (trace w).
Proof.
  unfold mail_outcome, mail_request, brevo_headers.
  destruct (mail_configured cfg) eqn:E.
  - unfold send_mail. unfold mail_configured in E. rewrite E.
    cbn [negb andb fst snd]. unfold requests_post, raise_for_status, answer_ok.
    destruct w as [c h t]. run.
    destruct (http_post env _ _ _) as [r|msg]; [|done_delivery].
    destruct (put_headers env _) as [e|];
      [destruct (is_RequestException e); done_delivery|].
    pose proof (error_status_split (status_code r)) as S.
    destruct ((400 <=? status_code r) && (status_code r <? 500));
      destruct ((500 <=? status_code r) && (status_code r <? 600));
      cbn [orb] in S; rewrite S; done_delivery.
  - rewrite send_mail_skipped by exact E.
    unfold MAIL_SKIPPED. destruct w as [c h t]. done_delivery.
Qed.

Lemma mail_outcome_accepted (t : nat) (subject body : Py.str) :
  headers_accepted env cfg ->
  mail_outcome t subject body = Returns (mail_delivers t subject body).
Proof.
  intros Ha. unfold mail_outcome, mail_delivers, headers_accepted in *.
  destruct (mail_configured cfg); [|reflexivity].
  rewrite (Ha eq_refl). cbn [andb].
  destruct (http_post env _ _ _); reflexivity.
Qed.

End Delivery.





(** ** The channels announced at start *)

Definition NO_CHANNELS : event :=
  EvLog WARNING (Py.lit "⚠️ Keine Benachrichtigungskanäle konfiguriert!") false.

(** The line of lines 162-165, by the channels that [send_telegram] and
    [send_mail] take as configured. *)
Definition announcement (cfg : Config) : event :=
  match telegram_configured cfg, mail_configured cfg with
  | true, true =>
    EvLog INFO (Py.lit "Benachrichtigungskanäle: Telegram, E-Mail") false
  | true, false => EvLog INFO (Py.lit "Benachrichtigungskanäle: Telegram") false
  | false, true => EvLog INFO (Py.lit "Benachrichtigungskanäle: E-Mail") false
  | false, false => NO_CHANNELS
  end.

Definition quiet (e : event) : Prop := is_warning e = false.

Lemma warnings_quiet (evs t : list event) :
  Forall quiet evs -> warnings (evs ++ t) = warnings t.
Proof.
  unfold warnings, quiet. induction 1 as [|e evs He _ IH]; [reflexivity|].
  cbn [app filter]. rewrite He. exact IH.
Qed.

Lemma load_hashes_quiet : emits quiet load_hashes.
Proof. unfold load_hashes, os_path_exists, read_text, log, quiet. emitting. Qed.

Lemma announce_both :
  Py.lit "Benachrichtigungskanäle: "
    ++ Py.join (Py.lit ", ") [Py.lit "Telegram"; Py.lit "E-Mail"]
  = Py.lit "Benachrichtigungskanäle: Telegram, E-Mail".
Proof. vm_compute. reflexivity. Qed.

Lemma announce_telegram :
  Py.lit "Benachrichtigungskanäle: " ++ Py.join (Py.lit ", ") [Py.lit "Telegram"]
  = Py.lit "Benachrichtigungskanäle: Telegram".
Proof. vm_compute. reflexivity. Qed.

Lemma announce_mail :
  Py.lit "Benachrichtigungskanäle: " ++ Py.join (Py.lit ", ") [Py.lit "E-Mail"]
  = Py.lit "Benachrichtigungskanäle: E-Mail".
Proof. vm_compute. reflexivity. Qed.

Lemma main_start_trace (cfg : Config) (w : World) :
  exists logs rest,
    trace (snd (main_start cfg w)) = logs ++ announcement cfg :: rest ++ trace w
    /\ Forall quiet logs /\ Forall quiet rest.
Proof.
  destruct w as [c h t]. unfold main_start, announcement.
  unfold telegram_configured, mail_configured.
  destruct (Py.truthy (TELEGRAM_BOT_TOKEN cfg) && Py.truthy (TELEGRAM_CHAT_ID cfg));
    destruct (Py.truthy (BREVO_API_KEY cfg) && Py.truthy (FROM_EMAIL cfg)
              && Py.truthy (MAIL_TO cfg));
    cbn [app];
    rewrite ?announce_both, ?announce_telegram, ?announce_mail;
    run;
    match goal with
    | |- context [load_hashes ?w0] =>
      destruct (load_hashes_quiet w0) as [logs [E Hl]];
      destruct (load_hashes w0) as [[p|e] [c1 h1 t1]]
    end;
    cbn [snd trace] in E; run; rewrite E;
    exists logs; eexists [_; _; _; _];
    (split; [reflexivity|]); (split; [exact Hl|]);
    repeat constructor.
Qed.

(** X14. The channel line that [main] logs at start agrees with what [notify]
    will do: it is the warning "no channels configured" exactly when no
    call of [notify] can post anything, and otherwise an INFO line naming
    Telegram, E-Mail or both, for the channels [notify] posts to.  It is the
    only warning of the start-up. *)
Theorem startup_announces_channels :
  forall cfg w,
    (exists logs rest,
        trace (snd (main_start cfg w))
        = logs ++ announcement cfg :: rest ++ trace w
        /\ Forall quiet logs /\ Forall quiet rest)
    /\ (warnings (trace (snd (main_start cfg w)))
        = warnings (trace w)
          + if telegram_configured cfg || mail_configured cfg then 0 else 1)%nat
    /\ (announcement cfg = NO_CHANNELS
        <-> forall subject body, channel_requests cfg subject body = [])
    /\ (forall env subject body w1,
           announcement cfg = NO_CHANNELS ->
           posts (trace (snd (notify env cfg subject body w1)))
           = posts (trace w1)).
Proof.
  intros cfg w.
  assert (N : announcement cfg = NO_CHANNELS
              <-> forall subject body, channel_requests cfg subject body = []).
  { unfold announcement, channel_requests.
    destruct (telegram_configured cfg); destruct (mail_configured cfg);
      [| | |split; intros; reflexivity];
      (split; intros H;
       [apply (f_equal is_warning) in H; cbn [is_warning NO_CHANNELS] in H
       |specialize (H [] []); apply (f_equal (@List.length _)) in H;
        cbn [app List.length] in H];
       discriminate H). }
  split; [apply main_start_trace|]. split; [|split; [exact N|]].
  - destruct (main_start_trace cfg w) as [logs [rest [-> [Hl Hr]]]].
    rewrite warnings_quiet by exact Hl.
    change (announcement cfg :: rest ++ trace w)
      with ([announcement cfg] ++ rest ++ trace w).
    unfold announcement.
    destruct (telegram_configured cfg); destruct (mail_configured cfg);
      cbn [orb];
      try (rewrite !warnings_quiet;
           [lia | exact Hr | repeat constructor]).
    cbn [app]. unfold warnings at 1. cbn [filter is_warning NO_CHANNELS].
    cbn [List.length]. fold (warnings (rest ++ trace w)).
    rewrite warnings_quiet by exact Hr. lia.
  - intros env subject body w1 H. rewrite notify_posts.
    rewrite (proj1 N H). apply app_nil_r.
Qed.

(** ** The heading that [find] returns *)

Definition not_target (e : PageElement) : Prop := is_target e = false.

(** [h] is a child of [p], and [following] are the children of [p] after
    it. *)
Definition child_followed_by (p h : PageElement) (following : list PageElement)
  : Prop :=
  exists name attrs left, p = Tag name attrs (left ++ h :: following).

Lemma first_match_first (cs : list PageElement) :
  Forall (fun c => forall fo h f,
              search c fo = Some (h, f) ->
              exists before after,
                subtree c = before ++ h :: after
                /\ Forall not_target before
                /\ ((h = c /\ f = fo)
                    \/ exists p, In p (subtree c) /\ child_followed_by p h f))
         cs ->
  forall h f,
    first_match search cs = Some (h, f) ->
    exists before after,
      flat_map subtree cs = before ++ h :: after
      /\ Forall not_target before
      /\ ((exists left, cs = left ++ h :: f)
          \/ exists p, In p (flat_map subtree cs) /\ child_followed_by p h f).
Proof.
  induction 1 as [|c cs Hc _ IH]; intros h f; cbn [first_match flat_map];
    [discriminate|].
  destruct (search c cs) as [[h0 f0]|] eqn:E.
  - intros H. inversion H; subst h0 f0. clear H.
    destruct (Hc cs h f E) as [before [after [Es [Hb Hp]]]].
    exists before, (after ++ flat_map subtree cs).
    split; [rewrite Es, <- app_assoc; reflexivity|]. split; [exact Hb|].
    destruct Hp as [[-> ->]|[p [Hin Hp]]].
    + left. exists []. reflexivity.
    + right. exists p. split; [apply in_or_app; left; exact Hin | exact Hp].
  - intros H. destruct (IH h f H) as [before [after [Es [Hb Hp]]]].
    exists (subtree c ++ before), after.
    split; [rewrite Es, <- app_assoc; reflexivity|].
    split.
    + apply Forall_app. split; [|exact Hb].
      apply (proj1 (search_none c cs)). exact E.
    + destruct Hp as [[left ->]|[p [Hin Hp]]].
      * left. exists (c :: left). reflexivity.
      * right. exists p. split; [apply in_or_app; right; exact Hin | exact Hp].
Qed.

Lemma search_first (e : PageElement) :
  forall fo h f,
    search e fo = Some (h, f) ->
    exists before after,
      subtree e = before ++ h :: after
      /\ Forall not_target before
      /\ ((h = e /\ f = fo)
          \/ exists p, In p (subtree e) /\ child_followed_by p h f).
Proof.
  induction e as [name attrs cs IH|s] using tree_ind; intros fo h f.
  - cbn [search subtree]. destruct (is_target (Tag name attrs cs)) eqn:T.
    + intros H. inversion H; subst. exists [], (flat_map subtree cs).
      split; [reflexivity|]. split; [constructor|]. left. split; reflexivity.
    + intros H.
      destruct (first_match_first cs IH h f H) as [before [after [Es [Hb Hp]]]].
      exists (Tag name attrs cs :: before), after.
      split; [rewrite Es; reflexivity|].
      split; [constructor; [exact T | exact Hb]|].
      right. destruct Hp as [[left ->]|[p [Hin Hp]]].
      * exists (Tag name attrs (left ++ h :: f)).
        split; [left; reflexivity|]. exists name, attrs, left. reflexivity.
      * exists p. split; [right; exact Hin | exact Hp].
  - cbn. discriminate.
Qed.

Lemma take_until_prefix {A} (stop : A -> bool) (l : list A) :
  exists rest,
    l = take_until stop l ++ rest
    /\ match rest with [] => True | x :: _ => stop x = true end.
Proof.
  induction l as [|x r [rest [E H]]]; cbn [take_until].
  - exists []. split; [reflexivity | exact I].
  - destruct (stop x) eqn:S.
    + exists (x :: r). split; [reflexivity | exact S].
    + exists rest. split; [cbn [app]; rewrite <- E; reflexivity | exact H].
Qed.

(** X15. The heading that [find] returns is the first h5 with the target
    text in document order: no descendant of the document before it is one.
    The elements it is returned with are the later children of its parent
    (the document itself or one of its descendants), so the section is built
    from siblings of the heading only: the tags among them, in order, up to
    the first whose name starts with h. *)
Theorem find_first_in_document_order :
  forall soup header following,
    find soup = Some (header, following) ->
    (exists before after,
        descendants soup = before ++ header :: after
        /\ Forall (fun d => is_target d = false) before)
    /\ (exists parent name attrs left,
           In parent (soup :: descendants soup)
           /\ parent = Tag name attrs (left ++ header :: following))
    /\ (exists rest,
           filter is_tag following
           = take_until stops_at (find_next_siblings following) ++ rest
           /\ match rest with
              | [] => True
              | next :: _ => stops_at next = true
              end).
Proof.
  intros soup header following E.
  destruct soup as [name attrs cs|s]; cbn [find] in E; [|discriminate E].
  destruct (first_match_first cs) with (h := header) (f := following)
    as [before [after [Es [Hb Hp]]]].
  { apply Forall_forall. intros c _. apply search_first. }
  { exact E. }
  split; [|split].
  - exists before, after. split; [exact Es | exact Hb].
  - destruct Hp as [[left ->]|[p [Hin [n [a [left ->]]]]]].
    + exists (Tag name attrs (left ++ header :: following)), name, attrs, left.
      split; [left; reflexivity | reflexivity].
    + exists (Tag n a (left ++ header :: following)), n, a, left.
      split; [right; exact Hin | reflexivity].
  - apply take_until_prefix.
Qed.

(** A page with another h5 first and the heading inside a div. *)
Definition TARGET_ELEMENT : PageElement :=
  Tag (Py.lit "h5") [] [NavigableString TARGET_HEADING].

Definition page_nested : PageElement :=
  document [elem "h5" [txt "Other"];
            elem "div" [txt "x"; TARGET_ELEMENT; elem "p" [txt "A"]];
            TARGET_ELEMENT; elem "p" [txt "B"]].

Lemma find_first_in_document_order_witness :
  find page_nested = Some (TARGET_ELEMENT, [elem "p" [txt "A"]])
  /\ exists before after,
       descendants page_nested = before ++ TARGET_ELEMENT :: after
       /\ Forall (fun d => is_target d = false) before.
Proof.
  assert (E : find page_nested = Some (TARGET_ELEMENT, [elem "p" [txt "A"]]))
    by (vm_compute; reflexivity).
  split; [exact E|].
  exact (proj1 (find_first_in_document_order _ _ _ E)).
Defined.
